(** * gcp_log_toolbox: the log record processing pipeline

    A shallow embedding of [gcp_log_toolbox.py]: the format normalizer
    ([gcloudFormatter]), the field-path filter ([parseFilters], [filterLog]),
    the temporal extractors ([convertTimeString], [getTimeDeltas],
    [timeslice], [timeframe]), the sink ([writeOutput]), the prompt
    ([continuePrompt]), the merge ([mergeLogs]), the validation of the
    arguments ([validateArgs]) and the data frame of the statistics
    ([pdFrame], [statistics_len]).

    Conventions.
    - Text is a [string] of bytes; the whitespace and digit classes are the
      ASCII ones ([str.strip] also trims the spaces beyond ASCII, which such a
      text does not hold).
    - Python exceptions are values of [exn]; a computation that may raise
      returns a [result].
    - A file opened for reading is its text as Python hands it over (line
      ends already turned into newlines); [readlines] is the iteration
      [for line in f] (every line keeps its newline).
    - The output file is the trace of the chunks appended to it, for an
      output that is fresh and so is none of the files read; the part on files
      runs the operations on a file system, where the output may hold text
      already and may be one of the files read.  A failure of the file system
      other than a file that cannot be opened is not modelled.
    - [json.loads], [json.dump], [datetime.strptime], [pd.Timestamp] and
      [str] are library calls: the pipeline is parametric in them, and
      reference implementations ([json_loads], [json_dumps], [py_strptime])
      are used to run it on concrete ASCII texts.
    - Logging is left out.  The prompt is part of [mergeLogs]; the filter and
      the extractors are described for the run that goes on after it. *)

From Stdlib Require Import String Ascii List ZArith Lia Bool Arith.
Import ListNotations.
Local Open Scope string_scope.
Local Open Scope list_scope.

(** ** Python runtime *)

Inductive exn : Type :=
| KeyError
| TypeError
| IndexError
| ValueError
| JSONDecodeError
| OverflowError
| SystemExit.

Inductive result (A : Type) : Type :=
| OK (a : A)
| Raise (e : exn).

Arguments OK {A} a.
Arguments Raise {A} e.

Definition bind {A B : Type} (r : result A) (k : A -> result B) : result B :=
  match r with
  | OK a => k a
  | Raise e => Raise e
  end.

Notation "x <- r ;; k" := (bind r (fun x => k))
  (at level 61, r at next level, right associativity).

Definition nl_char : ascii := ascii_of_nat 10.
Definition dq_char : ascii := ascii_of_nat 34.
Definition nl : string := String nl_char EmptyString.

(** [str.isspace] on ASCII: tab .. carriage return, the four separators
    0x1c .. 0x1f, and the space. *)
Definition is_space (c : ascii) : bool :=
  let n := nat_of_ascii c in
  (Nat.leb 9 n && Nat.leb n 13) || (Nat.leb 28 n && Nat.leb n 32).

Fixpoint lstrip (s : string) : string :=
  match s with
  | EmptyString => EmptyString
  | String c r => if is_space c then lstrip r else s
  end.

Fixpoint rstrip (s : string) : string :=
  match s with
  | EmptyString => EmptyString
  | String c r =>
      match rstrip r with
      | EmptyString => if is_space c then EmptyString else String c EmptyString
      | r' => String c r'
      end
  end.

(** [s.strip()] *)
Definition strip (s : string) : string := rstrip (lstrip s).

(** [s.startswith(p)] *)
Definition startswith (s p : string) : bool := String.prefix p s.

(** [s.endswith(p)] *)
Definition endswith (s p : string) : bool :=
  Nat.leb (String.length p) (String.length s) &&
  String.eqb (substring (String.length s - String.length p) (String.length p) s) p.

(** [s[:-n]] for a positive [n] *)
Definition drop_last (n : nat) (s : string) : string :=
  substring 0 (String.length s - n) s.

(** [s[0:n]] *)
Fixpoint take (n : nat) (s : string) : string :=
  match n, s with
  | S n', String c r => String c (take n' r)
  | _, _ => EmptyString
  end.

(** [s.split(sep)] for a one-character separator: never empty. *)
Fixpoint split (sep : ascii) (s : string) : list string :=
  match s with
  | EmptyString => [EmptyString]
  | String c r =>
      if Ascii.eqb c sep then EmptyString :: split sep r
      else match split sep r with
           | h :: t => String c h :: t
           | [] => [String c EmptyString]
           end
  end.

(** [for line in f]: the text cut after every newline. *)
Fixpoint readlines (text : string) : list string :=
  match text with
  | EmptyString => []
  | String c r =>
      if Ascii.eqb c nl_char then String c EmptyString :: readlines r
      else match readlines r with
           | h :: t => String c h :: t
           | [] => [String c EmptyString]
           end
  end.

Definition unlines (l : list string) : string :=
  String.concat EmptyString (map (fun x => (x ++ nl)%string) l).

(** Concrete JSON texts below are written with apostrophes; [q] turns every
    apostrophe into a quotation mark. *)
Fixpoint q (s : string) : string :=
  match s with
  | EmptyString => EmptyString
  | String c r => String (if Ascii.eqb c "'"%char then dq_char else c) (q r)
  end.

(** ** Decoded JSON values *)

#[local] Set Warnings "-register-all,-abstract-large-number".

Inductive json : Type :=
| JNull
| JBool (b : bool)
| JNum (lexeme : string)
| JStr (s : string)
| JArr (items : list json)
| JObj (members : list (string * json)).

(** A decoded object is a [dict]: of two members with one key the later
    one is the value. *)
Fixpoint dict_get (k : string) (ms : list (string * json)) : option json :=
  match ms with
  | [] => None
  | (k', v) :: r =>
      match dict_get k r with
      | Some v' => Some v'
      | None => if String.eqb k' k then Some v else None
      end
  end.

(** [v[k]] for a [str] key [k]: [KeyError] on a mapping without the key,
    [TypeError] on every other decoded value (lists and strings take integer
    indices, numbers, booleans and [None] are not subscriptable). *)
Definition subscript (v : json) (k : string) : result json :=
  match v with
  | JObj ms =>
      match dict_get k ms with
      | Some x => OK x
      | None => Raise KeyError
      end
  | _ => Raise TypeError
  end.

(** [s[i]] for two [str]: string indices must be integers. *)
Definition str_subscript (s i : string) : result string := Raise TypeError.

(** [v == s] for a decoded value [v] and a [str] [s]: true only for an equal
    [str]. *)
Definition py_eq (v : json) (s : string) : bool :=
  match v with
  | JStr t => String.eqb t s
  | _ => false
  end.

(** ** Reference decoder

    [json_loads] follows the grammar [json.loads] accepts: insignificant
    whitespace is space, tab, newline and carriage return; a number keeps its
    lexeme; a string may not hold a control character; an escape [\uXXXX]
    is decoded when it denotes an ASCII character and refused otherwise
    (where [json.loads] decodes it: the reference is for ASCII texts). *)

Definition is_json_ws (c : ascii) : bool :=
  let n := nat_of_ascii c in
  Nat.eqb n 32 || Nat.eqb n 9 || Nat.eqb n 10 || Nat.eqb n 13.

Fixpoint skip_ws (s : string) : string :=
  match s with
  | String c r => if is_json_ws c then skip_ws r else s
  | EmptyString => EmptyString
  end.

Definition is_digit (c : ascii) : bool :=
  let n := nat_of_ascii c in Nat.leb 48 n && Nat.leb n 57.

Definition in_range (lo hi : ascii) (c : ascii) : bool :=
  Nat.leb (nat_of_ascii lo) (nat_of_ascii c) &&
  Nat.leb (nat_of_ascii c) (nat_of_ascii hi).

(** The longest run of digits at the head of [s], and what follows it. *)
Fixpoint span_digits (s : string) : string * string :=
  match s with
  | String c r =>
      if is_digit c then let (d, t) := span_digits r in (String c d, t)
      else (EmptyString, s)
  | EmptyString => (EmptyString, EmptyString)
  end.

Definition hex_val (c : ascii) : option nat :=
  let n := nat_of_ascii c in
  if is_digit c then Some (n - 48)
  else if in_range "a" "f" c then Some (n - 87)
  else if in_range "A" "F" c then Some (n - 55)
  else None.

Definition hex4 (s : string) : option (nat * string) :=
  match s with
  | String a (String b (String c (String d r))) =>
      match hex_val a, hex_val b, hex_val c, hex_val d with
      | Some x, Some y, Some z, Some w => Some (((x * 16 + y) * 16 + z) * 16 + w, r)
      | _, _, _, _ => None
      end
  | _ => None
  end.

(** The body of a string literal, after its opening quotation mark. *)
Fixpoint scan_string (fuel : nat) (s : string) : option (string * string) :=
  match fuel with
  | 0 => None
  | S fuel' =>
      match s with
      | EmptyString => None
      | String c r =>
          if Ascii.eqb c dq_char then Some (EmptyString, r)
          else if Ascii.eqb c "\"%char then
            match r with
            | String e r' =>
                let lit (x : ascii) :=
                  match scan_string fuel' r' with
                  | Some (t, rest) => Some (String x t, rest)
                  | None => None
                  end in
                if Ascii.eqb e dq_char then lit dq_char
                else if Ascii.eqb e "\"%char then lit "\"%char
                else if Ascii.eqb e "/"%char then lit "/"%char
                else if Ascii.eqb e "b"%char then lit (ascii_of_nat 8)
                else if Ascii.eqb e "f"%char then lit (ascii_of_nat 12)
                else if Ascii.eqb e "n"%char then lit (ascii_of_nat 10)
                else if Ascii.eqb e "r"%char then lit (ascii_of_nat 13)
                else if Ascii.eqb e "t"%char then lit (ascii_of_nat 9)
                else if Ascii.eqb e "u"%char then
                  match hex4 r' with
                  | Some (n, r'') =>
                      if Nat.ltb n 128 then
                        match scan_string fuel' r'' with
                        | Some (t, rest) => Some (String (ascii_of_nat n) t, rest)
                        | None => None
                        end
                      else None
                  | None => None
                  end
                else None
            | EmptyString => None
            end
          else if Nat.ltb (nat_of_ascii c) 32 then None
          else
            match scan_string fuel' r with
            | Some (t, rest) => Some (String c t, rest)
            | None => None
            end
      end
  end.

(** A number lexeme: an optional minus sign, an integer part without a
    leading zero, then an optional fraction and an optional exponent, each
    taken only when its digits are there. *)
Definition scan_number (s : string) : option (string * string) :=
  let (sign, s1) :=
    match s with
    | String "-" r => ("-", r)
    | _ => (EmptyString, s)
    end in
  let int_part :=
    match s1 with
    | String "0" r => Some ("0", r)
    | String c _ => if is_digit c then Some (span_digits s1) else None
    | EmptyString => None
    end in
  match int_part with
  | None => None
  | Some (i, s2) =>
      let (frac, s3) :=
        match s2 with
        | String "." r =>
            match span_digits r with
            | (EmptyString, _) => (EmptyString, s2)
            | (d, t) => (String "." d, t)
            end
        | _ => (EmptyString, s2)
        end in
      let (ex, s4) :=
        match s3 with
        | String e r =>
            if Ascii.eqb e "e"%char || Ascii.eqb e "E"%char then
              let (sg, r') :=
                match r with
                | String "+" t => ("+", t)
                | String "-" t => ("-", t)
                | _ => (EmptyString, r)
                end in
              match span_digits r' with
              | (EmptyString, _) => (EmptyString, s3)
              | (d, t) => (String e (sg ++ d), t)
              end
            else (EmptyString, s3)
        | EmptyString => (EmptyString, s3)
        end in
      Some ((sign ++ i ++ frac ++ ex)%string, s4)
  end.

Definition strip_prefix (p s : string) : option string :=
  if String.prefix p s
  then Some (substring (String.length p) (String.length s - String.length p) s)
  else None.

Fixpoint scan_value (fuel : nat) (s : string) : option (json * string) :=
  match fuel with
  | 0 => None
  | S fuel' =>
      match s with
      | EmptyString => None
      | String c r =>
          if Ascii.eqb c dq_char then
            match scan_string (S (String.length r)) r with
            | Some (t, rest) => Some (JStr t, rest)
            | None => None
            end
          else if Ascii.eqb c "{"%char then
            match skip_ws r with
            | String "}" rest => Some (JObj [], rest)
            | r' => scan_members fuel' r' []
            end
          else if Ascii.eqb c "["%char then
            match skip_ws r with
            | String "]" rest => Some (JArr [], rest)
            | r' => scan_items fuel' r' []
            end
          else
            match strip_prefix "null" s, strip_prefix "true" s,
                  strip_prefix "false" s with
            | Some rest, _, _ => Some (JNull, rest)
            | _, Some rest, _ => Some (JBool true, rest)
            | _, _, Some rest => Some (JBool false, rest)
            | None, None, None =>
                match scan_number s with
                | Some (lx, rest) => Some (JNum lx, rest)
                | None =>
                    match strip_prefix "NaN" s, strip_prefix "Infinity" s,
                          strip_prefix "-Infinity" s with
                    | Some rest, _, _ => Some (JNum "NaN", rest)
                    | _, Some rest, _ => Some (JNum "Infinity", rest)
                    | _, _, Some rest => Some (JNum "-Infinity", rest)
                    | None, None, None => None
                    end
                end
            end
      end
  end

(** the items of an array, from the first character of an item on *)
with scan_items (fuel : nat) (s : string) (acc : list json)
  : option (json * string) :=
  match fuel with
  | 0 => None
  | S fuel' =>
      match scan_value fuel' s with
      | None => None
      | Some (v, rest) =>
          match skip_ws rest with
          | String "," r => scan_items fuel' (skip_ws r) (acc ++ [v])
          | String "]" r => Some (JArr (acc ++ [v]), r)
          | _ => None
          end
      end
  end

(** the members of an object, from the quotation mark of a key on *)
with scan_members (fuel : nat) (s : string) (acc : list (string * json))
  : option (json * string) :=
  match fuel with
  | 0 => None
  | S fuel' =>
      match s with
      | String c r =>
          if Ascii.eqb c dq_char then
            match scan_string (S (String.length r)) r with
            | None => None
            | Some (k, rest) =>
                match skip_ws rest with
                | String ":" r1 =>
                    match scan_value fuel' (skip_ws r1) with
                    | None => None
                    | Some (v, rest') =>
                        match skip_ws rest' with
                        | String "," r2 =>
                            scan_members fuel' (skip_ws r2) (acc ++ [(k, v)])
                        | String "}" r2 => Some (JObj (acc ++ [(k, v)]), r2)
                        | _ => None
                        end
                    end
                | _ => None
                end
            end
          else None
      | EmptyString => None
      end
  end.

(** [json.loads(s)]: [None] stands for [json.JSONDecodeError]. *)
Definition json_loads (s : string) : option json :=
  match scan_value (S (String.length s)) (skip_ws s) with
  | Some (v, rest) =>
      match skip_ws rest with
      | EmptyString => Some v
      | _ => None
      end
  | None => None
  end.

(** ** datetime and timedelta

    A naive [datetime] is a point of the proleptic Gregorian time line, kept
    as its number of microseconds since 0001-01-01 00:00:00; comparison and
    arithmetic are those of the time line.  The type ends at
    9999-12-31 23:59:59.999999. *)

Local Open Scope Z_scope.

Definition datetime : Type := Z.
Definition timedelta : Type := Z.

Definition us_per_second : Z := 1000000.
Definition us_per_minute : Z := 60 * us_per_second.
Definition us_per_day : Z := 86400 * us_per_second.

Definition datetime_min : datetime := 0.
Definition datetime_max : datetime := 3652059 * us_per_day - 1.
Definition timedelta_min : timedelta := - 999999999 * us_per_day.
Definition timedelta_max : timedelta := 1000000000 * us_per_day - 1.

Definition is_leap (y : Z) : bool :=
  (y mod 4 =? 0) && (negb (y mod 100 =? 0) || (y mod 400 =? 0)).

Definition days_before_year (y : Z) : Z :=
  let p := y - 1 in p * 365 + p / 4 - p / 100 + p / 400.

Definition days_in_month (y m : Z) : Z :=
  if (m =? 2) && is_leap y then 29
  else nth (Z.to_nat m) [0; 31; 28; 31; 30; 31; 30; 31; 31; 30; 31; 30; 31] 0.

Definition days_before_month (y m : Z) : Z :=
  nth (Z.to_nat m) [0; 0; 31; 59; 90; 120; 151; 181; 212; 243; 273; 304; 334] 0
  + (if (2 <? m) && is_leap y then 1 else 0).

(** [datetime(y, m, d, H, M, S)]: [None] stands for its [ValueError]. *)
Definition mk_datetime (y m d H M S : Z) : option datetime :=
  if (1 <=? y) && (y <=? 9999) && (1 <=? m) && (m <=? 12) &&
     (1 <=? d) && (d <=? days_in_month y m) &&
     (0 <=? H) && (H <=? 23) && (0 <=? M) && (M <=? 59) &&
     (0 <=? S) && (S <=? 59)
  then
    let days := days_before_year y + days_before_month y m + d - 1 in
    Some ((((days * 24 + H) * 60 + M) * 60 + S) * us_per_second)
  else None.

(** [timedelta(minutes=size/2)] for an [int] size: half a minute is thirty
    seconds, so the value is exact; out of the type it is [OverflowError]. *)
Definition timedelta_half_minutes (size : Z) : result timedelta :=
  let td := size * (30 * us_per_second) in
  if (timedelta_min <=? td) && (td <=? timedelta_max) then OK td
  else Raise OverflowError.

(** [dt + td]: [OverflowError] when the sum leaves the type. *)
Definition datetime_add (dt : datetime) (td : timedelta) : result datetime :=
  let r := dt + td in
  if (datetime_min <=? r) && (r <=? datetime_max) then OK r
  else Raise OverflowError.

(** [dt - td] *)
Definition datetime_sub (dt : datetime) (td : timedelta) : result datetime :=
  datetime_add dt (- td).

(** ** Reference strptime

    [datetime.strptime] turns a format into a regular expression, takes the
    first match and demands that it covers the whole text.  Every directive
    is an alternation of fixed-length alternatives, tried from left to
    right; a space of the format stands for one or more whitespace
    characters; letters match in either case. *)

Definition cls : Type := ascii -> bool.
Definition is_char (x : ascii) : cls := fun c => Ascii.eqb c x.

Inductive piece : Type :=
| Directive (name : ascii) (alts : list (list cls))
| Literal (c : cls)
| Spaces.

Definition dir_Y : piece := Directive "Y" [[is_digit; is_digit; is_digit; is_digit]].
Definition dir_m : piece :=
  Directive "m" [[is_char "1"; in_range "0" "2"]; [is_char "0"; in_range "1" "9"];
                 [in_range "1" "9"]].
Definition dir_d : piece :=
  Directive "d" [[is_char "3"; in_range "0" "1"]; [in_range "1" "2"; is_digit];
                 [is_char "0"; in_range "1" "9"]; [in_range "1" "9"];
                 [is_char " "; in_range "1" "9"]].
Definition dir_H : piece :=
  Directive "H" [[is_char "2"; in_range "0" "3"]; [in_range "0" "1"; is_digit];
                 [is_digit]].
Definition dir_M : piece := Directive "M" [[in_range "0" "5"; is_digit]; [is_digit]].
Definition dir_S : piece :=
  Directive "S" [[is_char "6"; in_range "0" "1"]; [in_range "0" "5"; is_digit];
                 [is_digit]].

Definition fmt_space : string := "%Y-%m-%d %H:%M:%S".
Definition fmt_T : string := "%Y-%m-%dT%H:%M:%S".

Definition pattern_of (sep : piece) : list piece :=
  [dir_Y; Literal (is_char "-"); dir_m; Literal (is_char "-"); dir_d; sep;
   dir_H; Literal (is_char ":"); dir_M; Literal (is_char ":"); dir_S].

Fixpoint match_alt (a : list cls) (s : string) : option (string * string) :=
  match a with
  | [] => Some (EmptyString, s)
  | p :: a' =>
      match s with
      | String c r =>
          if p c then
            match match_alt a' r with
            | Some (m, rest) => Some (String c m, rest)
            | None => None
            end
          else None
      | EmptyString => None
      end
  end.

(** The ways of matching one or more whitespace characters, longest first. *)
Fixpoint match_spaces (s : string) : list string :=
  match s with
  | String c r => if is_space c then match_spaces r ++ [r] else []
  | EmptyString => []
  end.

Definition captures : Type := list (ascii * string).

(** All the matches of a pattern at the head of [s], in the order a
    backtracking matcher finds them. *)
Fixpoint match_pattern (ps : list piece) (s : string) : list (captures * string) :=
  match ps with
  | [] => [([], s)]
  | Directive name alts :: ps' =>
      flat_map
        (fun a =>
           match match_alt a s with
           | Some (m, rest) =>
               map (fun '(cs, r) => ((name, m) :: cs, r)) (match_pattern ps' rest)
           | None => []
           end)
        alts
  | Literal p :: ps' =>
      match s with
      | String c r => if p c then match_pattern ps' r else []
      | EmptyString => []
      end
  | Spaces :: ps' => flat_map (match_pattern ps') (match_spaces s)
  end.

(** [int(s)] for digits with surrounding whitespace. *)
Fixpoint int_of_digits (acc : Z) (s : string) : Z :=
  match s with
  | String c r =>
      if is_digit c then int_of_digits (acc * 10 + Z.of_nat (nat_of_ascii c - 48)) r
      else int_of_digits acc r
  | EmptyString => acc
  end.

Definition capture (name : ascii) (cs : captures) : Z :=
  match find (fun p => Ascii.eqb (fst p) name) cs with
  | Some (_, m) => int_of_digits 0 m
  | None => 0
  end.

(** [datetime.strptime(data, fmt)] for the two formats of the toolbox;
    [None] stands for [ValueError]. *)
Definition py_strptime (data fmt : string) : option datetime :=
  let sep :=
    if String.eqb fmt fmt_space then Some Spaces
    else if String.eqb fmt fmt_T
         then Some (Literal (fun c => Ascii.eqb c "T" || Ascii.eqb c "t"))
         else None in
  match sep with
  | None => None
  | Some sp =>
      match match_pattern (pattern_of sp) data with
      | (cs, EmptyString) :: _ =>
          mk_datetime (capture "Y" cs) (capture "m" cs) (capture "d" cs)
                      (capture "H" cs) (capture "M" cs) (capture "S" cs)
      | _ => None
      end
  end.

(** ** The sink

    [writeOutput(data, encode, output)] opens the output file for appending
    and adds one chunk to it: with [encode] true the serialized record and a
    newline, otherwise the text as it is.  A run is described by the chunks
    it appends, in order: [writeOutput(log, True, output)] appends
    [Encoded log], [writeOutput(log, False, output)] appends [Verbatim log]. *)

Inductive chunk : Type :=
| Encoded (data : json)
| Verbatim (data : string).

Definition sink : Type := list chunk.

Definition writeOutput (data : chunk) (output : sink) : sink := output ++ [data].

(** The text the chunks leave in a fresh file, for a serializer [dumps]. *)
Definition chunk_text (dumps : json -> string) (c : chunk) : string :=
  match c with
  | Encoded v => (dumps v ++ nl)%string
  | Verbatim t => t
  end.

Definition file_text (dumps : json -> string) (o : sink) : string :=
  String.concat EmptyString (map (chunk_text dumps) o).

(** [l[i]] on a list of strings *)
Definition list_index (l : list string) (i : nat) : result string :=
  match nth_error l i with
  | Some x => OK x
  | None => Raise IndexError
  end.

(** ** The format normalizer *)

Record formatter : Type := mkFormatter {
  log : string;
  count : nat;
  notify : nat;
  output : sink
}.

Definition gcloud_line (st : formatter) (line : string) : formatter :=
  let st :=
    if Nat.eqb (count st) (notify st)
    then mkFormatter (log st) (count st) (notify st + 10000)%nat (output st)
    else st in
  if startswith (strip line) "[" then st
  else if startswith line "  {" then
    mkFormatter (log st ++ strip line) (count st) (notify st) (output st)
  else if startswith line "  }" && endswith (strip line) "," then
    let line := drop_last 2 line in
    let log' := (log st ++ strip line)%string in
    mkFormatter nl (count st + 1)%nat (notify st) (writeOutput (Verbatim log') (output st))
  else if startswith line "  }" then
    let line := drop_last 1 line in
    let log' := (log st ++ strip line)%string in
    mkFormatter nl (count st + 1)%nat (notify st) (writeOutput (Verbatim log') (output st))
  else if startswith line "]" then st
  else if Nat.ltb 5 (String.length line) then
    mkFormatter (log st ++ strip line) (count st) (notify st) (output st)
  else st.

Definition gcloudFormatter (file : string) : sink :=
  output (fold_left gcloud_line (readlines file)
                    (mkFormatter EmptyString 0%nat 10000%nat [])).

(** ** The field-path filter *)

(** [parseFilters(filterString, filter)]: the first argument is only
    logged. *)
Definition parseFilters (filterString filter : string) : list (list string) :=
  map (split "=") (split "," filter).

(** The [if]/[elif] chain on [len(fields)], which the source writes out once
    for [include] and once for [exclude] with the same left-hand sides: the
    value that the taken branch compares with [value], or [None] when no
    branch is taken.  The fifth and sixth branch test [len(fields) == 2]
    again and are never reached. *)
Definition field_value (log : json) (fields : list string) : result (option json) :=
  match fields with
  | [f0] =>
      v <- subscript log f0 ;; OK (Some v)
  | [f0; f1] =>
      a <- subscript log f0 ;; v <- subscript a f1 ;; OK (Some v)
  | [f0; f1; f2] =>
      a <- subscript log f0 ;; b <- subscript a f1 ;; v <- subscript b f2 ;;
      OK (Some v)
  | [f0; f1; f2; f3] =>
      a <- subscript log f0 ;;
      i <- str_subscript f1 f2 ;;
      j <- str_subscript i f3 ;;
      v <- subscript a j ;;
      OK (Some v)
  | _ => OK None
  end.

Definition is_include (filterString : string) : bool := String.eqb filterString "include".
Definition is_exclude (filterString : string) : bool := String.eqb filterString "exclude".

(** One turn of [for item in filterList]: the output and [excludeCount]
    after it. *)
Definition filter_item (filterString : string) (log : json) (item : list string)
    (out : sink) (excludeCount : nat) : result (sink * nat) :=
  path <- list_index item 0 ;;
  let fields := split "." path in
  v <- list_index item 1 ;;
  let value := strip v in
  out' <-
    (if is_include filterString then
       match field_value log fields with
       | OK (Some x) =>
           OK (if py_eq x value then writeOutput (Encoded log) out else out)
       | OK None => OK out
       | Raise KeyError => _ <- subscript log "insertId" ;; OK out
       | Raise e => Raise e
       end
     else OK out) ;;
  if is_exclude filterString then
    match field_value log fields with
    | OK (Some x) =>
        OK (out', if negb (py_eq x value) then S excludeCount else excludeCount)
    | OK None => OK (out', excludeCount)
    | Raise KeyError => OK (out', S excludeCount)
    | Raise e => Raise e
    end
  else OK (out', excludeCount).

(** [for item in filterList]; an exception leaves the output as it was
    when it was raised. *)
Fixpoint filter_items (filterString : string) (log : json)
    (filterList : list (list string)) (out : sink) (excludeCount : nat)
    : sink * result nat :=
  match filterList with
  | [] => (out, OK excludeCount)
  | item :: rest =>
      match filter_item filterString log item out excludeCount with
      | OK (out', n) => filter_items filterString log rest out' n
      | Raise e => (out, Raise e)
      end
  end.

Section Pipeline.

(** [json.loads]: [None] stands for [json.JSONDecodeError]. *)
Variable loads : string -> option json.

(** [datetime.strptime]: [None] stands for [ValueError]. *)
Variable strptime : string -> string -> option datetime.

(** The body of [for line in f] of [filterLog]. *)
Definition filter_line (filterString : string) (filterList : list (list string))
    (line : string) (out : sink) : sink * result unit :=
  match loads line with
  | None => (out, Raise JSONDecodeError)
  | Some log =>
      match filter_items filterString log filterList out 0%nat with
      | (out', OK excludeCount) =>
          if is_exclude filterString && Nat.eqb excludeCount (List.length filterList)
          then (writeOutput (Encoded log) out', OK tt)
          else (out', OK tt)
      | (out', Raise e) => (out', Raise e)
      end
  end.

Fixpoint filter_lines (filterString : string) (filterList : list (list string))
    (lines : list string) (out : sink) : sink * result unit :=
  match lines with
  | [] => (out, OK tt)
  | line :: rest =>
      match filter_line filterString filterList line out with
      | (out', OK _) => filter_lines filterString filterList rest out'
      | (out', Raise e) => (out', Raise e)
      end
  end.

(** [filterLog(file, cont, output, filterVal, filterString)]: [filterVal]
    is the text of the conditions, [filterString] the mode. *)
Definition filterLog (file filterVal filterString : string) : sink * result unit :=
  let filterList := parseFilters filterString filterVal in
  filter_lines filterString filterList (readlines file) [].

(** ** The temporal extractors *)

(** [sys.exit()] after a failed parse is [SystemExit]. *)
Definition convertTimeString (s : string) : result datetime :=
  match strptime s fmt_space with
  | Some dateTimeVal => OK dateTimeVal
  | None => Raise SystemExit
  end.

(** The handler of [getTimeDeltas] is for [ValueError]; the arithmetic
    raises [OverflowError] only, which passes through it. *)
Definition getTimeDeltas (dateTimeVal : datetime) (size : Z)
    : result (datetime * datetime) :=
  d1 <- timedelta_half_minutes size ;;
  startDateTime <- datetime_sub dateTimeVal d1 ;;
  d2 <- timedelta_half_minutes size ;;
  endDateTime <- datetime_add dateTimeVal d2 ;;
  OK (startDateTime, endDateTime).

(** [ts[0:19]] as the argument of [strptime]: a text for a [str], and
    [TypeError] for every other decoded value. *)
Definition timestamp_text (ts : json) : result string :=
  match ts with
  | JStr s => OK (take 19 s)
  | _ => Raise TypeError
  end.

(** [tmp >= startDateTime and tmp <= endDateTime] *)
Definition in_window (startDateTime endDateTime tmp : datetime) : bool :=
  (startDateTime <=? tmp) && (tmp <=? endDateTime).

(** The body of [for line in f] of [timeslice] and of [timeframe], which
    are the same text: the record to write, if any. *)
Definition window_line (startDateTime endDateTime : datetime) (line : string)
    : result (option json) :=
  match loads line with
  | None => Raise JSONDecodeError
  | Some log =>
      ts <- subscript log "timestamp" ;;
      s <- timestamp_text ts ;;
      match strptime s fmt_T with
      | None => Raise ValueError
      | Some tmp =>
          OK (if in_window startDateTime endDateTime tmp then Some log else None)
      end
  end.

Fixpoint window_lines (startDateTime endDateTime : datetime)
    (lines : list string) (out : sink) : sink * result unit :=
  match lines with
  | [] => (out, OK tt)
  | line :: rest =>
      match window_line startDateTime endDateTime line with
      | OK (Some log) =>
          window_lines startDateTime endDateTime rest (writeOutput (Encoded log) out)
      | OK None => window_lines startDateTime endDateTime rest out
      | Raise e => (out, Raise e)
      end
  end.

(** The window of [timeslice]. *)
Definition timeslice_window (size : Z) (dateTimeString : string)
    : result (datetime * datetime) :=
  dateTimeVal <- convertTimeString dateTimeString ;;
  getTimeDeltas dateTimeVal size.

Definition timeslice (file : string) (size : Z) (dateTimeString : string)
    : sink * result unit :=
  match timeslice_window size dateTimeString with
  | OK (startDateTime, endDateTime) =>
      window_lines startDateTime endDateTime (readlines file) []
  | Raise e => ([], Raise e)
  end.

(** The window of [timeframe]: the handler around it is for [ValueError],
    which nothing in it raises ([convertTimeString] leaves by [SystemExit], a
    missing second part is an [IndexError]). *)
Definition timeframe_window (timeframe : string) : result (datetime * datetime) :=
  let tmp := split ">" timeframe in
  t0 <- list_index tmp 0 ;;
  startDateTime <- convertTimeString (strip t0) ;;
  t1 <- list_index tmp 1 ;;
  endDateTime <- convertTimeString (strip t1) ;;
  OK (startDateTime, endDateTime).

Definition timeframe (file : string) (timeframe : string) : sink * result unit :=
  match timeframe_window timeframe with
  | OK (startDateTime, endDateTime) =>
      window_lines startDateTime endDateTime (readlines file) []
  | Raise e => ([], Raise e)
  end.

End Pipeline.

(** ** The prompt

    [continuePrompt(cont)] reads answers from the terminal until one is in
    the tuple of the [while] test.  The answers still to come are a list; an
    empty list is the end of the input, where [input] raises [EOFError]. *)

Definition loop_answers : list string :=
  ["yes"; "Yes"; "Y"; "y"; "YES"; "no"; "No"; "N"; "n"; "NO"].
Definition yes_answers : list string := ["yes"; "Yes"; "Y"; "y"; "YES"].
Definition no_answers : list string := ["no"; "No"; "N"; "n"; "No"].

Definition mem (x : string) (l : list string) : bool := existsb (String.eqb x) l.

Inductive prompted : Type :=
| Proceed (rest : list string)
| Exited
| InputEnded.

Fixpoint prompt_loop (answers : list string) : prompted :=
  match answers with
  | [] => InputEnded
  | answer :: rest =>
      let again :=
        if mem answer loop_answers then Proceed rest else prompt_loop rest in
      if mem answer yes_answers then again
      else if mem answer no_answers then Exited
      else again
  end.

Definition continuePrompt (cont : bool) (answers : list string) : prompted :=
  if cont then Proceed answers else prompt_loop answers.

(** ** The merge

    [getFileListing] asks the file system; its result [fileList] and the
    opening of a file ([None] stands for [OSError]) are given.  Here the
    output is a file that is not in the listing, so that what a listed file
    holds does not change during the run; [merge_files_in] below reads every
    file from the file system when its turn comes.  The ends of a
    merge: done, or the exception raised for an empty listing, the exit or
    the end of input at the prompt, or the exception raised for the file that
    could not be opened. *)

Inductive merge_end : Type :=
| Merged
| NoFilesIdentified
| PromptExit
| PromptInputEnded
| FailedToOpen (item : string).

Fixpoint merge_files (open_file : string -> option string)
    (fileList : list string) (out : sink) : sink * merge_end :=
  match fileList with
  | [] => (out, Merged)
  | item :: rest =>
      match open_file item with
      | Some content =>
          merge_files open_file rest (writeOutput (Verbatim content) out)
      | None => (out, FailedToOpen item)
      end
  end.

Definition mergeLogs (open_file : string -> option string)
    (fileList : list string) (cont : bool) (answers : list string)
    : sink * merge_end :=
  if Nat.eqb (List.length fileList) 0 then ([], NoFilesIdentified)
  else
    match continuePrompt cont answers with
    | Proceed _ => merge_files open_file fileList []
    | Exited => ([], PromptExit)
    | InputEnded => ([], PromptInputEnded)
    end.

(** ** The validation of the arguments

    [parser.error] prints and leaves by [SystemExit]. *)

Record args : Type := mkArgs {
  arg_statistics : bool;
  arg_timeslice : option string;
  arg_timeframe : option string;
  arg_merge : bool;
  arg_filter : option string;
  arg_download : option string;
  arg_gcloudformatter : bool;
  arg_bucketid : option string;
  arg_file : option string;
  arg_output : option string;
  arg_type : option string;
  arg_key : option string
}.

Definition is_None {A : Type} (o : option A) : bool :=
  match o with
  | None => true
  | Some _ => false
  end.

(** [if missing: parser.error(...)] *)
Definition error_if (missing : bool) : result unit :=
  if missing then Raise SystemExit else OK tt.

Definition is_cloudstorage (d : option string) : bool :=
  match d with
  | Some x => String.eqb x "cloudstorage"
  | None => false
  end.

Definition validateArgs (a : args) : result unit :=
  _ <- (if arg_statistics a then error_if (is_None (arg_file a)) else OK tt) ;;
  _ <- (if negb (is_None (arg_timeslice a)) then
          _ <- error_if (is_None (arg_file a)) ;;
          error_if (is_None (arg_output a))
        else OK tt) ;;
  _ <- (if negb (is_None (arg_timeframe a)) then
          _ <- error_if (is_None (arg_file a)) ;;
          error_if (is_None (arg_output a))
        else OK tt) ;;
  _ <- (if arg_merge a then
          _ <- error_if (is_None (arg_file a)) ;;
          error_if (is_None (arg_output a))
        else OK tt) ;;
  _ <- (if negb (is_None (arg_filter a)) then
          _ <- error_if (is_None (arg_file a)) ;;
          _ <- error_if (is_None (arg_type a)) ;;
          error_if (is_None (arg_output a))
        else OK tt) ;;
  _ <- (if is_cloudstorage (arg_download a) then
          _ <- error_if (is_None (arg_bucketid a)) ;;
          error_if (is_None (arg_output a))
        else OK tt) ;;
  if arg_gcloudformatter a then
    _ <- error_if (is_None (arg_file a)) ;;
    error_if (is_None (arg_file a))
  else OK tt.

(** ** The data frame of the statistics

    [pd.Timestamp] and [str] are library calls: a row holds what they return.
    A [KeyError] inside one of the four [try] blocks, wherever it comes from,
    puts ['no value'] in the cell. *)

Section Frame.

Variable loads : string -> option json.
Variable T : Type.
Variable pd_Timestamp : json -> result T.
Variable py_str : json -> string.

Inductive cell : Type :=
| Stamp (t : T)
| Text (s : string).

Definition or_no_value (r : result cell) : result cell :=
  match r with
  | Raise KeyError => OK (Text "no value")
  | _ => r
  end.

Definition pdFrame_row (log : json) : result (list cell) :=
  c1 <- or_no_value (ts <- subscript log "timestamp" ;;
                     t <- pd_Timestamp ts ;; OK (Stamp t)) ;;
  c2 <- or_no_value (r <- subscript log "resource" ;;
                     v <- subscript r "type" ;; OK (Text (py_str v))) ;;
  c3 <- or_no_value (v <- subscript log "severity" ;; OK (Text (py_str v))) ;;
  c4 <- or_no_value (p <- subscript log "protoPayload" ;;
                     a <- subscript p "authenticationInfo" ;;
                     v <- subscript a "principalEmail" ;; OK (Text (py_str v))) ;;
  OK [c1; c2; c3; c4].

Fixpoint pdFrame_lines (lines : list string) (data : list (list cell))
  : result (list (list cell)) :=
  match lines with
  | [] => OK data
  | line :: rest =>
      match loads line with
      | None => Raise JSONDecodeError
      | Some log =>
          tmp <- pdFrame_row log ;;
          pdFrame_lines rest (data ++ [tmp])
      end
  end.

Definition pdFrame (file : string) : result (list (list cell)) :=
  pdFrame_lines (readlines file) [].

Definition statistics_len (logs : list (list cell)) : nat := List.length logs.

End Frame.

Arguments Stamp {T} t.
Arguments Text {T} s.

(** * Definitions for the statements *)

(** ** Generic path resolution

    The descent the specification describes: one mapping key per segment,
    for a path of any length; [None] when a key is absent or a value on the
    way is not a mapping. *)
Fixpoint resolve_path (v : json) (fields : list string) : option json :=
  match fields with
  | [] => Some v
  | f :: rest =>
      match v with
      | JObj ms =>
          match dict_get f ms with
          | Some x => resolve_path x rest
          | None => None
          end
      | _ => None
      end
  end.

(** The same descent with the exceptions of the subscripts. *)
Fixpoint descend (v : json) (fields : list string) : result json :=
  match fields with
  | [] => OK v
  | f :: rest => x <- subscript v f ;; descend x rest
  end.

(** ** The input format of the normalizer

    An array printed with two-space indentation: the line of the opening
    bracket, then for every object its opening line, its interior lines and
    its closing line (followed by a comma unless the object is the last),
    then the line of the closing bracket.  Lines are given without their
    newline. *)

Fixpoint no_newline (s : string) : bool :=
  match s with
  | EmptyString => true
  | String c r => negb (Ascii.eqb c nl_char) && no_newline r
  end.

Definition object_lines (last : bool) (interior : list string) : list string :=
  "  {" :: interior ++ [if last then "  }" else "  },"].

Fixpoint array_lines (objs : list (list string)) : list string :=
  match objs with
  | [] => []
  | [o] => object_lines true o
  | o :: rest => object_lines false o ++ array_lines rest
  end.

Definition array_text (objs : list (list string)) : string :=
  unlines ("[" :: array_lines objs ++ ["]"]).

(** An interior line is one that the normalizer takes for content of the
    object in progress. *)
Definition interior_line (b : string) : bool :=
  let line := (b ++ nl)%string in
  no_newline b &&
  negb (startswith (strip line) "[") &&
  negb (startswith line "  {") &&
  negb (startswith line "  }") &&
  negb (startswith line "]") &&
  Nat.ltb 5 (String.length line).

(** The object on one line: its lines trimmed and put one after the other. *)
Definition one_line (interior : list string) : string :=
  ("{" ++ String.concat EmptyString (map strip interior) ++ "}")%string.

(** Lines of which all but the last end in a newline. *)
Fixpoint separated (l : list string) : list string :=
  match l with
  | [] => []
  | [x] => [x]
  | x :: r => (x ++ nl)%string :: separated r
  end.

(** ** Views of the embedding *)

(** What a line does to the buffer and to the output; the two counters
    serve the progress messages only. *)
Definition gcloud_io (lo : string * sink) (line : string) : string * sink :=
  let (l, o) := lo in
  if startswith (strip line) "[" then (l, o)
  else if startswith line "  {" then ((l ++ strip line)%string, o)
  else if startswith line "  }" && endswith (strip line) "," then
    (nl, writeOutput (Verbatim (l ++ strip (drop_last 2 line))) o)
  else if startswith line "  }" then
    (nl, writeOutput (Verbatim (l ++ strip (drop_last 1 line))) o)
  else if startswith line "]" then (l, o)
  else if Nat.ltb 5 (String.length line) then ((l ++ strip line)%string, o)
  else (l, o).

(** The chunks written for the objects of an array, the buffer being [l]
    at the first. *)
Definition object_chunks (l : string) (objs : list (list string)) : sink :=
  match objs with
  | [] => []
  | o :: rest =>
      Verbatim (l ++ one_line o)
      :: map (fun x => Verbatim (nl ++ one_line x)) rest
  end.

(** An array whose only object holds an array of arrays. *)
Definition nested_array_file : string :=
  array_text [[q "    'a': ["; "      ["; "        1"; "      ]"; "    ]"]].

(** What the [include] branch does with one condition: [OK true] when it
    writes the record, [OK false] when it does not, or the exception that
    leaves it (a [KeyError] is handled, but the handler reads
    [log['insertId']]). *)
Definition include_outcome (log : json) (item : list string) : result bool :=
  path <- list_index item 0 ;;
  v <- list_index item 1 ;;
  match field_value log (split "." path) with
  | OK (Some x) => OK (py_eq x (strip v))
  | OK None => OK false
  | Raise KeyError => _ <- subscript log "insertId" ;; OK false
  | Raise e => Raise e
  end.

(** What the [exclude] branch does with one condition: [OK true] when it
    adds one to [excludeCount]. *)
Definition exclude_outcome (log : json) (item : list string) : result bool :=
  path <- list_index item 0 ;;
  v <- list_index item 1 ;;
  match field_value log (split "." path) with
  | OK (Some x) => OK (negb (py_eq x (strip v)))
  | OK None => OK false
  | Raise KeyError => OK true
  | Raise e => Raise e
  end.

(** A condition matches a record when the [include] branch writes it. *)
Definition condition_matches (log : json) (item : list string) : bool :=
  match include_outcome log item with
  | OK true => true
  | _ => false
  end.

(** The conditions that [include] evaluates on a record: those before the
    first that raises. *)
Fixpoint evaluated (log : json) (filterList : list (list string))
  : list (list string) :=
  match filterList with
  | [] => []
  | item :: rest =>
      match include_outcome log item with
      | OK _ => item :: evaluated log rest
      | Raise _ => []
      end
  end.

Definition matches_count (log : json) (filterList : list (list string)) : nat :=
  List.length (filter (condition_matches log) filterList).

(** What an [include] run writes for a line that decodes: the record, once
    for every condition that matches. *)
Definition include_writes (loads : string -> option json)
    (filterList : list (list string)) (line : string) : sink :=
  match loads line with
  | Some log => repeat (Encoded log) (matches_count log filterList)
  | None => []
  end.

(** The ways in which a line fails in the extractors: it does not decode,
    its record has no [timestamp], or the text of the timestamp does not
    parse. *)
Inductive line_error (loads : string -> option json)
    (strptime : string -> string -> option datetime) (line : string)
  : exn -> Prop :=
| malformed_line :
    loads line = None -> line_error loads strptime line JSONDecodeError
| absent_timestamp (ms : list (string * json)) :
    loads line = Some (JObj ms) -> dict_get "timestamp" ms = None ->
    line_error loads strptime line KeyError
| unparseable_timestamp (log : json) (s : string) :
    loads line = Some log -> subscript log "timestamp" = OK (JStr s) ->
    strptime (take 19 s) fmt_T = None ->
    line_error loads strptime line ValueError.

(** A condition counts against a record when the [exclude] branch adds one
    to [excludeCount]. *)
Definition condition_mismatches (log : json) (item : list string) : bool :=
  match exclude_outcome log item with
  | OK true => true
  | _ => false
  end.

Definition mismatch_count (log : json) (filterList : list (list string)) : nat :=
  List.length (filter (condition_mismatches log) filterList).

(** ** Sample records *)

Definition notice_record : json :=
  JObj [("timestamp", JStr "2019-07-22T20:04:31.000Z"); ("severity", JStr "NOTICE")].

Definition depth3_line : string := q "{'a':{'b':{'c':'x'}}}".
Definition depth4_line : string := q "{'a':{'b':{'c':{'d':'x'}}}}".
Definition depth5_line : string := q "{'a':{'b':{'c':{'d':{'e':'x'}}}}}".
Definition depth6_line : string := q "{'a':{'b':{'c':{'d':{'e':{'f':'x'}}}}}}".

Definition decoded (line : string) : json :=
  match json_loads line with
  | Some v => v
  | None => JNull
  end.

Definition status_line : string := q "{'status': 200, 'ok': true}".

Definition before_line : string := q "{'timestamp':'2019-07-22T20:04:00.999Z','n':1}".
Definition at_end_line : string := q "{'timestamp':'2019-07-22T20:05:01.999Z','n':2}".
Definition after_line : string := q "{'timestamp':'2019-07-22T20:05:02.000Z','n':3}".

Definition notice_line : string :=
  q "{'timestamp':'2019-07-22T20:04:31.000Z','severity':'NOTICE'}".

(** ** Texts without a separator, texts that end their last line *)

Fixpoint no_char (x : ascii) (s : string) : bool :=
  match s with
  | EmptyString => true
  | String c r => negb (Ascii.eqb c x) && no_char x r
  end.

(** A text is terminated when it is empty or its last character is a
    newline. *)
Fixpoint terminated (s : string) : bool :=
  match s with
  | EmptyString => true
  | String c EmptyString => Ascii.eqb c nl_char
  | String _ r => terminated r
  end.

Fixpoint count_char (x : ascii) (s : string) : nat :=
  match s with
  | EmptyString => 0%nat
  | String c r => ((if Ascii.eqb c x then 1 else 0) + count_char x r)%nat
  end.

(** ** The arguments a validation lets through *)

Definition given {A : Type} (o : option A) : bool := negb (is_None o).

Definition accepted (a : args) : bool :=
  implb (arg_statistics a) (given (arg_file a)) &&
  implb (given (arg_timeslice a)) (given (arg_file a) && given (arg_output a)) &&
  implb (given (arg_timeframe a)) (given (arg_file a) && given (arg_output a)) &&
  implb (arg_merge a) (given (arg_file a) && given (arg_output a)) &&
  implb (given (arg_filter a))
        (given (arg_file a) && given (arg_type a) && given (arg_output a)) &&
  implb (is_cloudstorage (arg_download a))
        (given (arg_bucketid a) && given (arg_output a)) &&
  implb (arg_gcloudformatter a) (given (arg_file a)).

(** ** Reference serializer

    [json.dumps] with its default separators, for values whose strings are
    ASCII, whose objects have no key twice and whose numbers are written as
    they were read. *)

Definition hex_digit (n : nat) : ascii :=
  ascii_of_nat (if Nat.ltb n 10 then 48 + n else 87 + n).

Fixpoint escape (s : string) : string :=
  match s with
  | EmptyString => EmptyString
  | String c r =>
      let n := nat_of_ascii c in
      let e :=
        if Ascii.eqb c dq_char then String "\" (String dq_char EmptyString)
        else if Ascii.eqb c "\" then "\\"
        else if Nat.eqb n 10 then "\n"
        else if Nat.eqb n 13 then "\r"
        else if Nat.eqb n 9 then "\t"
        else if Nat.eqb n 8 then "\b"
        else if Nat.eqb n 12 then "\f"
        else if Nat.ltb n 32
             then ("\u00" ++ String (hex_digit (n / 16))
                               (String (hex_digit (n mod 16)) EmptyString))%string
             else String c EmptyString in
      (e ++ escape r)%string
  end.

Definition quoted (s : string) : string :=
  (String dq_char (escape s) ++ String dq_char EmptyString)%string.

Fixpoint json_dumps (v : json) : string :=
  match v with
  | JNull => "null"
  | JBool true => "true"
  | JBool false => "false"
  | JNum lexeme => lexeme
  | JStr s => quoted s
  | JArr items =>
      ("[" ++ String.concat ", " (map json_dumps items) ++ "]")%string
  | JObj members =>
      ("{" ++ String.concat ", "
                (map (fun kv => (quoted (fst kv) ++ ": " ++ json_dumps (snd kv))%string)
                     members)
           ++ "}")%string
  end.

(** ** Runs described by their records *)

(** What an [exclude] run writes for a line that decodes: the record, when
    every condition counts against it. *)
Definition exclude_writes (loads : string -> option json)
    (filterList : list (list string)) (line : string) : sink :=
  match loads line with
  | Some log =>
      if forallb (condition_mismatches log) filterList then [Encoded log] else []
  | None => []
  end.

(** A line of an extractor's input and the record and timestamp read from
    it. *)
Definition reads_as (loads : string -> option json)
    (strptime : string -> string -> option datetime)
    (line : string) (r : json * datetime) : Prop :=
  exists s, loads line = Some (fst r) /\
            subscript (fst r) "timestamp" = OK (JStr s) /\
            strptime (take 19 s) fmt_T = Some (snd r).

(** The records of a window, written in their order. *)
Definition window_records (a b : datetime) (recs : list (json * datetime)) : sink :=
  map (fun r => Encoded (fst r)) (filter (fun r => in_window a b (snd r)) recs).

(** A serializer that the decoder undoes on a record, on one line. *)
Definition round_trips (loads : string -> option json) (dumps : json -> string)
    (log : json) : Prop :=
  loads (dumps log ++ nl)%string = Some log /\ no_newline (dumps log) = true.

(** ** Further samples and counts *)

Definition info_line : string :=
  q "{'timestamp':'2019-07-22T20:04:40.000Z','severity':'INFO'}".

(** The number of times an [exclude] run writes a record. *)
Definition kept (log : json) (filterList : list (list string)) : nat :=
  if forallb (condition_mismatches log) filterList then 1%nat else 0%nat.

(** Stand-ins for [pd.Timestamp] and [str] in the examples of the data
    frame: the time read from the first 19 characters of a text, and the text
    of a [str] itself. *)
Definition stamp_of_text (ts : json) : result datetime :=
  match ts with
  | JStr s =>
      match py_strptime (take 19 s) fmt_T with
      | Some t => OK t
      | None => Raise ValueError
      end
  | _ => Raise TypeError
  end.

Definition text_of (v : json) : string :=
  match v with
  | JStr s => s
  | JNull => "None"
  | JBool true => "True"
  | JBool false => "False"
  | _ => json_dumps v
  end.

Definition audit_line : string :=
  q "{'timestamp':'2019-07-22T20:04:31.000Z','resource':{'type':'gce_instance'},'severity':'NOTICE','protoPayload':{'authenticationInfo':{'principalEmail':'a@b.c'}}}".

Definition empty_record_line : string := "{}".

(** ** Files of the merge examples, closing lines *)

Definition three_files (path : string) : option string :=
  if String.eqb path "a" then Some ("1" ++ nl ++ "2" ++ nl)%string
  else if String.eqb path "b" then Some EmptyString
  else if String.eqb path "c" then Some ("3" ++ nl)%string
  else None.

Definition closes_object (line : string) : bool := startswith line "  }".

Definition two_normalised (path : string) : option string :=
  if String.eqb path "n1" then Some (q "{'a': 1}")
  else if String.eqb path "n2" then Some (q "{'a': 2}")
  else None.

Definition two_logs (path : string) : option string :=
  if String.eqb path "day1" then Some (unlines [before_line; notice_line])
  else if String.eqb path "day2" then Some (unlines [at_end_line; after_line])
  else None.

(** ** The window rule and the include rule as the specification words them *)

(** The records of a window, bounds included, written in their order. *)
Definition selected (startDateTime endDateTime : datetime)
    (recs : list (json * datetime)) : sink :=
  map (fun r => Encoded (fst r))
      (filter (fun r => (startDateTime <=? snd r) && (snd r <=? endDateTime)) recs).

(** A condition matches a record when its path, followed one mapping key
    per segment, resolves to a text equal to the expected value without the
    whitespace around it. *)
Definition string_match (log : json) (item : list string) : bool :=
  match item with
  | path :: v :: _ =>
      match resolve_path log (split "." path) with
      | Some (JStr s) => String.eqb s (strip v)
      | _ => false
      end
  | _ => false
  end.

(** A condition with a value and a path of at most three segments. *)
Definition shallow (item : list string) : bool :=
  match item with
  | path :: _ :: _ => Nat.leb (List.length (split "." path)) 3
  | _ => false
  end.

Definition at_start_line : string := q "{'timestamp':'2019-07-22T20:04:01.000Z','n':0}".
Definition late_line : string := q "{'timestamp':'2019-07-22T20:05:01.000001Z','n':4}".

Definition instance_line : string :=
  q "{'insertId':'a1','resource':{'type':'gce_instance'},'severity':'NOTICE'}".
Definition bucket_line : string :=
  q "{'insertId':'b2','resource':{'type':'gcs_bucket'},'severity':'INFO'}".
Definition two_matches_line : string :=
  q "{'insertId':'c3','status':200,'a':{'b':{'c':{'d':{'e':'x'}}}}}".

(** ** Files

    The file system as the operations meet it: contents by path, [None] for
    a path that cannot be opened.  [writeOutput] opens the output for
    appending, which creates it when it is not there, writes and closes, so
    every chunk is in the file before the next line is read.  A loop over the
    lines of a file reads on from where it is in what the file holds at that
    moment: when the output is the file being read, it meets what it has
    appended. *)

Definition files : Type := string -> option string.

Definition existing (fs : files) (path : string) : string :=
  match fs path with
  | Some old => old
  | None => EmptyString
  end.

Definition fs_append (fs : files) (output text : string) : files :=
  fun path =>
    if String.eqb path output then Some (existing fs output ++ text)%string
    else fs path.

(** The calls of [writeOutput] for the chunks of a trace, in order. *)
Definition write_chunks (dumps : json -> string) (fs : files) (output : string)
    (added : sink) : files :=
  fold_left (fun fs c => fs_append fs output (chunk_text dumps c)) added fs.

(** [s[n:]] *)
Fixpoint skip (n : nat) (s : string) : string :=
  match n, s with
  | S n', String _ r => skip n' r
  | _, _ => s
  end.

Inductive file_run : Type :=
| Finished (fs : files) (r : result unit)
| FileNotFound
| Unfinished.

Section ForLine.

Variable dumps : json -> string.

(** What the loop carries from line to line. *)
Variable St : Type.

(** The body of [for line in f]: what it carries on, the chunks it writes,
    and how it ends. *)
Variable body : St -> string -> St * sink * result unit.

(** [with open(file) as f: for line in f: body], from the position [pos] in
    the file; [fuel] bounds the number of lines read. *)
Fixpoint for_line_in (fuel : nat) (fs : files) (file output : string)
    (pos : nat) (st : St) : option (files * St * result unit) :=
  match fuel with
  | O => None
  | S fuel =>
      match readlines (skip pos (existing fs file)) with
      | [] => Some (fs, st, OK tt)
      | line :: _ =>
          let '(st', added, r) := body st line in
          let fs' := write_chunks dumps fs output added in
          match r with
          | OK _ => for_line_in fuel fs' file output (pos + String.length line) st'
          | Raise e => Some (fs', st', Raise e)
          end
      end
  end.

(** The same loop over lines that are given: what it writes in all. *)
Fixpoint for_lines (lines : list string) (st : St) : sink * St * result unit :=
  match lines with
  | [] => ([], st, OK tt)
  | line :: rest =>
      let '(st', added, r) := body st line in
      match r with
      | OK _ =>
          let '(more, st'', r') := for_lines rest st' in
          (added ++ more, st'', r')
      | Raise e => (added, st', Raise e)
      end
  end.

Definition opened (fuel : nat) (fs : files) (file output : string) (st : St)
    : file_run :=
  match fs file with
  | None => FileNotFound
  | Some _ =>
      match for_line_in fuel fs file output 0 st with
      | Some (fs', _, r) => Finished fs' r
      | None => Unfinished
      end
  end.

End ForLine.

Section FileRuns.

Variable dumps : json -> string.
Variable loads : string -> option json.
Variable strptime : string -> string -> option datetime.

Definition filter_body (filterString : string) (filterList : list (list string))
    (st : unit) (line : string) : unit * sink * result unit :=
  let '(added, r) := filter_line loads filterString filterList line [] in
  (st, added, r).

(** [filterLog(file, cont, output, filterVal, filterString)] on the file
    system. *)
Definition filterLog_in (fuel : nat) (fs : files)
    (file output filterVal filterString : string) : file_run :=
  let filterList := parseFilters filterString filterVal in
  opened dumps unit (filter_body filterString filterList) fuel fs file output tt.

Definition window_body (startDateTime endDateTime : datetime)
    (st : unit) (line : string) : unit * sink * result unit :=
  match window_line loads strptime startDateTime endDateTime line with
  | OK (Some log) => (st, writeOutput (Encoded log) [], OK tt)
  | OK None => (st, [], OK tt)
  | Raise e => (st, [], Raise e)
  end.

Definition timeslice_in (fuel : nat) (fs : files) (file output : string)
    (size : Z) (dateTimeString : string) : file_run :=
  match timeslice_window strptime size dateTimeString with
  | OK (startDateTime, endDateTime) =>
      opened dumps unit (window_body startDateTime endDateTime)
             fuel fs file output tt
  | Raise e => Finished fs (Raise e)
  end.

Definition timeframe_in (fuel : nat) (fs : files) (file output : string)
    (timeframe : string) : file_run :=
  match timeframe_window strptime timeframe with
  | OK (startDateTime, endDateTime) =>
      opened dumps unit (window_body startDateTime endDateTime)
             fuel fs file output tt
  | Raise e => Finished fs (Raise e)
  end.





End FileRuns.

(** A file system of two logs and an output that already holds a line. *)
Definition sample_files (path : string) : option string :=
  if String.eqb path "day1" then Some (unlines [before_line; notice_line])
  else if String.eqb path "day2" then Some (unlines [at_end_line; after_line])
  else if String.eqb path "array" then Some (array_text [[q "    'a': 1"]; [q "    'a': 2"]])
  else if String.eqb path "out" then Some ("old" ++ nl)%string
  else None.

(** * Properties *)

(** Closed statements are settled by running the embedding. *)
Ltac by_evaluation := repeat split; vm_compute; reflexivity.

(** The list of a [Forall] or [Forall2] goal, evaluated. *)
Ltac list_evaluated :=
  match goal with
  | |- Forall2 _ ?l _ => let l' := eval vm_compute in l in change l with l'
  | |- Forall _ ?l => let l' := eval vm_compute in l in change l with l'
  end.

(** ** Strings *)

Lemma append_assoc (a b c : string) : ((a ++ b) ++ c = a ++ (b ++ c))%string.
Proof. induction a as [|x a IH]; simpl; [reflexivity | now rewrite IH]. Qed.

Lemma append_nil_r (a : string) : (a ++ EmptyString)%string = a.
Proof. induction a as [|x a IH]; simpl; [reflexivity | now rewrite IH]. Qed.

Lemma split_nonempty (sep : ascii) (s : string) : split sep s <> [].
Proof.
  destruct s as [|c s]; cbn [split]; [discriminate|].
  destruct (Ascii.eqb c sep); [discriminate|].
  destruct (split sep s); discriminate.
Qed.

Lemma rstrip_app_nl (s : string) : rstrip (s ++ nl) = rstrip s.
Proof.
  induction s as [|c s IH]; simpl.
  - reflexivity.
  - now rewrite IH.
Qed.

Lemma lstrip_app_nl (s : string) :
  lstrip (s ++ nl) = (lstrip s ++ nl)%string \/
  (lstrip (s ++ nl) = EmptyString /\ lstrip s = EmptyString).
Proof.
  induction s as [|c s IH]; simpl.
  - right. split; reflexivity.
  - destruct (is_space c); [exact IH | left; reflexivity].
Qed.

Lemma strip_app_nl (s : string) : strip (s ++ nl) = strip s.
Proof.
  unfold strip. destruct (lstrip_app_nl s) as [H | [H1 H2]].
  - rewrite H. apply rstrip_app_nl.
  - now rewrite H1, H2.
Qed.

Lemma no_newline_app (a b : string) :
  no_newline (a ++ b) = no_newline a && no_newline b.
Proof.
  induction a as [|c a IH]; simpl; [reflexivity|].
  rewrite IH. now rewrite andb_assoc.
Qed.

Lemma no_newline_lstrip (s : string) : no_newline s = true -> no_newline (lstrip s) = true.
Proof.
  induction s as [|c s IH]; simpl; intro H; [reflexivity|].
  apply andb_true_iff in H as [Hc Hs].
  destruct (is_space c); [auto | simpl; now rewrite Hc, Hs].
Qed.

Lemma no_newline_rstrip (s : string) : no_newline s = true -> no_newline (rstrip s) = true.
Proof.
  induction s as [|c s IH]; simpl; intro H; [reflexivity|].
  apply andb_true_iff in H as [Hc Hs]. specialize (IH Hs).
  destruct (rstrip s) eqn:E.
  - destruct (is_space c); simpl; [reflexivity | now rewrite Hc].
  - simpl. rewrite Hc. exact IH.
Qed.

Lemma no_newline_strip (s : string) : no_newline s = true -> no_newline (strip s) = true.
Proof. intro H. unfold strip. now apply no_newline_rstrip, no_newline_lstrip. Qed.

Lemma no_newline_concat (l : list string) :
  Forall (fun s => no_newline s = true) l ->
  no_newline (String.concat EmptyString l) = true.
Proof.
  induction 1 as [|x l Hx Hl IH]; [reflexivity|].
  destruct l as [|y l]; simpl in *; [exact Hx|].
  now rewrite !no_newline_app, Hx, IH.
Qed.

Lemma readlines_line (b rest : string) :
  no_newline b = true ->
  readlines (b ++ nl ++ rest) = (b ++ nl)%string :: readlines rest.
Proof.
  induction b as [|c b IH]; simpl; intro H.
  - reflexivity.
  - apply andb_true_iff in H as [Hc Hb].
    apply negb_true_iff in Hc. rewrite Hc.
    simpl in IH. now rewrite (IH Hb).
Qed.

Lemma unlines_cons (b : string) (l : list string) :
  unlines (b :: l) = (b ++ nl ++ unlines l)%string.
Proof.
  unfold unlines. destruct l as [|y l].
  - reflexivity.
  - change (String.concat EmptyString (map (fun x => (x ++ nl)%string) (b :: y :: l)))
      with ((b ++ nl) ++ String.concat EmptyString
                           (map (fun x => (x ++ nl)%string) (y :: l)))%string.
    apply append_assoc.
Qed.

Lemma readlines_unlines (l : list string) :
  Forall (fun b => no_newline b = true) l ->
  readlines (unlines l) = map (fun b => (b ++ nl)%string) l.
Proof.
  induction 1 as [|b l Hb Hl IH]; [reflexivity|].
  rewrite unlines_cons, readlines_line by exact Hb.
  simpl. now rewrite IH.
Qed.

Lemma readlines_no_newline (s : string) :
  no_newline s = true -> s <> EmptyString -> readlines s = [s].
Proof.
  induction s as [|c s IH]; simpl; intros H Hne; [congruence|].
  apply andb_true_iff in H as [Hc Hs]. apply negb_true_iff in Hc. rewrite Hc.
  destruct s as [|d s]; [reflexivity|].
  rewrite IH; [reflexivity | exact Hs | discriminate].
Qed.

Lemma readlines_separated (l : list string) :
  Forall (fun b => no_newline b = true /\ b <> EmptyString) l ->
  readlines (String.concat nl l) = separated l.
Proof.
  induction 1 as [|b l [Hb Hne] Hl IH]; [reflexivity|].
  destruct l as [|y l].
  - simpl. now apply readlines_no_newline.
  - change (String.concat nl (b :: y :: l))
      with (b ++ nl ++ String.concat nl (y :: l))%string.
    rewrite readlines_line by exact Hb. now rewrite IH.
Qed.

(** ** The normalizer, line by line *)

Lemma gcloud_line_io (st : formatter) (line : string) :
  (log (gcloud_line st line), output (gcloud_line st line))
  = gcloud_io (log st, output st) line.
Proof.
  unfold gcloud_line, gcloud_io.
  destruct (Nat.eqb (count st) (notify st)); simpl;
    repeat match goal with
           | |- context [if ?b then _ else _] => destruct b; simpl
           end; reflexivity.
Qed.

Lemma gcloud_fold_io (lines : list string) (st : formatter) :
  let st' := fold_left gcloud_line lines st in
  (log st', output st') = fold_left gcloud_io lines (log st, output st).
Proof.
  revert st. induction lines as [|line lines IH]; intro st; cbn [fold_left].
  - reflexivity.
  - rewrite <- gcloud_line_io. apply IH.
Qed.

Lemma gcloud_io_interior (l : string) (o : sink) (b : string) :
  interior_line b = true ->
  gcloud_io (l, o) (b ++ nl) = ((l ++ strip b)%string, o).
Proof.
  unfold interior_line. intro H.
  repeat (apply andb_true_iff in H as [H ?]).
  repeat match goal with
         | H : negb _ = true |- _ => apply negb_true_iff in H
         end.
  unfold gcloud_io.
  repeat match goal with
         | H : _ = _ |- _ => rewrite H
         end.
  simpl. now rewrite strip_app_nl.
Qed.

Lemma gcloud_io_interiors (bs : list string) (l : string) (o : sink) :
  Forall (fun b => interior_line b = true) bs ->
  fold_left gcloud_io (map (fun b => (b ++ nl)%string) bs) (l, o)
  = ((l ++ String.concat EmptyString (map strip bs))%string, o).
Proof.
  intro H. revert l. induction H as [|b bs Hb Hbs IH]; intro l;
    cbn [map fold_left].
  - now rewrite append_nil_r.
  - rewrite gcloud_io_interior by exact Hb. rewrite IH.
    destruct bs as [|b' bs]; cbn [map String.concat].
    + now rewrite append_nil_r.
    + now rewrite append_assoc.
Qed.

Lemma gcloud_io_object (last : bool) (bs : list string) (l : string) (o : sink) :
  Forall (fun b => interior_line b = true) bs ->
  fold_left gcloud_io (map (fun b => (b ++ nl)%string) (object_lines last bs)) (l, o)
  = (nl, o ++ [Verbatim (l ++ one_line bs)]).
Proof.
  intro H. unfold object_lines.
  rewrite map_cons, map_app. cbn [fold_left].
  rewrite fold_left_app.
  change (gcloud_io (l, o) ("  {" ++ nl)) with ((l ++ "{")%string, o).
  rewrite gcloud_io_interiors by exact H.
  unfold one_line, writeOutput.
  destruct last; simpl; unfold writeOutput;
    now rewrite !append_assoc.
Qed.

Lemma gcloud_io_array (objs : list (list string)) (l : string) (o : sink) :
  Forall (Forall (fun b => interior_line b = true)) objs ->
  objs <> [] ->
  fold_left gcloud_io (map (fun b => (b ++ nl)%string) (array_lines objs)) (l, o)
  = (nl, o ++ object_chunks l objs).
Proof.
  intros H. revert l o.
  induction H as [|x objs Hx Hobjs IH]; intros l o Hne; [congruence|].
  destruct objs as [|y objs].
  - cbn [array_lines]. now rewrite gcloud_io_object.
  - change (array_lines (x :: y :: objs))
      with (object_lines false x ++ array_lines (y :: objs)).
    rewrite map_app, fold_left_app, gcloud_io_object by exact Hx.
    rewrite IH by discriminate.
    cbn [object_chunks map]. now rewrite <- app_assoc.
Qed.

Lemma file_text_object_chunks (dumps : json -> string) (objs : list (list string)) :
  file_text dumps (object_chunks EmptyString objs)
  = String.concat nl (map one_line objs).
Proof.
  destruct objs as [|x objs]; [reflexivity|].
  unfold file_text. cbn [object_chunks map chunk_text].
  revert x. induction objs as [|y objs IH]; intro x; [reflexivity|].
  cbn [map chunk_text]. specialize (IH y).
  cbn [map String.concat] in *.
  change (EmptyString ++ one_line x)%string with (one_line x).
  change (EmptyString ++ one_line y)%string with (one_line y) in IH.
  rewrite <- IH. cbn [chunk_text].
  destruct objs; cbn [map String.concat]; reflexivity.
Qed.

Lemma interior_no_newline (b : string) : interior_line b = true -> no_newline b = true.
Proof.
  unfold interior_line. intro H.
  repeat (apply andb_true_iff in H as [H ?]). exact H.
Qed.

Lemma array_lines_no_newline (objs : list (list string)) :
  Forall (Forall (fun b => interior_line b = true)) objs ->
  Forall (fun b => no_newline b = true) (array_lines objs).
Proof.
  assert (Hobj : forall last bs,
             Forall (fun b => interior_line b = true) bs ->
             Forall (fun b => no_newline b = true) (object_lines last bs)).
  { intros last bs Hbs. unfold object_lines. constructor; [reflexivity|].
    apply Forall_app. split.
    - eapply Forall_impl; [|exact Hbs]. exact interior_no_newline.
    - constructor; [now destruct last | constructor]. }
  induction 1 as [|x objs Hx Hobjs IH]; [constructor|].
  destruct objs as [|y objs].
  - now apply Hobj.
  - change (array_lines (x :: y :: objs))
      with (object_lines false x ++ array_lines (y :: objs)).
    apply Forall_app. split; [now apply Hobj | exact IH].
Qed.

Lemma gcloudFormatter_array (objs : list (list string)) :
  Forall (Forall (fun b => interior_line b = true)) objs ->
  gcloudFormatter (array_text objs) = object_chunks EmptyString objs.
Proof.
  intro H. unfold gcloudFormatter, array_text.
  rewrite readlines_unlines.
  2:{ constructor; [reflexivity|]. apply Forall_app. split.
      - now apply array_lines_no_newline.
      - constructor; [reflexivity | constructor]. }
  pose proof (gcloud_fold_io
                (map (fun b => (b ++ nl)%string) ("[" :: array_lines objs ++ ["]"]))
                (mkFormatter EmptyString 0%nat 10000%nat [])) as E.
  cbv zeta in E. apply (f_equal snd) in E. cbn [snd log output] in E.
  rewrite E. clear E.
  rewrite map_cons, map_app. cbn [fold_left].
  change (gcloud_io (EmptyString, []) ("[" ++ nl)) with (EmptyString, @nil chunk).
  rewrite fold_left_app.
  destruct objs as [|x objs]; [reflexivity|].
  rewrite gcloud_io_array by (exact H || discriminate).
  reflexivity.
Qed.

Lemma rstrip_head (c : ascii) (r : string) :
  is_space c = false -> exists t, rstrip (String c r) = String c t.
Proof.
  intro Hc. cbn [rstrip]. destruct (rstrip r) as [|d t].
  - rewrite Hc. now exists EmptyString.
  - now exists (String d t).
Qed.

Lemma length_app_nl (s : string) : String.length (s ++ nl) = S (String.length s).
Proof. induction s as [|c s IH]; cbn; [reflexivity | now rewrite IH]. Qed.

(** The usual shape of an interior line: an indentation of four spaces or
    more, then content that does not open with a bracket. *)
Lemma indented_line_is_interior (c : ascii) (rest : string) :
  no_newline (String c rest) = true ->
  is_space c = false ->
  c <> "["%char ->
  interior_line ("    " ++ String c rest) = true.
Proof.
  intros Hnl Hc Hb. unfold interior_line.
  assert (H1 : no_newline ("    " ++ String c rest) = true) by exact Hnl.
  assert (H2 : startswith (strip (("    " ++ String c rest) ++ nl)) "[" = false).
  { unfold strip. cbn [append lstrip]. change (is_space " ") with true. cbv iota.
    rewrite Hc. destruct (rstrip_head c (rest ++ nl) Hc) as [t Ht].
    rewrite Ht. unfold startswith. cbn [prefix].
    destruct (ascii_dec "[" c) as [E|E]; [congruence | reflexivity]. }
  assert (H3 : Nat.ltb 5 (String.length (("    " ++ String c rest) ++ nl)) = true).
  { cbn [append String.length]. now rewrite length_app_nl. }
  rewrite H1, H2, H3. reflexivity.
Qed.

Lemma one_line_no_newline (bs : list string) :
  Forall (fun b => interior_line b = true) bs -> no_newline (one_line bs) = true.
Proof.
  intro H. unfold one_line.
  rewrite !no_newline_app, no_newline_concat; [reflexivity|].
  apply Forall_map. eapply Forall_impl; [|exact H].
  intros b Hb. now apply no_newline_strip, interior_no_newline.
Qed.

(** ** The normalizer on an array *)

(** C1 (defect). The input is an array of one object, printed with
    two-space indentation; the normalizer drops the line of the inner opening
    bracket, because its trimmed form starts with a bracket as the line of the
    array start does, and the one line it writes is not a JSON text. *)
Theorem normalizer_drops_inner_array_open :
  json_loads nested_array_file
  = Some (JArr [JObj [("a", JArr [JArr [JNum "1"]])]]) /\
  gcloudFormatter nested_array_file = [Verbatim (q "{'a': [1]]}")] /\
  json_loads (q "{'a': [1]]}") = None.
Proof. by_evaluation. Qed.

(** C9 (counterexample). For an array of one object the output file holds
    the object and no newline at all: its last line is not terminated. *)
Lemma normalizer_last_line_unterminated :
  gcloudFormatter (array_text [[q "    'a': 1"]]) = [Verbatim (q "{'a': 1}")] /\
  (forall dumps,
      file_text dumps (gcloudFormatter (array_text [[q "    'a': 1"]]))
      = q "{'a': 1}") /\
  endswith (q "{'a': 1}") nl = false.
Proof.
  split; [by_evaluation|]. split; [intro dumps|]; by_evaluation.
Qed.

(** C9 (amended). For an input in the format of the normalizer, the output
    file holds the objects in input order, each on one line that opens with a
    brace and closes with a brace (no enclosing array, no comma after an
    object), and the newline is a separator: every line but the last ends in
    a newline, the last line does not. *)
Theorem normalizer_lines_newline_separated :
  forall (dumps : json -> string) (objs : list (list string)),
    Forall (Forall (fun b => interior_line b = true)) objs ->
    let text := file_text dumps (gcloudFormatter (array_text objs)) in
    text = String.concat nl (map one_line objs) /\
    readlines text = separated (map one_line objs) /\
    Forall (fun l => no_newline l = true /\
                     exists body, l = ("{" ++ body ++ "}")%string)
           (map one_line objs).
Proof.
  intros dumps objs H text.
  assert (Hlines : Forall (fun l => no_newline l = true /\
                                    exists body, l = ("{" ++ body ++ "}")%string)
                          (map one_line objs)).
  { apply Forall_map. eapply Forall_impl; [|exact H].
    intros bs Hbs. split; [now apply one_line_no_newline|].
    now exists (String.concat EmptyString (map strip bs)). }
  assert (Htext : text = String.concat nl (map one_line objs)).
  { unfold text. rewrite gcloudFormatter_array by exact H.
    apply file_text_object_chunks. }
  split; [exact Htext|]. split; [|exact Hlines].
  rewrite Htext. apply readlines_separated.
  eapply Forall_impl; [|exact Hlines].
  intros l [Hl [body ->]]. split; [exact Hl | discriminate].
Qed.

Lemma normalizer_lines_newline_separated_witness :
  Forall (Forall (fun b => interior_line b = true))
         [[q "    'a': 1,"; q "    'b': 'x'"]; [q "    'a': 2"]] /\
  readlines (file_text (fun _ => EmptyString)
               (gcloudFormatter
                  (array_text [[q "    'a': 1,"; q "    'b': 'x'"]; [q "    'a': 2"]])))
  = [(q "{'a': 1,'b': 'x'}" ++ nl)%string; q "{'a': 2}"].
Proof.
  assert (H : Forall (Forall (fun b => interior_line b = true))
                     [[q "    'a': 1,"; q "    'b': 'x'"]; [q "    'a': 2"]]).
  { repeat constructor. }
  split; [exact H|].
  exact (proj1 (proj2 (normalizer_lines_newline_separated (fun _ => EmptyString) _ H))).
Defined.

(** ** The filter, condition by condition *)

Lemma filter_item_include (log : json) (item : list string) (out : sink) (n : nat) :
  filter_item "include" log item out n
  = (b <- include_outcome log item ;;
     OK (if b then writeOutput (Encoded log) out else out, n)).
Proof.
  unfold filter_item, include_outcome.
  destruct (list_index item 0) as [path|e]; [|reflexivity].
  destruct (list_index item 1) as [v|e]; [|reflexivity].
  cbn [bind]. change (is_include "include") with true.
  change (is_exclude "include") with false. cbv iota.
  destruct (field_value log (split "." path)) as [[x|]|[]]; cbn [bind]; try reflexivity.
  now destruct (subscript log "insertId").
Qed.

Lemma filter_item_exclude (log : json) (item : list string) (out : sink) (n : nat) :
  filter_item "exclude" log item out n
  = (b <- exclude_outcome log item ;; OK (out, if b then S n else n)).
Proof.
  unfold filter_item, exclude_outcome.
  destruct (list_index item 0) as [path|e]; [|reflexivity].
  destruct (list_index item 1) as [v|e]; [|reflexivity].
  cbn [bind]. change (is_include "exclude") with false.
  change (is_exclude "exclude") with true. cbv iota. cbn [bind].
  destruct (field_value log (split "." path)) as [[x|]|[]]; try reflexivity.
Qed.

Lemma filter_items_app (mode : string) (log : json) (a b : list (list string))
    (out : sink) (n : nat) :
  filter_items mode log (a ++ b) out n
  = match filter_items mode log a out n with
    | (out', OK n') => filter_items mode log b out' n'
    | (out', Raise e) => (out', Raise e)
    end.
Proof.
  revert out n. induction a as [|item a IH]; intros out n; cbn [app filter_items].
  - reflexivity.
  - destruct (filter_item mode log item out n) as [[out' n']|e]; [apply IH | reflexivity].
Qed.

Lemma field_value_four (log : json) (f0 f1 f2 f3 : string) (x : json) :
  subscript log f0 = OK x ->
  field_value log [f0; f1; f2; f3] = Raise TypeError.
Proof. intro H. unfold field_value. now rewrite H. Qed.

Lemma field_value_descend (log : json) (fields : list string) :
  (1 <= List.length fields <= 3)%nat ->
  field_value log fields = (x <- descend log fields ;; OK (Some x)).
Proof.
  intro Hlen.
  destruct fields as [|f0 [|f1 [|f2 [|f3 rest]]]]; cbn [List.length] in Hlen; try lia;
    cbn [field_value descend].
  - now destruct (subscript log f0).
  - destruct (subscript log f0) as [a|]; [|reflexivity]. cbn [bind].
    now destruct (subscript a f1).
  - destruct (subscript log f0) as [a|]; [|reflexivity]. cbn [bind].
    destruct (subscript a f1) as [b|]; [|reflexivity]. cbn [bind].
    now destruct (subscript b f2).
Qed.

Lemma descend_resolve (v : json) (fields : list string) (x : json) :
  descend v fields = OK x <-> resolve_path v fields = Some x.
Proof.
  revert v. induction fields as [|f rest IH]; intro v; cbn [descend resolve_path].
  - split; inversion 1; reflexivity.
  - destruct v; cbn [subscript bind]; try (split; discriminate).
    destruct (dict_get f members) as [y|]; cbn [bind]; [apply IH | split; discriminate].
Qed.

Lemma resolve_field_value (log : json) (fields : list string) (x : json) :
  (1 <= List.length fields <= 3)%nat ->
  resolve_path log fields = Some x ->
  field_value log fields = OK (Some x).
Proof.
  intros Hlen H. apply descend_resolve in H.
  rewrite field_value_descend by exact Hlen. now rewrite H.
Qed.

Lemma py_eq_true (x : json) (s : string) : py_eq x s = true <-> x = JStr s.
Proof.
  destruct x; cbn [py_eq]; try (split; [discriminate | intro H; discriminate H]).
  rewrite String.eqb_eq. split; [now intros -> | now inversion 1].
Qed.

Lemma py_eq_false (x : json) (s : string) : py_eq x s = false <-> x <> JStr s.
Proof.
  rewrite <- py_eq_true. destruct (py_eq x s); split; congruence.
Qed.

Lemma include_items_writes (log : json) (filterList : list (list string))
    (out : sink) (n : nat) :
  fst (filter_items "include" log filterList out n)
  = out ++ repeat (Encoded log) (matches_count log (evaluated log filterList)).
Proof.
  revert out. induction filterList as [|item rest IH]; intro out;
    cbn [filter_items evaluated].
  - cbn. now rewrite app_nil_r.
  - rewrite filter_item_include. unfold matches_count in *.
    destruct (include_outcome log item) as [b|e] eqn:E; cbn [bind].
    + rewrite IH. cbn [filter]. unfold condition_matches at 2. rewrite E.
      destruct b; [|reflexivity].
      unfold writeOutput. cbn [List.length repeat]. now rewrite <- app_assoc.
    + cbn. now rewrite app_nil_r.
Qed.

Lemma include_items_complete (log : json) (filterList : list (list string))
    (out : sink) (n : nat) :
  evaluated log filterList = filterList ->
  filter_items "include" log filterList out n
  = (out ++ repeat (Encoded log) (matches_count log filterList), OK n).
Proof.
  revert out. induction filterList as [|item rest IH]; intros out H;
    cbn [filter_items evaluated] in *.
  - cbn. now rewrite app_nil_r.
  - rewrite filter_item_include. unfold matches_count in *.
    destruct (include_outcome log item) as [b|e] eqn:E; [|discriminate].
    cbn [bind]. rewrite IH by congruence.
    cbn [filter]. unfold condition_matches at 2. rewrite E.
    destruct b; [|reflexivity].
    unfold writeOutput. cbn [List.length repeat]. now rewrite <- app_assoc.
Qed.

Section Runs.

Variable loads : string -> option json.
Variable strptime : string -> string -> option datetime.

Lemma filter_lines_app (mode : string) (filterList : list (list string))
    (pre post : list string) (out : sink) :
  filter_lines loads mode filterList (pre ++ post) out
  = match filter_lines loads mode filterList pre out with
    | (out', OK _) => filter_lines loads mode filterList post out'
    | (out', Raise e) => (out', Raise e)
    end.
Proof.
  revert out. induction pre as [|line pre IH]; intro out; cbn [app filter_lines].
  - reflexivity.
  - destruct (filter_line loads mode filterList line out) as [out' [u|e]];
      [apply IH | reflexivity].
Qed.

Lemma include_lines_complete (filterList : list (list string))
    (lines : list string) (out : sink) :
  Forall (fun line => exists log,
              loads line = Some log /\ evaluated log filterList = filterList) lines ->
  filter_lines loads "include" filterList lines out
  = (out ++ flat_map (include_writes loads filterList) lines, OK tt).
Proof.
  intro H. revert out.
  induction H as [|line lines [log [Hl He]] Hlines IH]; intro out;
    cbn [filter_lines flat_map].
  - now rewrite app_nil_r.
  - unfold filter_line, include_writes at 1. rewrite Hl.
    rewrite include_items_complete by exact He.
    change (is_exclude "include") with false. cbn [andb].
    rewrite IH. now rewrite <- app_assoc.
Qed.

End Runs.

(** For a path of one to three segments a condition matches exactly when
    the path resolves to a string equal to the trimmed expected text. *)
Lemma condition_matches_shallow (log : json) (path v : string) (more : list string) :
  (1 <= List.length (split "." path) <= 3)%nat ->
  condition_matches log (path :: v :: more) = true
  <-> resolve_path log (split "." path) = Some (JStr (strip v)).
Proof.
  intro Hlen. unfold condition_matches, include_outcome.
  cbn [list_index nth_error bind].
  rewrite field_value_descend by exact Hlen.
  rewrite <- descend_resolve.
  destruct (descend log (split "." path)) as [x|e]; cbn [bind].
  - destruct (py_eq x (strip v)) eqn:E.
    + apply py_eq_true in E. subst x. tauto.
    + apply py_eq_false in E. split; [discriminate | congruence].
  - split; [|discriminate].
    destruct e; cbn [bind]; try discriminate.
    destruct (subscript log "insertId"); cbn [bind]; discriminate.
Qed.

(** ** The exclude rule on the branches that work *)

Lemma filter_length_all {A : Type} (f : A -> bool) (l : list A) :
  (List.length (filter f l) <= List.length l)%nat /\
  (List.length (filter f l) = List.length l <-> forallb f l = true).
Proof.
  induction l as [|a l [IH1 IH2]]; cbn [filter forallb List.length].
  - split; [lia | tauto].
  - destruct (f a); cbn [List.length andb].
    + split; [lia|]. rewrite <- IH2. split; lia.
    + split; [lia|]. split; [lia | discriminate].
Qed.

Lemma exclude_items_count (log : json) (filterList : list (list string))
    (out : sink) (n : nat) :
  Forall (fun item => exists b, exclude_outcome log item = OK b) filterList ->
  filter_items "exclude" log filterList out n
  = (out, OK (n + mismatch_count log filterList)%nat).
Proof.
  intro H. revert n. unfold mismatch_count.
  induction H as [|item rest [b Hb] Hrest IH]; intro n; cbn [filter_items filter].
  - cbn. now rewrite Nat.add_0_r.
  - rewrite filter_item_exclude, Hb. cbn [bind]. rewrite IH.
    unfold condition_mismatches at 2. rewrite Hb.
    destruct b; cbn [List.length]; do 2 f_equal; lia.
Qed.

(** In [exclude] mode, when no condition raises, the record is written
    exactly when every condition counts against it. *)
Lemma exclude_is_unanimous (loads : string -> option json)
    (filterList : list (list string)) (line : string) (log : json) (out : sink) :
  loads line = Some log ->
  Forall (fun item => exists b, exclude_outcome log item = OK b) filterList ->
  filter_line loads "exclude" filterList line out
  = (if forallb (condition_mismatches log) filterList
     then writeOutput (Encoded log) out else out, OK tt).
Proof.
  intros Hl H. unfold filter_line. rewrite Hl, exclude_items_count by exact H.
  change (is_exclude "exclude") with true. cbn [andb Nat.add].
  destruct (filter_length_all (condition_mismatches log) filterList) as [_ Hall].
  fold (mismatch_count log filterList) in Hall.
  destruct (forallb (condition_mismatches log) filterList).
  - now rewrite (proj2 (Nat.eqb_eq _ _) (proj2 Hall eq_refl)).
  - destruct (Nat.eqb_spec (mismatch_count log filterList) (List.length filterList))
      as [E|E]; [|reflexivity].
    apply Hall in E. discriminate.
Qed.

(** For a path of one to three segments a condition counts against the
    record when a key is absent or the value differs from the expected text;
    a value on the way that is not a mapping raises [TypeError]. *)
Lemma exclude_outcome_shallow (log : json) (path v : string) (more : list string) :
  (1 <= List.length (split "." path) <= 3)%nat ->
  exclude_outcome log (path :: v :: more)
  = match descend log (split "." path) with
    | OK x => OK (negb (py_eq x (strip v)))
    | Raise KeyError => OK true
    | Raise e => Raise e
    end.
Proof.
  intro Hlen. unfold exclude_outcome. cbn [list_index nth_error bind].
  rewrite field_value_descend by exact Hlen.
  now destruct (descend log (split "." path)) as [x|[]].
Qed.

(** For one condition of at most four segments the two modes are
    complementary on every record that [include] gets through. *)
Lemma include_exclude_complement (loads : string -> option json)
    (line : string) (log : json) (path v : string) (more : list string)
    (out : sink) (b : bool) :
  (List.length (split "." path) <= 4)%nat ->
  loads line = Some log ->
  include_outcome log (path :: v :: more) = OK b ->
  filter_line loads "include" [path :: v :: more] line out
  = (if b then writeOutput (Encoded log) out else out, OK tt) /\
  filter_line loads "exclude" [path :: v :: more] line out
  = (if b then out else writeOutput (Encoded log) out, OK tt).
Proof.
  intros Hlen Hl Hin.
  assert (Hex : exclude_outcome log (path :: v :: more) = OK (negb b)).
  { unfold include_outcome, exclude_outcome in *.
    cbn [list_index nth_error bind] in *.
    pose proof (split_nonempty "." path) as Hne.
    destruct (split "." path) as [|f0 [|f1 [|f2 [|f3 [|f4 rest]]]]];
      cbn [List.length] in Hlen; try lia; cbn [field_value] in *.
    - congruence.
    - destruct (subscript log f0) as [x|[]]; cbn [bind] in *;
        try discriminate; try (inversion Hin; reflexivity).
      destruct (subscript log "insertId"); cbn [bind] in Hin;
        inversion Hin; reflexivity.
    - destruct (subscript log f0) as [a|[]]; cbn [bind] in *;
        try discriminate;
        try (destruct (subscript log "insertId"); cbn [bind] in Hin;
             inversion Hin; reflexivity).
      destruct (subscript a f1) as [x|[]]; cbn [bind] in *;
        try discriminate; try (inversion Hin; reflexivity).
      destruct (subscript log "insertId"); cbn [bind] in Hin;
        inversion Hin; reflexivity.
    - destruct (subscript log f0) as [a|[]]; cbn [bind] in *;
        try discriminate;
        try (destruct (subscript log "insertId"); cbn [bind] in Hin;
             inversion Hin; reflexivity).
      destruct (subscript a f1) as [c|[]]; cbn [bind] in *;
        try discriminate;
        try (destruct (subscript log "insertId"); cbn [bind] in Hin;
             inversion Hin; reflexivity).
      destruct (subscript c f2) as [x|[]]; cbn [bind] in *;
        try discriminate; try (inversion Hin; reflexivity).
      destruct (subscript log "insertId"); cbn [bind] in Hin;
        inversion Hin; reflexivity.
    - destruct (subscript log f0) as [a|[]]; cbn [bind str_subscript] in *;
        try discriminate.
      destruct (subscript log "insertId"); cbn [bind] in Hin;
        inversion Hin; reflexivity. }
  split.
  - unfold filter_line. rewrite Hl. cbn [filter_items].
    rewrite filter_item_include, Hin. cbn [bind].
    change (is_exclude "include") with false. now destruct b.
  - rewrite (exclude_is_unanimous loads _ line log out Hl).
    + cbn [forallb]. unfold condition_mismatches. rewrite Hex.
      now destruct b.
    + constructor; [now exists (negb b) | constructor].
Qed.

(** ** The filter on records and runs *)

(** C10. For a record that is a mapping with the first segment's key, a
    condition with a path of four segments raises [TypeError] in either mode:
    the branch subscripts the text [fields[1]] with a text.  Nothing handles
    it, so the run ends there, with the output as it was and without reading
    the lines that follow. *)
Theorem four_segment_condition_raises_TypeError :
  forall (loads : string -> option json) (mode file filterVal : string)
         (pre post : list string) (line : string) (log : json)
         (before after : list (list string)) (path value : string)
         (more : list string) (f0 f1 f2 f3 : string) (x : json)
         (out out1 : sink) (n : nat),
    is_include mode || is_exclude mode = true ->
    readlines file = pre ++ line :: post ->
    parseFilters mode filterVal = before ++ (path :: value :: more) :: after ->
    split "." path = [f0; f1; f2; f3] ->
    filter_lines loads mode (parseFilters mode filterVal) pre [] = (out, OK tt) ->
    loads line = Some log ->
    filter_items mode log before out 0 = (out1, OK n) ->
    subscript log f0 = OK x ->
    filter_item mode log (path :: value :: more) out1 n = Raise TypeError /\
    filterLog loads file filterVal mode = (out1, Raise TypeError).
Proof.
  intros loads mode file filterVal pre post line log before after path value
         more f0 f1 f2 f3 x out out1 n Hmode Hread Hparse Hsplit Hpre Hload
         Hbefore Hsub.
  assert (Hitem : filter_item mode log (path :: value :: more) out1 n
                  = Raise TypeError).
  { unfold filter_item. cbn [list_index nth_error bind].
    rewrite Hsplit, (field_value_four log f0 f1 f2 f3 x Hsub).
    destruct (is_include mode); cbn [bind]; [reflexivity|].
    cbn [orb] in Hmode. now rewrite Hmode. }
  split; [exact Hitem|].
  unfold filterLog. rewrite Hread, filter_lines_app, Hpre.
  cbn [filter_lines]. unfold filter_line. rewrite Hload, Hparse.
  rewrite filter_items_app, Hbefore. cbn [filter_items].
  now rewrite Hitem.
Qed.

Lemma four_segment_condition_raises_TypeError_witness :
  filterLog json_loads
    (unlines [q "{'severity':'NOTICE','a':{}}"; q "{'severity':'NOTICE'}"])
    "severity=NOTICE,a.b.c.d=x" "include"
  = ([Encoded (JObj [("severity", JStr "NOTICE"); ("a", JObj [])])],
     Raise TypeError).
Proof.
  refine (proj2 (four_segment_condition_raises_TypeError
                   json_loads "include" _ _
                   [] [(q "{'severity':'NOTICE'}" ++ nl)%string]
                   (q "{'severity':'NOTICE','a':{}}" ++ nl)%string
                   (JObj [("severity", JStr "NOTICE"); ("a", JObj [])])
                   [["severity"; "NOTICE"]] [] "a.b.c.d" "x" []
                   "a" "b" "c" "d" (JObj [])
                   [] [Encoded (JObj [("severity", JStr "NOTICE"); ("a", JObj [])])]
                   0%nat _ _ _ _ _ _ _ _));
    vm_compute; reflexivity.
Defined.

(** C3 (defect). Paths of one to three segments are resolved; at five and
    at six segments every key exists and the value at the path equals the
    expected one, yet [include] writes nothing, because the branches for these
    lengths test for length two; at four segments the branch raises
    [TypeError]. *)
Theorem deep_paths_are_not_resolved :
  (resolve_path (decoded depth3_line) (split "." "a.b.c") = Some (JStr "x") /\
   filterLog json_loads (unlines [depth3_line]) "a.b.c=x" "include"
   = ([Encoded (decoded depth3_line)], OK tt)) /\
  (resolve_path (decoded depth4_line) (split "." "a.b.c.d") = Some (JStr "x") /\
   filterLog json_loads (unlines [depth4_line]) "a.b.c.d=x" "include"
   = ([], Raise TypeError)) /\
  (resolve_path (decoded depth5_line) (split "." "a.b.c.d.e") = Some (JStr "x") /\
   filterLog json_loads (unlines [depth5_line]) "a.b.c.d.e=x" "include"
   = ([], OK tt)) /\
  (resolve_path (decoded depth6_line) (split "." "a.b.c.d.e.f") = Some (JStr "x") /\
   filterLog json_loads (unlines [depth6_line]) "a.b.c.d.e.f=x" "include"
   = ([], OK tt)).
Proof. by_evaluation. Qed.

(** C2 (defect). In [exclude] mode with one condition of five segments the
    record is never written: not when the value at the path differs from the
    expected one, and not when the last key is absent, although in both cases
    every condition fails to match.  With three segments the same records
    are written.  With one condition of one segment the two modes do not
    partition a file whose first record lacks both the field and [insertId]:
    [include] ends at it with [KeyError], raised by the handler of the first,
    and never reaches the matching record, which [exclude] leaves out. *)
Theorem exclude_ignores_deep_conditions :
  (resolve_path (decoded depth5_line) (split "." "a.b.c.d.e") = Some (JStr "x") /\
   filterLog json_loads (unlines [depth5_line]) "a.b.c.d.e=other" "exclude"
   = ([], OK tt)) /\
  (resolve_path (decoded depth5_line) (split "." "a.b.c.d.z") = None /\
   filterLog json_loads (unlines [depth5_line]) "a.b.c.d.z=x" "exclude"
   = ([], OK tt)) /\
  (resolve_path (decoded depth3_line) (split "." "a.b.c") = Some (JStr "x") /\
   filterLog json_loads (unlines [depth3_line]) "a.b.c=other" "exclude"
   = ([Encoded (decoded depth3_line)], OK tt)) /\
  (resolve_path (decoded depth3_line) (split "." "a.b.z") = None /\
   filterLog json_loads (unlines [depth3_line]) "a.b.z=x" "exclude"
   = ([Encoded (decoded depth3_line)], OK tt)) /\
  (filterLog json_loads (unlines [q "{'a':'1'}"; q "{'k':'v'}"]) "k=v" "include"
   = ([], Raise KeyError) /\
   filterLog json_loads (unlines [q "{'a':'1'}"; q "{'k':'v'}"]) "k=v" "exclude"
   = ([Encoded (JObj [("a", JStr "1")])], OK tt)).
Proof. by_evaluation. Qed.

(** C7 (counterexample). A numeric field whose text is the expected value,
    and a boolean field whose text is the expected value, do not match: in
    [include] mode the record is not written, in [exclude] mode it is. *)
Lemma number_and_boolean_do_not_match :
  decoded status_line = JObj [("status", JNum "200"); ("ok", JBool true)] /\
  filterLog json_loads (unlines [status_line]) "status=200" "include" = ([], OK tt) /\
  filterLog json_loads (unlines [status_line]) "ok=True" "include" = ([], OK tt) /\
  filterLog json_loads (unlines [status_line]) "ok=true" "include" = ([], OK tt) /\
  filterLog json_loads (unlines [status_line]) "status=200" "exclude"
  = ([Encoded (decoded status_line)], OK tt).
Proof. by_evaluation. Qed.

(** C7 (amended). For a condition of one to three segments whose path
    resolves in the record, the resolved value is compared with the trimmed
    expected text by equality of values, with no conversion to text: the
    condition matches exactly when the value is a string equal to that text,
    and a number or a boolean never matches. *)
Theorem comparison_is_equality_with_a_string :
  forall (log : json) (path v : string) (more : list string)
         (out : sink) (n : nat) (x : json),
    (1 <= List.length (split "." path) <= 3)%nat ->
    resolve_path log (split "." path) = Some x ->
    (x = JStr (strip v) ->
     filter_item "include" log (path :: v :: more) out n
     = OK (writeOutput (Encoded log) out, n) /\
     filter_item "exclude" log (path :: v :: more) out n = OK (out, n)) /\
    (x <> JStr (strip v) ->
     filter_item "include" log (path :: v :: more) out n = OK (out, n) /\
     filter_item "exclude" log (path :: v :: more) out n = OK (out, S n)) /\
    ((exists lexeme, x = JNum lexeme) \/ (exists b, x = JBool b) ->
     x <> JStr (strip v)).
Proof.
  intros log path v more out n x Hlen Hres.
  pose proof (resolve_field_value log _ x Hlen Hres) as Hfv.
  rewrite filter_item_include, filter_item_exclude.
  unfold include_outcome, exclude_outcome.
  cbn [list_index nth_error bind]. rewrite Hfv. cbn [bind].
  repeat split.
  - apply py_eq_true in H. now rewrite H.
  - apply py_eq_true in H. now rewrite H.
  - apply py_eq_false in H. now rewrite H.
  - apply py_eq_false in H. now rewrite H.
  - intros [[lexeme ->] | [b ->]]; discriminate.
Qed.

Lemma comparison_is_equality_with_a_string_witness :
  filter_item "include" (decoded status_line) ["status"; "200"] [] 0 = OK ([], 0%nat) /\
  filter_item "exclude" (decoded status_line) ["status"; "200"] [] 0 = OK ([], 1%nat).
Proof.
  refine (proj1 (proj2 (comparison_is_equality_with_a_string
                          (decoded status_line) "status" "200" [] [] 0%nat
                          (JNum "200") _ _)) _).
  - vm_compute. lia.
  - vm_compute. reflexivity.
  - vm_compute. discriminate.
Defined.

(** ** The window on lines and runs *)

Section Windows.

Variable loads : string -> option json.
Variable strptime : string -> string -> option datetime.

Lemma window_lines_app (startDateTime endDateTime : datetime)
    (pre post : list string) (out : sink) :
  window_lines loads strptime startDateTime endDateTime (pre ++ post) out
  = match window_lines loads strptime startDateTime endDateTime pre out with
    | (out', OK _) =>
        window_lines loads strptime startDateTime endDateTime post out'
    | (out', Raise e) => (out', Raise e)
    end.
Proof.
  revert out. induction pre as [|line pre IH]; intro out; cbn [app window_lines].
  - reflexivity.
  - destruct (window_line loads strptime startDateTime endDateTime line)
      as [[log|]|e]; [apply IH | apply IH | reflexivity].
Qed.

(** A run only appends. *)
Lemma window_lines_extends (startDateTime endDateTime : datetime)
    (lines : list string) (out : sink) :
  exists more,
    fst (window_lines loads strptime startDateTime endDateTime lines out)
    = out ++ more.
Proof.
  revert out. induction lines as [|line lines IH]; intro out; cbn [window_lines].
  - exists []. cbn. now rewrite app_nil_r.
  - destruct (window_line loads strptime startDateTime endDateTime line)
      as [[log|]|e].
    + destruct (IH (writeOutput (Encoded log) out)) as [more Hm].
      exists (Encoded log :: more). rewrite Hm. unfold writeOutput.
      now rewrite <- app_assoc.
    + apply IH.
    + exists []. cbn. now rewrite app_nil_r.
Qed.

Lemma window_line_parsed (startDateTime endDateTime : datetime) (line : string)
    (log : json) (s : string) (t : datetime) :
  loads line = Some log ->
  subscript log "timestamp" = OK (JStr s) ->
  strptime (take 19 s) fmt_T = Some t ->
  window_line loads strptime startDateTime endDateTime line
  = OK (if in_window startDateTime endDateTime t then Some log else None).
Proof.
  intros Hl Hs Ht. unfold window_line.
  rewrite Hl, Hs. cbn [bind timestamp_text]. now rewrite Ht.
Qed.

Lemma window_line_error (startDateTime endDateTime : datetime) (line : string)
    (e : exn) :
  line_error loads strptime line e ->
  window_line loads strptime startDateTime endDateTime line = Raise e.
Proof.
  intros [Hl | ms Hl Hk | log s Hl Hs Ht]; unfold window_line; rewrite Hl.
  - reflexivity.
  - cbn [subscript]. now rewrite Hk.
  - rewrite Hs. cbn [bind timestamp_text]. now rewrite Ht.
Qed.

End Windows.

Lemma in_window_spec (a b t : datetime) : in_window a b t = true <-> a <= t <= b.
Proof. unfold in_window. rewrite andb_true_iff, !Z.leb_le. tauto. Qed.

Lemma in_window_false (a b t : datetime) : t < a \/ b < t -> in_window a b t = false.
Proof.
  intro H. destruct (in_window a b t) eqn:E; [|reflexivity].
  apply in_window_spec in E. lia.
Qed.

(** C4 (counterexample). A malformed line, a record without a timestamp
    and a record with a timestamp that does not parse each end the run with an
    exception: the record on the next line, which lies in the window, is not
    written. *)
Lemma record_error_stops_the_run :
  timeslice json_loads py_strptime (unlines [notice_line]) 1 "2019-07-22 20:04:31"
  = ([Encoded notice_record], OK tt) /\
  timeslice json_loads py_strptime
    (unlines [notice_line; "{bad"; notice_line]) 1 "2019-07-22 20:04:31"
  = ([Encoded notice_record], Raise JSONDecodeError) /\
  timeslice json_loads py_strptime
    (unlines [q "{'severity':'NOTICE'}"; notice_line]) 1 "2019-07-22 20:04:31"
  = ([], Raise KeyError) /\
  timeslice json_loads py_strptime
    (unlines [q "{'timestamp':'yesterday'}"; notice_line]) 1 "2019-07-22 20:04:31"
  = ([], Raise ValueError) /\
  timeframe json_loads py_strptime
    (unlines ["{bad"; notice_line]) "2019-07-22 20:04:01 > 2019-07-22 20:05:01"
  = ([], Raise JSONDecodeError).
Proof. by_evaluation. Qed.

(** C4 (amended). In [timeslice] and in [timeframe] no error of a record is
    recovered: at the first line that is malformed, or whose record has no
    timestamp, or whose timestamp does not parse, the run ends with
    [JSONDecodeError], [KeyError] or [ValueError]; the output keeps what the
    lines before it produced and the lines after it are not read. *)
Theorem record_error_aborts_extraction :
  forall (loads : string -> option json)
         (strptime : string -> string -> option datetime)
         (startDateTime endDateTime : datetime) (file : string)
         (pre post : list string) (line : string) (out : sink) (e : exn),
    readlines file = pre ++ line :: post ->
    window_lines loads strptime startDateTime endDateTime pre [] = (out, OK tt) ->
    line_error loads strptime line e ->
    (e = JSONDecodeError \/ e = KeyError \/ e = ValueError) /\
    (forall (size : Z) (dateTimeString : string),
        timeslice_window strptime size dateTimeString
        = OK (startDateTime, endDateTime) ->
        timeslice loads strptime file size dateTimeString = (out, Raise e)) /\
    (forall (range : string),
        timeframe_window strptime range = OK (startDateTime, endDateTime) ->
        timeframe loads strptime file range = (out, Raise e)).
Proof.
  intros loads strptime a b file pre post line out e Hread Hpre Herr.
  assert (Hrun : window_lines loads strptime a b (readlines file) []
                 = (out, Raise e)).
  { rewrite Hread, window_lines_app, Hpre. cbn [window_lines].
    now rewrite (window_line_error loads strptime a b line e Herr). }
  split; [destruct Herr; auto|].
  split.
  - intros size dts Hw. unfold timeslice. now rewrite Hw.
  - intros range Hw. unfold timeframe. now rewrite Hw.
Qed.

Lemma record_error_aborts_extraction_witness :
  line_error json_loads py_strptime ("{bad" ++ nl) JSONDecodeError /\
  timeframe json_loads py_strptime
    (unlines [notice_line; "{bad"; notice_line])
    "2019-07-22 20:04:01 > 2019-07-22 20:05:01"
  = ([Encoded notice_record], Raise JSONDecodeError).
Proof.
  assert (Herr : line_error json_loads py_strptime ("{bad" ++ nl) JSONDecodeError).
  { apply malformed_line. vm_compute. reflexivity. }
  split; [exact Herr|].
  refine (proj2 (proj2 (record_error_aborts_extraction json_loads py_strptime
                          63699422641000000 63699422701000000
                          (unlines [notice_line; "{bad"; notice_line])
                          [(notice_line ++ nl)%string] [(notice_line ++ nl)%string]
                          ("{bad" ++ nl)%string [Encoded notice_record]
                          JSONDecodeError _ _ Herr)) _ _);
    vm_compute; reflexivity.
Defined.

(** ** The centered window *)

Lemma getTimeDeltas_in_range (c size : Z) :
  let d := size * (30 * us_per_second) in
  datetime_min <= c - d <= datetime_max ->
  datetime_min <= c + d <= datetime_max ->
  getTimeDeltas c size = OK (c - d, c + d).
Proof.
  intros d Hs He. unfold getTimeDeltas, timedelta_half_minutes.
  fold d.
  assert (Htd : (timedelta_min <=? d) && (d <=? timedelta_max) = true).
  { apply andb_true_iff. rewrite !Z.leb_le.
    unfold datetime_min, datetime_max, timedelta_min, timedelta_max,
      us_per_day, us_per_second in *. lia. }
  rewrite Htd. cbn [bind]. unfold datetime_sub, datetime_add.
  replace (c + - d) with (c - d) by lia.
  assert (H1 : (datetime_min <=? c - d) && (c - d <=? datetime_max) = true)
    by (apply andb_true_iff; rewrite !Z.leb_le; lia).
  assert (H2 : (datetime_min <=? c + d) && (c + d <=? datetime_max) = true)
    by (apply andb_true_iff; rewrite !Z.leb_le; lia).
  rewrite H1. cbn [bind]. now rewrite H2.
Qed.

Lemma getTimeDeltas_out_of_range (c size : Z) :
  let d := size * (30 * us_per_second) in
  ~ (datetime_min <= c - d <= datetime_max /\
     datetime_min <= c + d <= datetime_max) ->
  getTimeDeltas c size = Raise OverflowError.
Proof.
  intros d H. unfold getTimeDeltas, timedelta_half_minutes. fold d.
  destruct ((timedelta_min <=? d) && (d <=? timedelta_max)); [|reflexivity].
  cbn [bind]. unfold datetime_sub, datetime_add.
  replace (c + - d) with (c - d) by lia.
  destruct ((datetime_min <=? c - d) && (c - d <=? datetime_max)) eqn:E1;
    [|reflexivity].
  cbn [bind].
  destruct ((datetime_min <=? c + d) && (c + d <=? datetime_max)) eqn:E2;
    [|reflexivity].
  exfalso. apply H.
  apply andb_true_iff in E1, E2. rewrite !Z.leb_le in E1, E2. lia.
Qed.

(** C6 (counterexample). The first instant of the type is a center no
    window fits around: the start would lie before it, and [getTimeDeltas]
    leaves by [OverflowError]. *)
Lemma first_instant_has_no_centered_window :
  convertTimeString py_strptime "0001-01-01 00:00:00" = OK datetime_min /\
  getTimeDeltas datetime_min 1 = Raise OverflowError /\
  timeslice json_loads py_strptime (unlines [notice_line]) 1 "0001-01-01 00:00:00"
  = ([], Raise OverflowError).
Proof. by_evaluation. Qed.

(** C6 (amended). For a center [c] and an integer size of [size] minutes
    such that both ends lie in the range of [datetime], [getTimeDeltas] returns
    the start half the size before [c] and the end half the size after it: the
    end is [size] minutes after the start and [c] is their midpoint.  When an
    end lies outside the range the call leaves by [OverflowError].  The center
    2019-07-22 20:04:31 with size 1 gives 20:04:01 and 20:05:01. *)
Theorem centered_window_arithmetic :
  forall (c size : Z),
    let d := size * (30 * us_per_second) in
    (datetime_min <= c - d <= datetime_max ->
     datetime_min <= c + d <= datetime_max ->
     exists startDateTime endDateTime,
       getTimeDeltas c size = OK (startDateTime, endDateTime) /\
       2 * (c - startDateTime) = size * us_per_minute /\
       2 * (endDateTime - c) = size * us_per_minute /\
       endDateTime - startDateTime = size * us_per_minute /\
       startDateTime + endDateTime = 2 * c) /\
    (~ (datetime_min <= c - d <= datetime_max /\
        datetime_min <= c + d <= datetime_max) ->
     getTimeDeltas c size = Raise OverflowError) /\
    (exists center startDateTime endDateTime,
        convertTimeString py_strptime "2019-07-22 20:04:31" = OK center /\
        convertTimeString py_strptime "2019-07-22 20:04:01" = OK startDateTime /\
        convertTimeString py_strptime "2019-07-22 20:05:01" = OK endDateTime /\
        getTimeDeltas center 1 = OK (startDateTime, endDateTime)).
Proof.
  intros c size d. split; [|split].
  - intros Hs He. exists (c - d), (c + d).
    split; [now apply getTimeDeltas_in_range|].
    unfold d, us_per_minute. lia.
  - apply getTimeDeltas_out_of_range.
  - exists 63699422671000000, 63699422641000000, 63699422701000000.
    repeat split; vm_compute; reflexivity.
Qed.

Lemma centered_window_arithmetic_witness :
  exists startDateTime endDateTime,
    getTimeDeltas 63699422671000000 30 = OK (startDateTime, endDateTime) /\
    2 * (63699422671000000 - startDateTime) = 30 * us_per_minute /\
    2 * (endDateTime - 63699422671000000) = 30 * us_per_minute /\
    endDateTime - startDateTime = 30 * us_per_minute /\
    startDateTime + endDateTime = 2 * 63699422671000000.
Proof.
  apply (proj1 (centered_window_arithmetic 63699422671000000 30));
    vm_compute; split; discriminate.
Defined.

(** * Further properties *)

(** ** More on strings *)

Lemma split_no_char (sep : ascii) (s : string) :
  no_char sep s = true -> split sep s = [s].
Proof.
  induction s as [|c s IH]; cbn [no_char split]; intro H; [reflexivity|].
  apply andb_true_iff in H as [Hc Hs]. apply negb_true_iff in Hc.
  now rewrite Hc, (IH Hs).
Qed.

Lemma split_app_sep (sep : ascii) (a b : string) :
  no_char sep a = true ->
  split sep (a ++ String sep b) = a :: split sep b.
Proof.
  induction a as [|c a IH]; cbn [no_char append split]; intro H.
  - now rewrite Ascii.eqb_refl.
  - apply andb_true_iff in H as [Hc Ha]. apply negb_true_iff in Hc.
    now rewrite Hc, (IH Ha).
Qed.

Lemma concat_split (sep : ascii) (s : string) :
  String.concat (String sep EmptyString) (split sep s) = s.
Proof.
  induction s as [|c s IH]; cbn [split]; [reflexivity|].
  pose proof (split_nonempty sep s) as Hne.
  destruct (Ascii.eqb_spec c sep) as [->|Hc].
  - destruct (split sep s) as [|h t]; [congruence|].
    cbn [String.concat append] in *. now rewrite IH.
  - destruct (split sep s) as [|h t]; [congruence|].
    destruct t; cbn [String.concat append] in *; now rewrite IH.
Qed.

Lemma rstrip_idempotent (s : string) : rstrip (rstrip s) = rstrip s.
Proof.
  induction s as [|c s IH]; cbn [rstrip]; [reflexivity|].
  destruct (rstrip s) as [|d t] eqn:E.
  - destruct (is_space c) eqn:Hc; cbn [rstrip]; [reflexivity | now rewrite Hc].
  - cbn [rstrip] in *. now rewrite IH.
Qed.

Lemma lstrip_head (s : string) :
  lstrip s = EmptyString \/
  exists c r, lstrip s = String c r /\ is_space c = false.
Proof.
  induction s as [|c s IH]; cbn [lstrip]; [now left|].
  destruct (is_space c) eqn:Hc; [exact IH|].
  right. now exists c, s.
Qed.

Lemma strip_idempotent (s : string) : strip (strip s) = strip s.
Proof.
  unfold strip. destruct (lstrip_head s) as [E | (c & r & E & Hc)]; rewrite E.
  - reflexivity.
  - destruct (rstrip_head c r Hc) as [t Ht]. rewrite Ht.
    cbn [lstrip]. rewrite Hc. rewrite <- Ht. apply rstrip_idempotent.
Qed.

Lemma no_char_lstrip (x : ascii) (s : string) :
  no_char x s = true -> no_char x (lstrip s) = true.
Proof.
  induction s as [|c s IH]; cbn [lstrip no_char]; intro H; [reflexivity|].
  destruct (is_space c); [|exact H].
  apply andb_true_iff in H as [_ Hs]. auto.
Qed.

Lemma no_char_rstrip (x : ascii) (s : string) :
  no_char x s = true -> no_char x (rstrip s) = true.
Proof.
  induction s as [|c s IH]; cbn [rstrip no_char]; intro H; [reflexivity|].
  apply andb_true_iff in H as [Hc Hs]. specialize (IH Hs).
  destruct (rstrip s) as [|d t].
  - destruct (is_space c); cbn [no_char]; [reflexivity | now rewrite Hc].
  - cbn [no_char] in *. now rewrite Hc, IH.
Qed.

Lemma no_char_strip (x : ascii) (s : string) :
  no_char x s = true -> no_char x (strip s) = true.
Proof. intro H. unfold strip. now apply no_char_rstrip, no_char_lstrip. Qed.

Lemma unlines_app (a b : list string) :
  unlines (a ++ b) = (unlines a ++ unlines b)%string.
Proof.
  induction a as [|x a IH]; [reflexivity|].
  cbn [app]. rewrite !unlines_cons, IH. now rewrite !append_assoc.
Qed.

Lemma readlines_nil (s : string) : readlines s = [] -> s = EmptyString.
Proof.
  destruct s as [|c s]; cbn [readlines]; [reflexivity|].
  destruct (Ascii.eqb c nl_char); [discriminate|].
  destruct (readlines s); discriminate.
Qed.

Lemma terminated_tail (c : ascii) (a : string) :
  terminated (String c a) = true ->
  terminated a = true /\ (a = EmptyString -> Ascii.eqb c nl_char = true).
Proof.
  cbn [terminated]. destruct a as [|d a]; intro H; split; auto.
  discriminate.
Qed.

Lemma readlines_app_terminated (a b : string) :
  terminated a = true -> readlines (a ++ b) = readlines a ++ readlines b.
Proof.
  induction a as [|c a IH]; intro H; [reflexivity|].
  apply terminated_tail in H as [Ha Hc]. specialize (IH Ha).
  cbn [append readlines]. rewrite IH.
  destruct (Ascii.eqb c nl_char) eqn:E; [reflexivity|].
  destruct (readlines a) as [|h t] eqn:Er.
  - apply readlines_nil in Er. specialize (Hc Er). discriminate.
  - reflexivity.
Qed.

Lemma length_split (sep : ascii) (s : string) :
  List.length (split sep s) = S (count_char sep s).
Proof.
  induction s as [|c s IH]; cbn [split count_char]; [reflexivity|].
  destruct (Ascii.eqb c sep); cbn [List.length Nat.add].
  - now rewrite IH.
  - destruct (split sep s); cbn [List.length] in *; [discriminate | exact IH].
Qed.

(** ** The text of the conditions *)

Lemma split_parts_no_sep (sep : ascii) (s : string) :
  Forall (fun part => no_char sep part = true) (split sep s).
Proof.
  induction s as [|c s IH]; cbn [split]; [repeat constructor|].
  destruct (Ascii.eqb c sep) eqn:E; [constructor; [reflexivity | exact IH]|].
  destruct (split sep s) as [|h t]; [repeat constructor; cbn; now rewrite E|].
  inversion IH as [|? ? Hh Ht]; subst. constructor; [|exact Ht].
  cbn [no_char]. now rewrite E, Hh.
Qed.

Lemma split_parts_no_char (x sep : ascii) (s : string) :
  no_char x s = true ->
  Forall (fun part => no_char x part = true) (split sep s).
Proof.
  induction s as [|c s IH]; cbn [split no_char]; intro H; [repeat constructor|].
  apply andb_true_iff in H as [Hc Hs]. specialize (IH Hs).
  destruct (Ascii.eqb c sep); [constructor; [reflexivity | exact IH]|].
  destruct (split sep s) as [|h t]; [repeat constructor; cbn; now rewrite Hc|].
  inversion IH as [|? ? Hh Ht]; subst. constructor; [|exact Ht].
  cbn [no_char]. now rewrite Hc, Hh.
Qed.

(** X1. [parseFilters] loses nothing of the filter text and cuts it at
    every comma and at every equals sign: joining the parts of every condition
    with an equals sign and the conditions with a comma gives the text back;
    there is one condition more than there are commas, an empty text included;
    and no part of a condition holds a comma or an equals sign, so neither can
    be part of a path or of a value. *)
Theorem parseFilters_keeps_the_text :
  forall (filterString filter : string),
    String.concat "," (map (String.concat "=") (parseFilters filterString filter))
    = filter /\
    List.length (parseFilters filterString filter) = S (count_char "," filter) /\
    Forall (Forall (fun part => no_char "," part = true /\ no_char "=" part = true))
           (parseFilters filterString filter).
Proof.
  intros filterString filter. unfold parseFilters. split; [|split].
  - rewrite map_map.
    rewrite (map_ext _ (fun x => x)) by (intro x; apply (concat_split "=")).
    rewrite map_id. apply (concat_split ",").
  - rewrite length_map. apply length_split.
  - rewrite Forall_map.
    eapply Forall_impl; [|apply (split_parts_no_sep "," filter)].
    cbn beta. intros c Hc.
    pose proof (split_parts_no_char "," "=" c Hc) as H1.
    pose proof (split_parts_no_sep "=" c) as H2.
    revert H1 H2. generalize (split "=" c) as parts.
    induction parts as [|p parts IH]; intros H1 H2; constructor;
      inversion H1; inversion H2; subst; auto.
Qed.

(** ** The prompt *)

Lemma not_recognised (x : string) :
  mem x loop_answers = false ->
  mem x yes_answers = false /\ mem x no_answers = false.
Proof.
  unfold mem, loop_answers, yes_answers, no_answers. cbn [existsb].
  intro H. repeat (apply orb_false_iff in H as [? H]).
  repeat match goal with E : (_ =? _)%string = false |- _ => rewrite E; clear E end.
  split; reflexivity.
Qed.

Lemma prompt_loop_recognised (a : string) (rest : list string) :
  mem a loop_answers = true ->
  prompt_loop (a :: rest)
  = if mem a ["no"; "No"; "N"; "n"] then Exited else Proceed rest.
Proof.
  intro H. unfold mem in H. apply existsb_exists in H as [x [Hin Hx]].
  apply String.eqb_eq in Hx. subst x.
  unfold loop_answers in Hin. cbn [In] in Hin.
  repeat (destruct Hin as [<-|Hin]; [reflexivity|]). contradiction.
Qed.

Lemma prompt_loop_skips (junk rest : list string) :
  Forall (fun x => mem x loop_answers = false) junk ->
  prompt_loop (junk ++ rest) = prompt_loop rest.
Proof.
  induction 1 as [|x junk Hx Hjunk IH]; [reflexivity|].
  cbn [app prompt_loop]. destruct (not_recognised x Hx) as [Hy Hn].
  now rewrite Hx, Hy, Hn.
Qed.

(** X2. With [cont] true no answer is read.  Otherwise answers outside the
    tuple of the loop are passed over; the first answer in it decides: no,
    No, N and n leave by [sys.exit], every other one lets the operation go
    on, and that includes NO, for which the loop prints its request for a
    yes or a no and then ends.  When the input ends first, [input] raises. *)
Theorem prompt_is_decided_by_first_recognised_answer :
  forall (junk : list string) (a : string) (rest : list string),
    Forall (fun x => mem x loop_answers = false) junk ->
    continuePrompt true (junk ++ a :: rest) = Proceed (junk ++ a :: rest) /\
    (mem a loop_answers = true ->
     continuePrompt false (junk ++ a :: rest)
     = if mem a ["no"; "No"; "N"; "n"] then Exited else Proceed rest) /\
    continuePrompt false (junk ++ "NO" :: rest) = Proceed rest /\
    continuePrompt false junk = InputEnded.
Proof.
  intros junk a rest Hjunk. unfold continuePrompt.
  split; [reflexivity|]. split; [|split].
  - intro Ha. rewrite prompt_loop_skips by exact Hjunk.
    now apply prompt_loop_recognised.
  - rewrite prompt_loop_skips by exact Hjunk. reflexivity.
  - rewrite <- (app_nil_r junk). rewrite prompt_loop_skips by exact Hjunk.
    reflexivity.
Qed.

Lemma prompt_is_decided_by_first_recognised_answer_witness :
  continuePrompt false ["maybe"; "nope"; "NO"; "n"] = Proceed ["n"] /\
  continuePrompt false ["maybe"; "nope"; "n"; "yes"] = Exited.
Proof.
  assert (H : Forall (fun x => mem x loop_answers = false) ["maybe"; "nope"])
    by (repeat constructor).
  split.
  - exact (proj1 (proj2 (proj2
             (prompt_is_decided_by_first_recognised_answer _ "n" ["n"] H)))).
  - exact (proj1 (proj2
             (prompt_is_decided_by_first_recognised_answer _ "n" ["yes"] H))
             eq_refl).
Defined.

(** ** The validation *)

(** X3. [validateArgs] lets the arguments through exactly when every task
    asked for has what it names: statistics a file; timeslice, timeframe and
    merge a file and an output; filter a file, a type and an output; the
    download from cloud storage a bucket and an output; gcloudformatter a
    file only (its second test asks for the file again, so a missing output
    passes). *)
Theorem validateArgs_accepts :
  forall (a : args),
    validateArgs a = (if accepted a then OK tt else Raise SystemExit) /\
    (forall (file : string),
        validateArgs (mkArgs false None None false None None true None
                             (Some file) None None None) = OK tt).
Proof.
  intros [st ts tf mg fl dl gf bk fi ou ty ke]. split; [|reflexivity].
  unfold validateArgs, accepted, given, error_if.
  cbn [arg_statistics arg_timeslice arg_timeframe arg_merge arg_filter
       arg_download arg_gcloudformatter arg_bucketid arg_file arg_output
       arg_type arg_key].
  destruct st, ts, tf, mg, fl, (is_cloudstorage dl), gf, bk, fi, ou, ty;
    reflexivity.
Qed.

(** ** The merge *)

Lemma merge_files_all (open_file : string -> option string)
    (fileList contents : list string) (out : sink) :
  Forall2 (fun item c => open_file item = Some c) fileList contents ->
  merge_files open_file fileList out = (out ++ map Verbatim contents, Merged).
Proof.
  intro H. revert out. induction H as [|item c fl cs Hc Hrest IH]; intro out;
    cbn [merge_files map].
  - now rewrite app_nil_r.
  - rewrite Hc, IH. unfold writeOutput. now rewrite <- app_assoc.
Qed.

Lemma merge_files_stop (open_file : string -> option string)
    (pre contents : list string) (item : string) (post : list string) (out : sink) :
  Forall2 (fun item c => open_file item = Some c) pre contents ->
  open_file item = None ->
  merge_files open_file (pre ++ item :: post) out
  = (out ++ map Verbatim contents, FailedToOpen item).
Proof.
  intros H Hi. revert out. induction H as [|x c fl cs Hc Hrest IH]; intro out;
    cbn [app merge_files map].
  - now rewrite Hi, app_nil_r.
  - rewrite Hc, IH. unfold writeOutput. now rewrite <- app_assoc.
Qed.

Lemma file_text_verbatim (dumps : json -> string) (contents : list string) :
  file_text dumps (map Verbatim contents) = String.concat EmptyString contents.
Proof.
  unfold file_text. rewrite map_map. cbn [chunk_text]. now rewrite map_id.
Qed.

(** X4. When every listed file opens, [mergeLogs] appends the content of
    each file as it is, in the order of the listing: the output file is the
    contents put one after the other, an empty file adding nothing. *)
Theorem merge_concatenates_in_listing_order :
  forall (open_file : string -> option string) (fileList contents : list string)
         (cont : bool) (answers rest : list string) (dumps : json -> string),
    fileList <> [] ->
    continuePrompt cont answers = Proceed rest ->
    Forall2 (fun item c => open_file item = Some c) fileList contents ->
    mergeLogs open_file fileList cont answers = (map Verbatim contents, Merged) /\
    file_text dumps (fst (mergeLogs open_file fileList cont answers))
    = String.concat EmptyString contents.
Proof.
  intros open_file fileList contents cont answers rest dumps Hne Hp H.
  assert (E : mergeLogs open_file fileList cont answers
              = (map Verbatim contents, Merged)).
  { unfold mergeLogs. destruct fileList as [|x fl]; [congruence|].
    cbn [List.length Nat.eqb]. rewrite Hp. now rewrite (merge_files_all _ _ contents). }
  split; [exact E|]. rewrite E. apply file_text_verbatim.
Qed.

Lemma merge_concatenates_in_listing_order_witness :
  file_text json_dumps (fst (mergeLogs three_files ["a"; "b"; "c"] true []))
  = ("1" ++ nl ++ "2" ++ nl ++ "3" ++ nl)%string.
Proof.
  refine (proj2 (merge_concatenates_in_listing_order
                   three_files ["a"; "b"; "c"]
                   [("1" ++ nl ++ "2" ++ nl)%string; EmptyString; ("3" ++ nl)%string]
                   true [] [] json_dumps _ _ _)).
  - discriminate.
  - reflexivity.
  - repeat constructor.
Defined.

(** X5. A merge that cannot go on leaves what it has written: an empty
    listing raises before the prompt and writes nothing; an exit at the prompt
    writes nothing; a file that does not open raises after the files listed
    before it have been appended, and the files after it are not read. *)
Theorem merge_stops_at_the_file_that_does_not_open :
  forall (open_file : string -> option string) (cont : bool)
         (answers : list string),
    mergeLogs open_file [] cont answers = ([], NoFilesIdentified) /\
    (forall (fileList : list string),
        fileList <> [] -> continuePrompt cont answers = Exited ->
        mergeLogs open_file fileList cont answers = ([], PromptExit)) /\
    (forall (pre contents : list string) (item : string) (post rest : list string),
        continuePrompt cont answers = Proceed rest ->
        Forall2 (fun x c => open_file x = Some c) pre contents ->
        open_file item = None ->
        mergeLogs open_file (pre ++ item :: post) cont answers
        = (map Verbatim contents, FailedToOpen item)).
Proof.
  intros open_file cont answers. split; [reflexivity|]. split.
  - intros fileList Hne Hp. unfold mergeLogs.
    destruct fileList as [|x fl]; [congruence|].
    cbn [List.length Nat.eqb]. now rewrite Hp.
  - intros pre contents item post rest Hp H Hi. unfold mergeLogs.
    rewrite length_app. cbn [List.length].
    replace (Nat.eqb (List.length pre + S (List.length post)) 0) with false
      by (symmetry; apply Nat.eqb_neq; lia).
    rewrite Hp. now rewrite (merge_files_stop _ _ contents).
Qed.

Lemma merge_stops_at_the_file_that_does_not_open_witness :
  mergeLogs three_files ["a"; "missing"; "c"] true []
  = ([Verbatim ("1" ++ nl ++ "2" ++ nl)], FailedToOpen "missing").
Proof.
  refine (proj2 (proj2 (merge_stops_at_the_file_that_does_not_open
                          three_files true []))
                ["a"] [("1" ++ nl ++ "2" ++ nl)%string] "missing" ["c"] [] _ _ _).
  - reflexivity.
  - repeat constructor.
  - reflexivity.
Defined.

(** ** The normalizer on any text *)

Lemma closing_line_tests (line : string) :
  closes_object line = true ->
  startswith (strip line) "[" = false /\ startswith line "  {" = false.
Proof.
  unfold closes_object, startswith.
  destruct line as [|a [|b [|c r]]]; cbn [prefix]; try discriminate;
    try (destruct (ascii_dec " " a); discriminate);
    try (destruct (ascii_dec " " a); [destruct (ascii_dec " " b)|]; discriminate).
  destruct (ascii_dec " " a) as [<-|]; [|discriminate].
  destruct (ascii_dec " " b) as [<-|]; [|discriminate].
  destruct (ascii_dec "}" c) as [<-|]; [|discriminate].
  intros _. split; [|reflexivity].
  unfold strip. cbn [lstrip]. change (is_space " ") with true.
  change (is_space "}") with false. cbv iota.
  destruct (rstrip_head "}" r eq_refl) as [t Ht]. rewrite Ht. reflexivity.
Qed.

Lemma gcloud_io_length (lo : string * sink) (line : string) :
  List.length (snd (gcloud_io lo line))
  = (List.length (snd lo) + (if closes_object line then 1 else 0))%nat.
Proof.
  destruct lo as [l o]. cbn [snd].
  destruct (closes_object line) eqn:E.
  - destruct (closing_line_tests line E) as [H1 H2].
    unfold closes_object in E. unfold gcloud_io. rewrite H1, H2, E.
    cbn [andb]. destruct (endswith (strip line) ","); cbn [snd];
      unfold writeOutput; rewrite length_app; reflexivity.
  - unfold closes_object in E. unfold gcloud_io. rewrite E. cbn [andb].
    repeat match goal with
           | |- context [if ?b then _ else _] => destruct b
           end; cbn [snd]; lia.
Qed.

Lemma gcloud_io_fold_length (lines : list string) (lo : string * sink) :
  List.length (snd (fold_left gcloud_io lines lo))
  = (List.length (snd lo) + List.length (filter closes_object lines))%nat.
Proof.
  revert lo. induction lines as [|line lines IH]; intro lo;
    cbn [fold_left filter].
  - cbn. lia.
  - rewrite IH, gcloud_io_length.
    destruct (closes_object line); cbn [List.length]; lia.
Qed.

Lemma gcloudFormatter_fold (file : string) :
  gcloudFormatter file
  = snd (fold_left gcloud_io (readlines file) (EmptyString, [])).
Proof.
  unfold gcloudFormatter.
  pose proof (gcloud_fold_io (readlines file)
                (mkFormatter EmptyString 0%nat 10000%nat [])) as E.
  cbv zeta in E. apply (f_equal snd) in E. exact E.
Qed.

Lemma filter_none {A : Type} (f : A -> bool) (l : list A) :
  Forall (fun x => f x = false) l -> filter f l = [].
Proof.
  induction 1 as [|x l Hx Hl IH]; [reflexivity|].
  cbn [filter]. now rewrite Hx.
Qed.

(** X6. Whatever the input, [gcloudFormatter] writes one chunk for every
    line that starts with two spaces and a closing brace, and nothing else:
    an input in which no line does, such as an object that is never closed
    at that indentation, leaves the output empty and the buffer is dropped
    without notice. *)
Theorem normalizer_writes_once_per_closing_line :
  forall (file : string),
    List.length (gcloudFormatter file)
    = List.length (filter closes_object (readlines file)) /\
    (Forall (fun line => closes_object line = false) (readlines file) ->
     gcloudFormatter file = []).
Proof.
  intro file.
  assert (E : List.length (gcloudFormatter file)
              = List.length (filter closes_object (readlines file))).
  { rewrite gcloudFormatter_fold, gcloud_io_fold_length. reflexivity. }
  split; [exact E|].
  intro H. apply length_zero_iff_nil. rewrite E.
  now rewrite filter_none.
Qed.

Lemma normalizer_writes_once_per_closing_line_witness :
  gcloudFormatter (unlines ["["; "  {"; q "    'a': 1"; "   }"; "]"]) = [].
Proof.
  apply (proj2 (normalizer_writes_once_per_closing_line
                  (unlines ["["; "  {"; q "    'a': 1"; "   }"; "]"]))).
  vm_compute. repeat constructor.
Defined.

(** ** Arrays one after the other *)

Lemma gcloud_io_array_any (objs : list (list string)) (l : string) (o : sink) :
  Forall (Forall (fun b => interior_line b = true)) objs ->
  fold_left gcloud_io (map (fun b => (b ++ nl)%string) (array_lines objs)) (l, o)
  = (match objs with [] => l | _ => nl end, o ++ object_chunks l objs).
Proof.
  intro H. destruct objs as [|x objs].
  - cbn. now rewrite app_nil_r.
  - now rewrite gcloud_io_array by (exact H || discriminate).
Qed.

Lemma gcloud_io_bracketed (objs : list (list string)) (l : string) (o : sink) :
  Forall (Forall (fun b => interior_line b = true)) objs ->
  fold_left gcloud_io
    (map (fun b => (b ++ nl)%string) ("[" :: array_lines objs ++ ["]"])) (l, o)
  = (match objs with [] => l | _ => nl end, o ++ object_chunks l objs).
Proof.
  intro H. rewrite map_cons, map_app. cbn [fold_left].
  change (gcloud_io (l, o) ("[" ++ nl)) with (l, o).
  rewrite fold_left_app, gcloud_io_array_any by exact H.
  reflexivity.
Qed.

Lemma bracketed_no_newline (objs : list (list string)) :
  Forall (Forall (fun b => interior_line b = true)) objs ->
  Forall (fun b => no_newline b = true) ("[" :: array_lines objs ++ ["]"]).
Proof.
  intro H. constructor; [reflexivity|]. apply Forall_app. split.
  - now apply array_lines_no_newline.
  - constructor; [reflexivity | constructor].
Qed.

Lemma object_chunks_app (a b : list (list string)) :
  object_chunks EmptyString a
  ++ object_chunks (match a with [] => EmptyString | _ => nl end) b
  = object_chunks EmptyString (a ++ b).
Proof.
  destruct a as [|x a]; [reflexivity|].
  cbn [object_chunks app]. rewrite map_app.
  destruct b as [|y b]; cbn [object_chunks map app].
  - now rewrite !app_nil_r.
  - reflexivity.
Qed.

(** X7. The line of the closing bracket does not end the run: a file that
    holds two arrays one after the other, as the merge of two exports does,
    is normalised as one array of all their objects. *)
Theorem normalizer_reads_on_after_the_array :
  forall (a b : list (list string)),
    Forall (Forall (fun x => interior_line x = true)) a ->
    Forall (Forall (fun x => interior_line x = true)) b ->
    gcloudFormatter (array_text a ++ array_text b)
    = gcloudFormatter (array_text (a ++ b)).
Proof.
  intros a b Ha Hb.
  rewrite (gcloudFormatter_array (a ++ b)) by (apply Forall_app; now split).
  unfold array_text. rewrite <- unlines_app, gcloudFormatter_fold.
  rewrite readlines_unlines
    by (apply Forall_app; split; now apply bracketed_no_newline).
  rewrite map_app, fold_left_app.
  rewrite (gcloud_io_bracketed a) by exact Ha.
  rewrite (gcloud_io_bracketed b) by exact Hb.
  cbn [snd app]. apply object_chunks_app.
Qed.

Lemma normalizer_reads_on_after_the_array_witness :
  gcloudFormatter (array_text [[q "    'a': 1"]] ++ array_text [[q "    'a': 2"]])
  = [Verbatim (q "{'a': 1}"); Verbatim (nl ++ q "{'a': 2}")].
Proof.
  rewrite (normalizer_reads_on_after_the_array
             [[q "    'a': 1"]] [[q "    'a': 2"]]);
    [vm_compute; reflexivity | repeat constructor ..].
Defined.

(** ** Normalised files, merged *)

Lemma concat_nl_glue (l1 l2 : list string) (x y : string) :
  (String.concat nl (l1 ++ [x]) ++ String.concat nl (y :: l2))%string
  = String.concat nl (l1 ++ (x ++ y)%string :: l2).
Proof.
  induction l1 as [|z l1 IH].
  - cbn [app]. destruct l2 as [|w l2]; cbn [String.concat].
    + reflexivity.
    + now rewrite append_assoc.
  - destruct l1 as [|z' l1].
    + cbn [app] in *. change (String.concat nl [z; x]) with (z ++ nl ++ x)%string.
      change (String.concat nl (z :: (x ++ y)%string :: l2))
        with (z ++ nl ++ String.concat nl ((x ++ y)%string :: l2))%string.
      rewrite <- IH. cbn [String.concat]. now rewrite !append_assoc.
    + change (String.concat nl ((z :: z' :: l1) ++ [x]))
        with (z ++ nl ++ String.concat nl ((z' :: l1) ++ [x]))%string.
      change (String.concat nl ((z :: z' :: l1) ++ (x ++ y)%string :: l2))
        with (z ++ nl ++ String.concat nl ((z' :: l1) ++ (x ++ y)%string :: l2))%string.
      rewrite <- IH. now rewrite !append_assoc.
Qed.

Lemma length_separated (l : list string) :
  List.length (separated l) = List.length l.
Proof.
  induction l as [|x l IH]; [reflexivity|].
  destruct l as [|y l]; [reflexivity|].
  cbn [separated List.length] in *. now rewrite IH.
Qed.

Lemma normalized_text (dumps : json -> string) (objs : list (list string)) :
  Forall (Forall (fun b => interior_line b = true)) objs ->
  file_text dumps (gcloudFormatter (array_text objs))
  = String.concat nl (map one_line objs).
Proof.
  intro H. rewrite gcloudFormatter_array by exact H.
  apply file_text_object_chunks.
Qed.

(** X8. The output of the normalizer does not end its last line, so the
    merge of two normalised files puts the last object of the first and the
    first object of the second on one line: the merged file has one line
    fewer than the two files have objects. *)
Theorem merged_normalised_files_share_a_line :
  forall (dumps : json -> string) (open_file : string -> option string)
         (f1 f2 : string) (a0 b0 : list (list string)) (x y : list string),
    Forall (Forall (fun b => interior_line b = true)) (a0 ++ [x]) ->
    Forall (Forall (fun b => interior_line b = true)) (y :: b0) ->
    open_file f1
    = Some (file_text dumps (gcloudFormatter (array_text (a0 ++ [x])))) ->
    open_file f2
    = Some (file_text dumps (gcloudFormatter (array_text (y :: b0)))) ->
    let merged := file_text dumps (fst (mergeLogs open_file [f1; f2] true [])) in
    readlines merged
    = separated (map one_line a0 ++ (one_line x ++ one_line y)%string
                                    :: map one_line b0) /\
    List.length (readlines merged)
    = (List.length (a0 ++ [x]) + List.length (y :: b0) - 1)%nat.
Proof.
  intros dumps open_file f1 f2 a0 b0 x y Ha Hb H1 H2 merged.
  assert (E : readlines merged
              = separated (map one_line a0 ++ (one_line x ++ one_line y)%string
                                              :: map one_line b0)).
  { unfold merged, mergeLogs. cbn [List.length Nat.eqb continuePrompt].
    rewrite (merge_files_all open_file [f1; f2] [_; _] [])
      by (constructor; [exact H1 | constructor; [exact H2 | constructor]]).
    cbn [app fst]. rewrite file_text_verbatim.
    rewrite !normalized_text by assumption.
    change (String.concat EmptyString
              [String.concat nl (map one_line (a0 ++ [x]));
               String.concat nl (map one_line (y :: b0))])
      with (String.concat nl (map one_line (a0 ++ [x]))
            ++ String.concat nl (map one_line (y :: b0)))%string.
    rewrite map_app. cbn [map]. rewrite concat_nl_glue.
    apply readlines_separated.
    apply Forall_app in Ha as [Ha0 Hx]. inversion Hx as [|? ? Hx' _]; subst.
    inversion Hb as [|? ? Hy Hb0]; subst.
    assert (Hone : forall o, Forall (fun b => interior_line b = true) o ->
                   no_newline (one_line o) = true /\ one_line o <> EmptyString).
    { intros o Ho. split; [now apply one_line_no_newline | discriminate]. }
    apply Forall_app. split.
    - apply Forall_map. eapply Forall_impl; [|exact Ha0]. exact Hone.
    - constructor.
      + split; [|discriminate].
        rewrite no_newline_app.
        now rewrite (proj1 (Hone x Hx')), (proj1 (Hone y Hy)).
      + apply Forall_map. eapply Forall_impl; [|exact Hb0]. exact Hone. }
  split; [exact E|].
  rewrite E, length_separated, !length_app. cbn [List.length].
  rewrite !length_map. lia.
Qed.

Lemma merged_normalised_files_share_a_line_witness :
  readlines (file_text json_dumps
               (fst (mergeLogs two_normalised ["n1"; "n2"] true [])))
  = [q "{'a': 1}{'a': 2}"].
Proof.
  refine (proj1 (merged_normalised_files_share_a_line
                   json_dumps two_normalised "n1" "n2" [] []
                   [q "    'a': 1"] [q "    'a': 2"] _ _ _ _)).
  - repeat constructor.
  - repeat constructor.
  - vm_compute. reflexivity.
  - vm_compute. reflexivity.
Defined.

(** ** Conditions as they are written *)

Lemma no_char_app (x : ascii) (a b : string) :
  no_char x (a ++ b) = no_char x a && no_char x b.
Proof.
  induction a as [|c a IH]; cbn [append no_char]; [reflexivity|].
  rewrite IH. now rewrite andb_assoc.
Qed.

Lemma filter_item_without_value (mode : string) (log : json) (c : string)
    (out : sink) (n : nat) :
  filter_item mode log [c] out n = Raise IndexError.
Proof. reflexivity. Qed.

(** X9. A condition that has no equals sign has no value: at the first
    line that decodes, [item[1]] raises [IndexError] before the mode is looked
    at, after the conditions written before it have been applied to that
    record; nothing handles it.  An empty filter text is such a condition. *)
Theorem condition_without_equals_raises_IndexError :
  forall (loads : string -> option json) (mode file filterVal : string)
         (line : string) (post : list string) (log : json)
         (before after : list (list string)) (c : string)
         (out1 : sink) (n : nat),
    readlines file = line :: post ->
    loads line = Some log ->
    (parseFilters mode filterVal = before ++ [c] :: after ->
     filter_items mode log before [] 0 = (out1, OK n) ->
     filterLog loads file filterVal mode = (out1, Raise IndexError)) /\
    (no_char "=" c = true -> no_char "," c = true ->
     filterLog loads file c mode = ([], Raise IndexError)) /\
    filterLog loads file EmptyString mode = ([], Raise IndexError).
Proof.
  intros loads mode file filterVal line post log before after c out1 n Hread Hl.
  assert (Hgen : forall fv b a x o k,
             parseFilters mode fv = b ++ [x] :: a ->
             filter_items mode log b [] 0 = (o, OK k) ->
             filterLog loads file fv mode = (o, Raise IndexError)).
  { intros fv b a x o k Hp Hb. unfold filterLog. rewrite Hread, Hp.
    cbn [filter_lines]. unfold filter_line. rewrite Hl.
    rewrite filter_items_app, Hb. cbn [filter_items].
    now rewrite filter_item_without_value. }
  split; [apply Hgen|]. split.
  - intros H1 H2. apply (Hgen c [] [] c [] 0%nat); [|reflexivity].
    unfold parseFilters. rewrite (split_no_char "," c H2). cbn [map app].
    now rewrite (split_no_char "=" c H1).
  - now apply (Hgen EmptyString [] [] EmptyString [] 0%nat).
Qed.

Lemma condition_without_equals_raises_IndexError_witness :
  filterLog json_loads (unlines [notice_line]) "severity=NOTICE,severity" "include"
  = ([Encoded notice_record], Raise IndexError).
Proof.
  refine (proj1 (condition_without_equals_raises_IndexError
                   json_loads "include" (unlines [notice_line])
                   "severity=NOTICE,severity" (notice_line ++ nl)%string []
                   notice_record [["severity"; "NOTICE"]] [] "severity"
                   [Encoded notice_record] 0%nat _ _) _ _);
    vm_compute; reflexivity.
Defined.

Lemma filter_item_first_two (mode : string) (log : json) (p v : string)
    (more : list string) (out : sink) (n : nat) :
  filter_item mode log (p :: v :: more) out n
  = filter_item mode log [p; strip v] out n.
Proof.
  unfold filter_item. cbn [list_index nth_error bind].
  now rewrite strip_idempotent.
Qed.

Lemma filter_lines_first_two (loads : string -> option json) (mode p v : string)
    (more : list string) (lines : list string) (out : sink) :
  filter_lines loads mode [p :: v :: more] lines out
  = filter_lines loads mode [[p; strip v]] lines out.
Proof.
  revert out. induction lines as [|line lines IH]; intro out; [reflexivity|].
  cbn [filter_lines]. unfold filter_line.
  destruct (loads line) as [log|]; [|reflexivity].
  cbn [filter_items List.length]. rewrite filter_item_first_two.
  destruct (filter_item mode log [p; strip v] out 0) as [[o k]|e]; [|reflexivity].
  destruct (is_exclude mode && Nat.eqb k 1); apply IH.
Qed.

(** X10. Of a condition only the text before the first equals sign and
    the text between the first and the second count, and the second is
    trimmed: what follows a second equals sign is dropped without notice, and
    spaces around the expected value make no difference. *)
Theorem value_is_cut_at_equals_and_trimmed :
  forall (loads : string -> option json) (file mode p v w : string),
    no_char "=" p = true -> no_char "," p = true ->
    no_char "=" v = true -> no_char "," v = true ->
    no_char "," w = true ->
    filterLog loads file (p ++ "=" ++ v ++ "=" ++ w) mode
    = filterLog loads file (p ++ "=" ++ strip v) mode /\
    filterLog loads file (p ++ "=" ++ v) mode
    = filterLog loads file (p ++ "=" ++ strip v) mode.
Proof.
  intros loads file mode p v w Hp1 Hp2 Hv1 Hv2 Hw.
  assert (Hs1 : no_char "=" (strip v) = true) by now apply no_char_strip.
  assert (Hs2 : no_char "," (strip v) = true) by now apply no_char_strip.
  assert (E3 : parseFilters mode (p ++ "=" ++ strip v) = [[p; strip v]]).
  { unfold parseFilters. rewrite split_no_char
      by (rewrite no_char_app, Hp2; cbn [no_char append]; now rewrite Hs2).
    cbn [map]. change (p ++ "=" ++ strip v)%string with (p ++ String "=" (strip v))%string.
    now rewrite split_app_sep, split_no_char. }
  assert (E2 : parseFilters mode (p ++ "=" ++ v) = [[p; v]]).
  { unfold parseFilters. rewrite split_no_char
      by (rewrite no_char_app, Hp2; cbn [no_char append]; now rewrite Hv2).
    cbn [map]. change (p ++ "=" ++ v)%string with (p ++ String "=" v)%string.
    now rewrite split_app_sep, split_no_char. }
  assert (E1 : parseFilters mode (p ++ "=" ++ v ++ "=" ++ w)
               = [p :: v :: split "=" w]).
  { unfold parseFilters. rewrite split_no_char.
    - cbn [map].
      change (p ++ "=" ++ v ++ "=" ++ w)%string
        with (p ++ String "=" (v ++ String "=" w))%string.
      now rewrite !split_app_sep.
    - rewrite no_char_app, Hp2. cbn [no_char append].
      rewrite no_char_app, Hv2. cbn [no_char append]. now rewrite Hw. }
  unfold filterLog. rewrite E1, E2, E3. split; apply filter_lines_first_two.
Qed.

Lemma value_is_cut_at_equals_and_trimmed_witness :
  filterLog json_loads (unlines [notice_line]) "severity= NOTICE =x" "include"
  = ([Encoded notice_record], OK tt).
Proof.
  change "severity= NOTICE =x"
    with ("severity" ++ "=" ++ " NOTICE " ++ "=" ++ "x")%string.
  rewrite (proj1 (value_is_cut_at_equals_and_trimmed
                    json_loads (unlines [notice_line]) "include"
                    "severity" " NOTICE " "x"
                    eq_refl eq_refl eq_refl eq_refl eq_refl)).
  vm_compute. reflexivity.
Defined.

(** ** Runs of the exclude mode *)

Lemma exclude_lines_complete (loads : string -> option json)
    (filterList : list (list string)) (lines : list string) (out : sink) :
  Forall (fun line => exists log,
              loads line = Some log /\
              Forall (fun item => exists b, exclude_outcome log item = OK b)
                     filterList) lines ->
  filter_lines loads "exclude" filterList lines out
  = (out ++ flat_map (exclude_writes loads filterList) lines, OK tt).
Proof.
  intro H. revert out.
  induction H as [|line lines [log [Hl He]] Hlines IH]; intro out;
    cbn [filter_lines flat_map].
  - now rewrite app_nil_r.
  - rewrite (exclude_is_unanimous loads filterList line log out Hl He).
    unfold exclude_writes at 1. rewrite Hl.
    destruct (forallb (condition_mismatches log) filterList);
      rewrite IH; unfold writeOutput; now rewrite <- ?app_assoc.
Qed.

Lemma exclude_writes_bound (loads : string -> option json)
    (filterList : list (list string)) (lines : list string) :
  (List.length (flat_map (exclude_writes loads filterList) lines)
   <= List.length lines)%nat.
Proof.
  induction lines as [|line lines IH]; cbn [flat_map List.length]; [lia|].
  rewrite length_app. unfold exclude_writes at 1.
  destruct (loads line) as [log|]; cbn [List.length]; [|lia].
  destruct (forallb (condition_mismatches log) filterList); cbn [List.length]; lia.
Qed.

(** X11. An [exclude] run in which every line decodes and no condition
    raises writes, in input order, the records against which every condition
    counts, each of them once: the output never holds more records than the
    input has lines. *)
Theorem exclude_writes_each_record_at_most_once :
  forall (loads : string -> option json) (file filterVal : string),
    Forall (fun line => exists log,
                loads line = Some log /\
                Forall (fun item => exists b, exclude_outcome log item = OK b)
                       (parseFilters "exclude" filterVal))
           (readlines file) ->
    filterLog loads file filterVal "exclude"
    = (flat_map (exclude_writes loads (parseFilters "exclude" filterVal))
                (readlines file), OK tt) /\
    (List.length (fst (filterLog loads file filterVal "exclude"))
     <= List.length (readlines file))%nat.
Proof.
  intros loads file filterVal H.
  assert (E : filterLog loads file filterVal "exclude"
              = (flat_map (exclude_writes loads (parseFilters "exclude" filterVal))
                          (readlines file), OK tt)).
  { unfold filterLog. now rewrite exclude_lines_complete. }
  split; [exact E|]. rewrite E. apply exclude_writes_bound.
Qed.

Lemma exclude_writes_each_record_at_most_once_witness :
  filterLog json_loads (unlines [notice_line; notice_line])
            "severity=ERROR,timestamp=x,nokey=1" "exclude"
  = ([Encoded notice_record; Encoded notice_record], OK tt).
Proof.
  refine (proj1 (exclude_writes_each_record_at_most_once
                   json_loads (unlines [notice_line; notice_line])
                   "severity=ERROR,timestamp=x,nokey=1" _)).
  match goal with
  | |- Forall _ ?l => let l' := eval vm_compute in l in change l with l'
  end.
  repeat constructor; exists notice_record; split;
    try (vm_compute; reflexivity);
    match goal with
    | |- Forall _ ?l => let l' := eval vm_compute in l in change l with l'
    end;
    repeat constructor; eexists; vm_compute; reflexivity.
Defined.

(** ** Whole runs of the extractors *)

Section WindowRuns.

Variable loads : string -> option json.
Variable strptime : string -> string -> option datetime.

Lemma window_lines_records (a b : datetime) (lines : list string)
    (recs : list (json * datetime)) (out : sink) :
  Forall2 (reads_as loads strptime) lines recs ->
  window_lines loads strptime a b lines out
  = (out ++ window_records a b recs, OK tt).
Proof.
  intro H. revert out. unfold window_records.
  induction H as [|line r lines recs [s [Hl [Hs Ht]]] Hrest IH]; intro out;
    cbn [window_lines filter map].
  - now rewrite app_nil_r.
  - rewrite (window_line_parsed loads strptime a b line (fst r) s (snd r) Hl Hs Ht).
    destruct (in_window a b (snd r)); rewrite IH; [|reflexivity].
    unfold writeOutput. cbn [map]. now rewrite <- app_assoc.
Qed.

Lemma window_lines_shift (a b : datetime) (lines : list string) (out : sink) :
  window_lines loads strptime a b lines out
  = (out ++ fst (window_lines loads strptime a b lines []),
     snd (window_lines loads strptime a b lines [])).
Proof.
  revert out. induction lines as [|line lines IH]; intro out; cbn [window_lines].
  - cbn. now rewrite app_nil_r.
  - destruct (window_line loads strptime a b line) as [[log|]|e].
    + rewrite IH. rewrite (IH (writeOutput (Encoded log) [])).
      cbn [fst snd]. unfold writeOutput. now rewrite <- app_assoc.
    + apply IH.
    + cbn. now rewrite app_nil_r.
Qed.

Lemma window_line_selected (a b : datetime) (line : string) (log : json) :
  window_line loads strptime a b line = OK (Some log) ->
  exists t, in_window a b t = true.
Proof.
  unfold window_line. destruct (loads line) as [v|]; [|discriminate].
  destruct (subscript v "timestamp") as [ts|]; [|discriminate]. cbn [bind].
  destruct (timestamp_text ts) as [s|]; [|discriminate]. cbn [bind].
  destruct (strptime s fmt_T) as [t|]; [|discriminate].
  destruct (in_window a b t) eqn:E; [|discriminate].
  intros _. now exists t.
Qed.

Lemma window_lines_inverted (a b : datetime) (lines : list string) (out : sink) :
  b < a -> fst (window_lines loads strptime a b lines out) = out.
Proof.
  intro Hab. revert out. induction lines as [|line lines IH]; intro out;
    cbn [window_lines]; [reflexivity|].
  destruct (window_line loads strptime a b line) as [[log|]|e] eqn:E.
  - apply window_line_selected in E as [t Ht].
    apply in_window_spec in Ht. lia.
  - apply IH.
  - reflexivity.
Qed.

End WindowRuns.

Lemma getTimeDeltas_ok (c size a b : Z) :
  getTimeDeltas c size = OK (a, b) ->
  a = c - size * (30 * us_per_second) /\ b = c + size * (30 * us_per_second).
Proof.
  unfold getTimeDeltas, timedelta_half_minutes, datetime_sub, datetime_add.
  set (d := size * (30 * us_per_second)).
  destruct ((timedelta_min <=? d) && (d <=? timedelta_max)); [|discriminate].
  cbn [bind].
  destruct ((datetime_min <=? c + - d) && (c + - d <=? datetime_max));
    [|discriminate].
  cbn [bind].
  destruct ((datetime_min <=? c + d) && (c + d <=? datetime_max));
    [|discriminate].
  cbn [bind]. intro H. inversion H. lia.
Qed.

(** X12. A window whose end lies before its start selects nothing:
    [timeslice] with a negative size and [timeframe] with a range written the
    wrong way round write no record, whatever the file holds (the file is
    still read, and a line in error still ends the run). *)
Theorem inverted_window_selects_nothing :
  forall (loads : string -> option json)
         (strptime : string -> string -> option datetime) (file : string),
    (forall (size : Z) (dateTimeString : string),
        size < 0 ->
        fst (timeslice loads strptime file size dateTimeString) = []) /\
    (forall (range : string) (a b : datetime),
        timeframe_window strptime range = OK (a, b) -> b < a ->
        fst (timeframe loads strptime file range) = []).
Proof.
  intros loads strptime file. split.
  - intros size dts Hsize. unfold timeslice.
    destruct (timeslice_window strptime size dts) as [[a b]|e] eqn:E;
      [|reflexivity].
    apply window_lines_inverted.
    unfold timeslice_window in E.
    destruct (convertTimeString strptime dts) as [c|]; [|discriminate].
    cbn [bind] in E. apply getTimeDeltas_ok in E. unfold us_per_second in E. lia.
  - intros range a b Hw Hab. unfold timeframe. rewrite Hw.
    now apply window_lines_inverted.
Qed.

Lemma inverted_window_selects_nothing_witness :
  timeframe json_loads py_strptime (unlines [notice_line])
            "2019-07-22 20:04:01 > 2019-07-22 20:05:01"
  = ([Encoded notice_record], OK tt) /\
  fst (timeframe json_loads py_strptime (unlines [notice_line])
                 "2019-07-22 20:05:01 > 2019-07-22 20:04:01") = [] /\
  fst (timeslice json_loads py_strptime (unlines [notice_line])
                 (-1) "2019-07-22 20:04:31") = [].
Proof.
  split; [vm_compute; reflexivity|]. split.
  - refine (proj2 (inverted_window_selects_nothing json_loads py_strptime
                     (unlines [notice_line]))
                  "2019-07-22 20:05:01 > 2019-07-22 20:04:01"
                  63699422701000000 63699422641000000 _ _);
      vm_compute; reflexivity.
  - refine (proj1 (inverted_window_selects_nothing json_loads py_strptime
                     (unlines [notice_line])) (-1) "2019-07-22 20:04:31" _).
    reflexivity.
Defined.

(** X13. On a file in which every line decodes and every timestamp parses,
    [timeslice] and [timeframe] write the records of the window in the order
    of the file, each once for every line that holds it: nothing is sorted
    by time and nothing is dropped as a duplicate. *)
Theorem extraction_keeps_the_order_of_the_file :
  forall (loads : string -> option json)
         (strptime : string -> string -> option datetime) (file : string)
         (recs : list (json * datetime)) (a b : datetime),
    Forall2 (reads_as loads strptime) (readlines file) recs ->
    (forall (size : Z) (dateTimeString : string),
        timeslice_window strptime size dateTimeString = OK (a, b) ->
        timeslice loads strptime file size dateTimeString
        = (window_records a b recs, OK tt)) /\
    (forall (range : string),
        timeframe_window strptime range = OK (a, b) ->
        timeframe loads strptime file range = (window_records a b recs, OK tt)).
Proof.
  intros loads strptime file recs a b H. split.
  - intros size dts Hw. unfold timeslice. rewrite Hw.
    now rewrite (window_lines_records loads strptime a b _ recs).
  - intros range Hw. unfold timeframe. rewrite Hw.
    now rewrite (window_lines_records loads strptime a b _ recs).
Qed.

Lemma extraction_keeps_the_order_of_the_file_witness :
  timeframe json_loads py_strptime
            (unlines [at_end_line; after_line; notice_line; before_line; notice_line])
            "2019-07-22 20:04:01 > 2019-07-22 20:05:01"
  = ([Encoded (decoded at_end_line); Encoded notice_record; Encoded notice_record],
     OK tt).
Proof.
  unshelve epose proof
    (proj2 (extraction_keeps_the_order_of_the_file json_loads py_strptime
              (unlines [at_end_line; after_line; notice_line; before_line; notice_line])
              [(decoded at_end_line, 63699422701000000);
               (decoded after_line, 63699422702000000);
               (notice_record, 63699422671000000);
               (decoded before_line, 63699422640000000);
               (notice_record, 63699422671000000)]
              63699422641000000 63699422701000000 _)
           "2019-07-22 20:04:01 > 2019-07-22 20:05:01" _) as H.
  - match goal with
    | |- Forall2 _ ?l _ => let l' := eval vm_compute in l in change l with l'
    end.
    repeat constructor.
    + exists "2019-07-22T20:05:01.999Z". vm_compute. auto.
    + exists "2019-07-22T20:05:02.000Z". vm_compute. auto.
    + exists "2019-07-22T20:04:31.000Z". vm_compute. auto.
    + exists "2019-07-22T20:04:00.999Z". vm_compute. auto.
    + exists "2019-07-22T20:04:31.000Z". vm_compute. auto.
  - vm_compute. reflexivity.
  - exact H.
Defined.

(** ** Extraction from the output of a run *)

Lemma file_text_encoded (dumps : json -> string) (logs : list json) :
  file_text dumps (map Encoded logs) = unlines (map dumps logs).
Proof. unfold file_text, unlines. now rewrite !map_map. Qed.

Lemma filter_and {A : Type} (f g : A -> bool) (l : list A) :
  filter g (filter f l) = filter (fun x => f x && g x) l.
Proof.
  induction l as [|x l IH]; [reflexivity|]. cbn [filter].
  destruct (f x); cbn [filter andb]; [destruct (g x)|]; now rewrite IH.
Qed.

Lemma filter_twice {A : Type} (f : A -> bool) (l : list A) :
  filter f (filter f l) = filter f l.
Proof.
  rewrite filter_and. apply filter_ext. intro x. now destruct (f x).
Qed.

Lemma written_records_read_back (loads : string -> option json)
    (strptime : string -> string -> option datetime) (dumps : json -> string)
    (lines : list string) (recs : list (json * datetime)) (f : json * datetime -> bool) :
  Forall2 (reads_as loads strptime) lines recs ->
  Forall (fun r => round_trips loads dumps (fst r)) recs ->
  Forall2 (reads_as loads strptime)
          (readlines (file_text dumps (map (fun r => Encoded (fst r)) (filter f recs))))
          (filter f recs).
Proof.
  intros H R.
  rewrite <- (map_map fst Encoded), file_text_encoded, readlines_unlines.
  - rewrite !map_map.
    induction H as [|line r lines recs [s [_ [Hs Ht]]] Hrest IH];
      cbn [filter map]; [constructor|].
    inversion R as [|? ? [Hr _] R']; subst.
    destruct (f r); [|now apply IH].
    cbn [map]. constructor; [|now apply IH].
    exists s. auto.
  - rewrite Forall_map. clear H. induction R as [|r recs [_ Hn] R IH];
      cbn [filter]; [constructor|].
    destruct (f r); [constructor|]; auto.
Qed.

(** X14. Extractions compose through the file: when the serializer's lines
    decode back to the records they encode, a [timeslice] over the output of a
    [timeframe] writes exactly the records of the input that lie in both
    windows, in the order of the input, and running the same [timeframe] on
    its own output writes that output again. *)
Theorem extraction_of_an_extraction :
  forall (loads : string -> option json)
         (strptime : string -> string -> option datetime)
         (dumps : json -> string) (file : string) (recs : list (json * datetime))
         (range : string) (size : Z) (dateTimeString : string)
         (a b c d : datetime),
    Forall2 (reads_as loads strptime) (readlines file) recs ->
    Forall (fun r => round_trips loads dumps (fst r)) recs ->
    timeframe_window strptime range = OK (a, b) ->
    timeslice_window strptime size dateTimeString = OK (c, d) ->
    timeslice loads strptime
              (file_text dumps (fst (timeframe loads strptime file range)))
              size dateTimeString
    = (map (fun r => Encoded (fst r))
           (filter (fun r => in_window a b (snd r) && in_window c d (snd r)) recs),
       OK tt) /\
    timeframe loads strptime
              (file_text dumps (fst (timeframe loads strptime file range))) range
    = timeframe loads strptime file range.
Proof.
  intros loads strptime dumps file recs range size dts a b c d H R Hf Hs.
  assert (E : timeframe loads strptime file range
              = (window_records a b recs, OK tt)).
  { unfold timeframe. rewrite Hf.
    now rewrite (window_lines_records loads strptime a b _ recs). }
  rewrite E. cbn [fst]. unfold window_records.
  pose proof (written_records_read_back loads strptime dumps _ recs
                (fun r => in_window a b (snd r)) H R) as H'.
  split.
  - unfold timeslice. rewrite Hs.
    rewrite (window_lines_records loads strptime c d _ _ [] H').
    unfold window_records. now rewrite filter_and.
  - unfold timeframe. rewrite Hf.
    rewrite (window_lines_records loads strptime a b _ _ [] H').
    unfold window_records. now rewrite filter_twice.
Qed.

Lemma extraction_of_an_extraction_witness :
  timeslice json_loads py_strptime
            (file_text json_dumps
               (fst (timeframe json_loads py_strptime
                       (unlines [at_end_line; notice_line; before_line])
                       "2019-07-22 20:04:01 > 2019-07-22 20:05:01")))
            1 "2019-07-22 20:04:01"
  = ([Encoded notice_record], OK tt) /\
  timeframe json_loads py_strptime
            (file_text json_dumps
               (fst (timeframe json_loads py_strptime
                       (unlines [at_end_line; notice_line; before_line])
                       "2019-07-22 20:04:01 > 2019-07-22 20:05:01")))
            "2019-07-22 20:04:01 > 2019-07-22 20:05:01"
  = timeframe json_loads py_strptime
              (unlines [at_end_line; notice_line; before_line])
              "2019-07-22 20:04:01 > 2019-07-22 20:05:01".
Proof.
  unshelve epose proof
    (extraction_of_an_extraction json_loads py_strptime json_dumps
       (unlines [at_end_line; notice_line; before_line])
       [(decoded at_end_line, 63699422701000000);
        (notice_record, 63699422671000000);
        (decoded before_line, 63699422640000000)]
       "2019-07-22 20:04:01 > 2019-07-22 20:05:01" 1 "2019-07-22 20:04:01"
       63699422641000000 63699422701000000
       63699422611000000 63699422671000000 _ _ _ _) as H.
  - match goal with
    | |- Forall2 _ ?l _ => let l' := eval vm_compute in l in change l with l'
    end.
    repeat constructor.
    + exists "2019-07-22T20:05:01.999Z". vm_compute. auto.
    + exists "2019-07-22T20:04:31.000Z". vm_compute. auto.
    + exists "2019-07-22T20:04:00.999Z". vm_compute. auto.
  - repeat constructor; vm_compute; reflexivity.
  - vm_compute. reflexivity.
  - vm_compute. reflexivity.
  - exact H.
Defined.

(** ** The range of [timeframe] *)

(** X15. The range of [timeframe] is cut at the sign [>] and only its first
    two parts are read. A range without the sign ends the run before the file
    is opened: by [IndexError] when its text parses as the start (the handler
    is for [ValueError] only), by [SystemExit] when it does not. Whatever
    follows a second sign is ignored. *)
Theorem timeframe_reads_two_parts_of_the_range :
  forall (loads : string -> option json)
         (strptime : string -> string -> option datetime) (file : string),
    (forall (range : string),
        no_char ">" range = true ->
        timeframe loads strptime file range
        = ([], Raise (match strptime (strip range) fmt_space with
                      | Some _ => IndexError
                      | None => SystemExit
                      end))) /\
    (forall (first second more : string),
        no_char ">" first = true -> no_char ">" second = true ->
        timeframe loads strptime file
                  (first ++ String ">" (second ++ String ">" more))
        = timeframe loads strptime file (first ++ String ">" second)).
Proof.
  intros loads strptime file. split.
  - intros range H. unfold timeframe, timeframe_window.
    rewrite (split_no_char ">" range H).
    cbn [list_index nth_error bind]. unfold convertTimeString.
    now destruct (strptime (strip range) fmt_space).
  - intros x y z Hx Hy. unfold timeframe, timeframe_window.
    rewrite !(split_app_sep ">" x _ Hx), (split_app_sep ">" y _ Hy),
      (split_no_char ">" y Hy).
    reflexivity.
Qed.

Lemma timeframe_reads_two_parts_of_the_range_witness :
  timeframe json_loads py_strptime (unlines [notice_line]) "2019-07-22 20:04:01"
  = ([], Raise IndexError) /\
  timeframe json_loads py_strptime (unlines [notice_line])
            "2019-07-22 20:04:01 - 2019-07-22 20:05:01"
  = ([], Raise SystemExit) /\
  timeframe json_loads py_strptime (unlines [notice_line])
            "2019-07-22 20:04:01 > 2019-07-22 20:05:01 > 2019-07-22 20:04:02"
  = ([Encoded notice_record], OK tt).
Proof.
  pose proof (timeframe_reads_two_parts_of_the_range json_loads py_strptime
                (unlines [notice_line])) as [H1 H2].
  split; [|split].
  - now rewrite (H1 "2019-07-22 20:04:01" eq_refl).
  - now rewrite (H1 "2019-07-22 20:04:01 - 2019-07-22 20:05:01" eq_refl).
  - change "2019-07-22 20:04:01 > 2019-07-22 20:05:01 > 2019-07-22 20:04:02"
      with ("2019-07-22 20:04:01 "
              ++ String ">" (" 2019-07-22 20:05:01 "
                               ++ String ">" " 2019-07-22 20:04:02"))%string.
    rewrite (H2 "2019-07-22 20:04:01 " " 2019-07-22 20:05:01 "
                " 2019-07-22 20:04:02" eq_refl eq_refl).
    vm_compute. reflexivity.
Defined.

(** ** Extraction from a merge *)

Lemma concat_empty_cons (c : string) (cs : list string) :
  String.concat EmptyString (c :: cs) = (c ++ String.concat EmptyString cs)%string.
Proof.
  destruct cs as [|d cs]; cbn [String.concat]; [|reflexivity].
  now rewrite append_nil_r.
Qed.

Lemma window_lines_concat (loads : string -> option json)
    (strptime : string -> string -> option datetime) (a b : datetime)
    (contents : list string) (outs : list sink) (out : sink) :
  Forall (fun c => terminated c = true) contents ->
  Forall2 (fun c o => window_lines loads strptime a b (readlines c) [] = (o, OK tt))
          contents outs ->
  window_lines loads strptime a b
               (readlines (String.concat EmptyString contents)) out
  = (out ++ List.concat outs, OK tt).
Proof.
  intros T H. revert out.
  induction H as [|c o cs os Hc Hrest IH]; intro out.
  - cbn. now rewrite app_nil_r.
  - inversion T as [|? ? Tc Tcs]; subst.
    rewrite concat_empty_cons, (readlines_app_terminated c _ Tc).
    rewrite window_lines_app, window_lines_shift, Hc. cbn [fst snd].
    rewrite (IH Tcs). cbn [List.concat]. now rewrite app_assoc.
Qed.

(** X16. Merging and extracting commute for files that end their last
    line: when each merged file ends with a newline and [timeframe] succeeds
    on each of them, [timeframe] over the merged file succeeds and writes the
    per-file outputs one after the other, in the order of the listing. *)
Theorem extraction_from_a_merge :
  forall (loads : string -> option json)
         (strptime : string -> string -> option datetime)
         (dumps : json -> string) (open_file : string -> option string)
         (fileList contents : list string) (outs : list sink) (range : string),
    fileList <> [] ->
    Forall2 (fun item c => open_file item = Some c) fileList contents ->
    Forall (fun c => terminated c = true) contents ->
    Forall2 (fun c o => timeframe loads strptime c range = (o, OK tt))
            contents outs ->
    timeframe loads strptime
              (file_text dumps (fst (mergeLogs open_file fileList true [])))
              range
    = (List.concat outs, OK tt).
Proof.
  intros loads strptime dumps open_file fileList contents outs range
         Hne Hopen Hterm Hruns.
  assert (E : mergeLogs open_file fileList true []
              = (map Verbatim contents, Merged)).
  { unfold mergeLogs. destruct fileList as [|x fl]; [congruence|].
    cbn [List.length Nat.eqb continuePrompt].
    now rewrite (merge_files_all open_file _ contents [] Hopen). }
  rewrite E. cbn [fst]. rewrite file_text_verbatim.
  unfold timeframe in *.
  destruct (timeframe_window strptime range) as [[a b]|e].
  - now rewrite (window_lines_concat loads strptime a b contents outs []).
  - destruct Hopen; [congruence|]. inversion Hruns; subst. discriminate.
Qed.

Lemma extraction_from_a_merge_witness :
  timeframe json_loads py_strptime
            (file_text json_dumps (fst (mergeLogs two_logs ["day1"; "day2"] true [])))
            "2019-07-22 20:04:01 > 2019-07-22 20:05:01"
  = ([Encoded notice_record; Encoded (decoded at_end_line)], OK tt).
Proof.
  refine (extraction_from_a_merge json_loads py_strptime json_dumps two_logs
            ["day1"; "day2"]
            [unlines [before_line; notice_line]; unlines [at_end_line; after_line]]
            [[Encoded notice_record]; [Encoded (decoded at_end_line)]]
            "2019-07-22 20:04:01 > 2019-07-22 20:05:01" _ _ _ _).
  - discriminate.
  - repeat constructor.
  - repeat constructor.
  - repeat constructor; vm_compute; reflexivity.
Defined.

(** ** The filter on its own output *)

Lemma flat_map_repeat_encoded (n : json -> nat) (logs : list json) :
  flat_map (fun log => repeat (Encoded log) (n log)) logs
  = map Encoded (flat_map (fun log => repeat log (n log)) logs).
Proof.
  induction logs as [|log logs IH]; [reflexivity|].
  cbn [flat_map]. now rewrite map_app, map_repeat, IH.
Qed.

Lemma Forall_repeat {A : Type} (Q : A -> Prop) (x : A) (n : nat) :
  Q x -> Forall Q (repeat x n).
Proof. intro H. induction n; cbn [repeat]; constructor; auto. Qed.

Lemma Forall_flat_map_repeat {A : Type} (Q : A -> Prop) (n : A -> nat)
    (l : list A) :
  Forall Q l -> Forall Q (flat_map (fun x => repeat x (n x)) l).
Proof.
  induction 1 as [|x l Hx Hl IH]; cbn [flat_map]; [constructor|].
  apply Forall_app. split; [now apply Forall_repeat | exact IH].
Qed.

Lemma concat_repeat_repeat {A : Type} (x : A) (k n : nat) :
  List.concat (repeat (repeat x k) n) = repeat x (n * k).
Proof.
  induction n as [|n IH]; [reflexivity|].
  cbn [repeat List.concat Nat.mul]. now rewrite IH, repeat_app.
Qed.

Lemma flat_map_of_repeats {A B : Type} (g : A -> list B) (n : A -> nat)
    (l : list A) :
  flat_map g (flat_map (fun x => repeat x (n x)) l)
  = flat_map (fun x => List.concat (repeat (g x) (n x))) l.
Proof.
  induction l as [|x l IH]; [reflexivity|].
  cbn [flat_map]. rewrite flat_map_app, IH. f_equal.
  induction (n x) as [|m IHm]; [reflexivity|].
  cbn [repeat flat_map List.concat]. now rewrite IHm.
Qed.

Lemma Forall2_exists_right {A B : Type} (R : A -> B -> Prop) (Q : B -> Prop)
    (l1 : list A) (l2 : list B) :
  Forall2 R l1 l2 -> Forall Q l2 -> Forall (fun x => exists y, R x y /\ Q y) l1.
Proof.
  induction 1 as [|x y l1 l2 Hxy H IH]; intro HQ; constructor;
    inversion HQ; subst; eauto.
Qed.

Lemma Forall2_right {A B : Type} (R : A -> B -> Prop) (Q : B -> Prop)
    (l1 : list A) (l2 : list B) :
  Forall2 (fun x y => R x y /\ Q y) l1 l2 -> Forall2 R l1 l2 /\ Forall Q l2.
Proof.
  induction 1 as [|x y l1 l2 [Hxy Hy] H [IH1 IH2]]; split; constructor; auto.
Qed.

Lemma records_read_back (loads : string -> option json) (dumps : json -> string)
    (logs : list json) :
  Forall (round_trips loads dumps) logs ->
  Forall2 (fun line log => loads line = Some log)
          (readlines (file_text dumps (map Encoded logs))) logs.
Proof.
  intro R. rewrite file_text_encoded, readlines_unlines.
  - rewrite map_map. induction R as [|log logs [Hl _] R IH]; constructor; auto.
  - rewrite Forall_map. induction R as [|log logs [_ Hn] R IH]; constructor; auto.
Qed.

Lemma include_writes_of_records (loads : string -> option json)
    (filterList : list (list string)) (lines : list string) (logs : list json) :
  Forall2 (fun line log => loads line = Some log) lines logs ->
  flat_map (include_writes loads filterList) lines
  = flat_map (fun log => repeat (Encoded log) (matches_count log filterList)) logs.
Proof.
  induction 1 as [|line log lines logs Hl H IH]; [reflexivity|].
  cbn [flat_map]. unfold include_writes at 1. now rewrite Hl, IH.
Qed.

Lemma exclude_writes_of_records (loads : string -> option json)
    (filterList : list (list string)) (lines : list string) (logs : list json) :
  Forall2 (fun line log => loads line = Some log) lines logs ->
  flat_map (exclude_writes loads filterList) lines
  = flat_map (fun log => repeat (Encoded log) (kept log filterList)) logs.
Proof.
  induction 1 as [|line log lines logs Hl H IH]; [reflexivity|].
  cbn [flat_map]. unfold exclude_writes at 1, kept at 1. rewrite Hl, IH.
  now destruct (forallb (condition_mismatches log) filterList).
Qed.

(** X17. [include] is not idempotent: run again with the same conditions
    on its own output, it writes a record that matches [m] of the conditions
    [m * m] times (the first run wrote it [m] times, and each copy matches [m]
    times again), in the order of the input. *)
Theorem include_on_its_own_output_squares_the_copies :
  forall (loads : string -> option json) (dumps : json -> string)
         (file filterVal : string) (logs : list json),
    Forall2 (fun line log =>
               (loads line = Some log /\
                evaluated log (parseFilters "include" filterVal)
                = parseFilters "include" filterVal) /\
               round_trips loads dumps log)
            (readlines file) logs ->
    filterLog loads
              (file_text dumps (fst (filterLog loads file filterVal "include")))
              filterVal "include"
    = (flat_map (fun log =>
                   repeat (Encoded log)
                          (matches_count log (parseFilters "include" filterVal)
                           * matches_count log (parseFilters "include" filterVal)))
                logs,
       OK tt).
Proof.
  intros loads dumps file filterVal logs H.
  set (fl := parseFilters "include" filterVal) in *.
  apply Forall2_right in H as [H R].
  apply Forall2_right in H as [H E].
  assert (E1 : filterLog loads file filterVal "include"
               = (map Encoded
                      (flat_map (fun log => repeat log (matches_count log fl)) logs),
                  OK tt)).
  { unfold filterLog. fold fl. rewrite include_lines_complete.
    - cbn [app]. now rewrite (include_writes_of_records loads fl _ logs H),
        flat_map_repeat_encoded.
    - eapply Forall_impl; [|exact (Forall2_exists_right _ _ _ _ H E)].
      cbn. intros line [log [Hl He]]. eauto. }
  rewrite E1. cbn [fst].
  set (L1 := flat_map (fun log => repeat log (matches_count log fl)) logs).
  assert (R1 : Forall (round_trips loads dumps) L1)
    by now apply Forall_flat_map_repeat.
  assert (F1 : Forall (fun log => evaluated log fl = fl) L1)
    by now apply Forall_flat_map_repeat.
  pose proof (records_read_back loads dumps L1 R1) as H1.
  unfold filterLog. fold fl. rewrite include_lines_complete.
  - cbn [app]. rewrite (include_writes_of_records loads fl _ L1 H1).
    unfold L1. rewrite flat_map_of_repeats. f_equal.
    apply flat_map_ext. intro log. apply concat_repeat_repeat.
  - eapply Forall_impl; [|exact (Forall2_exists_right _ _ _ _ H1 F1)].
    cbn. intros line [log [Hl He]]. eauto.
Qed.

Lemma include_on_its_own_output_squares_the_copies_witness :
  filterLog json_loads
            (file_text json_dumps
               (fst (filterLog json_loads (unlines [notice_line; info_line])
                               "severity=NOTICE,timestamp=2019-07-22T20:04:31.000Z,severity=INFO"
                               "include")))
            "severity=NOTICE,timestamp=2019-07-22T20:04:31.000Z,severity=INFO"
            "include"
  = ([Encoded notice_record; Encoded notice_record;
      Encoded notice_record; Encoded notice_record; Encoded (decoded info_line)],
     OK tt).
Proof.
  refine (include_on_its_own_output_squares_the_copies json_loads json_dumps
            (unlines [notice_line; info_line])
            "severity=NOTICE,timestamp=2019-07-22T20:04:31.000Z,severity=INFO"
            [notice_record; decoded info_line] _).
  match goal with
  | |- Forall2 _ ?l _ => let l' := eval vm_compute in l in change l with l'
  end.
  repeat constructor; vm_compute; reflexivity.
Defined.

(** X18. [exclude] is idempotent: run again with the same conditions on
    its own output, it writes that output again, when every condition
    evaluates on every record and the serializer's lines decode back to the
    records they encode. *)
Theorem exclude_on_its_own_output_changes_nothing :
  forall (loads : string -> option json) (dumps : json -> string)
         (file filterVal : string) (logs : list json),
    Forall2 (fun line log =>
               (loads line = Some log /\
                Forall (fun item => exists b, exclude_outcome log item = OK b)
                       (parseFilters "exclude" filterVal)) /\
               round_trips loads dumps log)
            (readlines file) logs ->
    filterLog loads file filterVal "exclude"
    = (flat_map (fun log =>
                   repeat (Encoded log) (kept log (parseFilters "exclude" filterVal)))
                logs,
       OK tt) /\
    filterLog loads
              (file_text dumps (fst (filterLog loads file filterVal "exclude")))
              filterVal "exclude"
    = filterLog loads file filterVal "exclude".
Proof.
  intros loads dumps file filterVal logs H.
  set (fl := parseFilters "exclude" filterVal) in *.
  apply Forall2_right in H as [H R].
  apply Forall2_right in H as [H E].
  assert (E1 : filterLog loads file filterVal "exclude"
               = (map Encoded (flat_map (fun log => repeat log (kept log fl)) logs),
                  OK tt)).
  { unfold filterLog. fold fl. rewrite exclude_lines_complete.
    - cbn [app]. now rewrite (exclude_writes_of_records loads fl _ logs H),
        flat_map_repeat_encoded.
    - eapply Forall_impl; [|exact (Forall2_exists_right _ _ _ _ H E)].
      cbn. intros line [log [Hl He]]. eauto. }
  split; [rewrite E1; f_equal; symmetry; apply flat_map_repeat_encoded|].
  rewrite E1. cbn [fst].
  set (L1 := flat_map (fun log => repeat log (kept log fl)) logs).
  assert (R1 : Forall (round_trips loads dumps) L1)
    by now apply Forall_flat_map_repeat.
  assert (F1 : Forall (fun log => Forall (fun item => exists b,
                                            exclude_outcome log item = OK b) fl) L1)
    by now apply Forall_flat_map_repeat.
  pose proof (records_read_back loads dumps L1 R1) as H1.
  unfold filterLog. fold fl. rewrite exclude_lines_complete.
  - cbn [app]. rewrite (exclude_writes_of_records loads fl _ L1 H1).
    unfold L1. rewrite flat_map_of_repeats, <- flat_map_repeat_encoded. f_equal.
    apply flat_map_ext. intro log. rewrite concat_repeat_repeat.
    unfold kept. now destruct (forallb (condition_mismatches log) fl).
  - eapply Forall_impl; [|exact (Forall2_exists_right _ _ _ _ H1 F1)].
    cbn. intros line [log [Hl He]]. eauto.
Qed.

Lemma exclude_on_its_own_output_changes_nothing_witness :
  filterLog json_loads (unlines [notice_line; info_line; status_line])
            "severity=NOTICE,status=200" "exclude"
  = ([Encoded (decoded info_line); Encoded (decoded status_line)], OK tt) /\
  filterLog json_loads
            (file_text json_dumps
               (fst (filterLog json_loads
                       (unlines [notice_line; info_line; status_line])
                       "severity=NOTICE,status=200" "exclude")))
            "severity=NOTICE,status=200" "exclude"
  = filterLog json_loads (unlines [notice_line; info_line; status_line])
              "severity=NOTICE,status=200" "exclude".
Proof.
  refine (exclude_on_its_own_output_changes_nothing json_loads json_dumps
            (unlines [notice_line; info_line; status_line])
            "severity=NOTICE,status=200"
            [notice_record; decoded info_line; decoded status_line] _).
  match goal with
  | |- Forall2 _ ?l _ => let l' := eval vm_compute in l in change l with l'
  end.
  repeat constructor; try (vm_compute; reflexivity);
    eexists; vm_compute; reflexivity.
Defined.

(** ** The data frame *)

Section FrameRows.

Variable loads : string -> option json.
Variable T : Type.
Variable pd_Timestamp : json -> result T.
Variable py_str : json -> string.

Lemma subscript_raises (v : json) (k : string) (e : exn) :
  subscript v k = Raise e -> e = KeyError \/ e = TypeError.
Proof.
  destruct v; cbn [subscript]; try (intro H; inversion H; now auto).
  destruct (dict_get k members); intro H; inversion H; auto.
Qed.

Lemma bind_subscript_raises {A : Type} (v : json) (k : string)
    (f : json -> result A) (e : exn) :
  (forall x e1, f x = Raise e1 -> e1 = KeyError \/ e1 = TypeError) ->
  bind (subscript v k) f = Raise e -> e = KeyError \/ e = TypeError.
Proof.
  intro Hf. destruct (subscript v k) as [x|e0] eqn:S; cbn [bind].
  - apply Hf.
  - intro H. inversion H; subst. now apply subscript_raises in S.
Qed.

Lemma text_cell_raises (r : result (cell T)) (e : exn) :
  (forall e1, r = Raise e1 -> e1 = KeyError \/ e1 = TypeError) ->
  or_no_value T r = Raise e -> e = TypeError.
Proof.
  intros Hr H. destruct r as [c|e0]; [discriminate|].
  destruct (Hr e0 eq_refl) as [-> | ->]; cbn [or_no_value] in H;
    [discriminate | now inversion H].
Qed.

Lemma stamp_cell_raises (log : json) (e : exn) :
  or_no_value T (ts <- subscript log "timestamp" ;;
                 t <- pd_Timestamp ts ;; OK (Stamp t)) = Raise e ->
  e <> KeyError /\ (e = TypeError \/ exists ts, pd_Timestamp ts = Raise e).
Proof.
  destruct (subscript log "timestamp") as [ts|e0] eqn:S; cbn [bind].
  - destruct (pd_Timestamp ts) as [t|e1] eqn:P; cbn [bind or_no_value];
      [discriminate|].
    destruct e1; intro H; inversion H; subst;
      (split; [discriminate | right; now exists ts]).
  - apply subscript_raises in S as [-> | ->]; cbn [or_no_value]; intro H;
      inversion H. split; [discriminate | now left].
Qed.

Lemma pdFrame_row_raises (log : json) (e : exn) :
  pdFrame_row T pd_Timestamp py_str log = Raise e ->
  e <> KeyError /\ (e = TypeError \/ exists ts, pd_Timestamp ts = Raise e).
Proof.
  unfold pdFrame_row.
  destruct (or_no_value T (ts <- subscript log "timestamp" ;;
                           t <- pd_Timestamp ts ;; OK (Stamp t)))
    as [c1|e1] eqn:B1; cbn [bind].
  2:{ intro H. inversion H; subst. now apply stamp_cell_raises in B1. }
  assert (Htext : forall r : result (cell T),
             (forall e1, r = Raise e1 -> e1 = KeyError \/ e1 = TypeError) ->
             forall e1, or_no_value T r = Raise e1 ->
                        e1 <> KeyError /\
                        (e1 = TypeError \/ exists ts, pd_Timestamp ts = Raise e1)).
  { intros r Hr e1 H. apply text_cell_raises in H; [|exact Hr].
    subst. split; [discriminate | now left]. }
  match goal with
  | |- bind (or_no_value T ?r) _ = _ -> _ =>
      destruct (or_no_value T r) as [c2|e2] eqn:B2
  end; cbn [bind].
  2:{ intro H. inversion H; subst. apply Htext in B2; [exact B2|].
      intros e1. apply bind_subscript_raises. intros x e2.
      apply bind_subscript_raises. intros; discriminate. }
  match goal with
  | |- bind (or_no_value T ?r) _ = _ -> _ =>
      destruct (or_no_value T r) as [c3|e3] eqn:B3
  end; cbn [bind].
  2:{ intro H. inversion H; subst. apply Htext in B3; [exact B3|].
      intros e1. apply bind_subscript_raises. intros; discriminate. }
  match goal with
  | |- bind (or_no_value T ?r) _ = _ -> _ =>
      destruct (or_no_value T r) as [c4|e4] eqn:B4
  end; cbn [bind]; [discriminate|].
  intro H. inversion H; subst. apply Htext in B4; [exact B4|].
  intros e1. apply bind_subscript_raises. intros x e2.
  apply bind_subscript_raises. intros y e3.
  apply bind_subscript_raises. intros; discriminate.
Qed.

Lemma pdFrame_row_length (log : json) (row : list (cell T)) :
  pdFrame_row T pd_Timestamp py_str log = OK row -> List.length row = 4%nat.
Proof.
  unfold pdFrame_row.
  repeat match goal with
         | |- bind (or_no_value T ?r) _ = _ -> _ =>
             destruct (or_no_value T r); cbn [bind]; [|discriminate]
         end.
  intro H. now inversion H.
Qed.

Lemma pdFrame_lines_raises (lines : list string) (data : list (list (cell T)))
    (e : exn) :
  pdFrame_lines loads T pd_Timestamp py_str lines data = Raise e ->
  e <> KeyError /\
  (e = JSONDecodeError \/ e = TypeError \/ exists ts, pd_Timestamp ts = Raise e).
Proof.
  revert data. induction lines as [|line lines IH]; intro data;
    cbn [pdFrame_lines]; [discriminate|].
  destruct (loads line) as [log|].
  - destruct (pdFrame_row T pd_Timestamp py_str log) as [row|e0] eqn:R;
      cbn [bind]; [apply IH|].
    intro H. inversion H; subst. apply pdFrame_row_raises in R as [R1 R2].
    tauto.
  - intro H. inversion H. split; [discriminate | now left].
Qed.

Lemma pdFrame_lines_rows (lines : list string) (data rows : list (list (cell T))) :
  pdFrame_lines loads T pd_Timestamp py_str lines data = OK rows ->
  exists added,
    rows = data ++ added /\
    Forall2 (fun line row =>
               exists log, loads line = Some log /\
                           pdFrame_row T pd_Timestamp py_str log = OK row)
            lines added.
Proof.
  revert data. induction lines as [|line lines IH]; intro data;
    cbn [pdFrame_lines].
  - intro H. inversion H. exists []. now rewrite app_nil_r.
  - destruct (loads line) as [log|] eqn:L; [|discriminate].
    destruct (pdFrame_row T pd_Timestamp py_str log) as [row|e0] eqn:R;
      cbn [bind]; [|discriminate].
    intro H. apply IH in H as [added [-> F]].
    exists (row :: added). split; [now rewrite <- app_assoc|].
    constructor; [now exists log | exact F].
Qed.

End FrameRows.

(** X19. The data frame of the statistics has one row for every line of
    the file, in the order of the file, each row made of four cells from the
    record of its line; so [statistics_len] is the number of lines. No line is
    skipped or merged, and a line without any of the fields still gives a
    row. *)
Theorem frame_has_a_row_for_every_line :
  forall (loads : string -> option json) (T : Type)
         (pd_Timestamp : json -> result T) (py_str : json -> string)
         (file : string) (rows : list (list (cell T))),
    pdFrame loads T pd_Timestamp py_str file = OK rows ->
    Forall2 (fun line row =>
               exists log, loads line = Some log /\
                           pdFrame_row T pd_Timestamp py_str log = OK row)
            (readlines file) rows /\
    statistics_len T rows = List.length (readlines file) /\
    Forall (fun row => List.length row = 4%nat) rows.
Proof.
  intros loads T pdT str file rows H. unfold pdFrame in H.
  apply pdFrame_lines_rows in H as [added [-> F]]. cbn [app].
  split; [exact F|]. split.
  - unfold statistics_len. symmetry. exact (Forall2_length F).
  - induction F as [|line row lines added [log [_ R]] F IH]; constructor; auto.
    now apply pdFrame_row_length in R.
Qed.

Lemma frame_has_a_row_for_every_line_witness :
  statistics_len datetime
    [[Stamp 63699422671000000; Text "gce_instance"; Text "NOTICE"; Text "a@b.c"];
     [Text "no value"; Text "no value"; Text "no value"; Text "no value"];
     [Stamp 63699422671000000; Text "no value"; Text "NOTICE"; Text "no value"]]
  = List.length (readlines (unlines [audit_line; empty_record_line; notice_line])).
Proof.
  refine (proj1 (proj2 (frame_has_a_row_for_every_line
                          json_loads datetime stamp_of_text text_of
                          (unlines [audit_line; empty_record_line; notice_line])
                          _ _))).
  vm_compute. reflexivity.
Defined.

(** X20. Building the data frame never ends in [KeyError]: a missing field
    puts ['no value'] in its cell (a record with none of the four fields gives
    four such cells), and a run that ends in an exception ends in the decoder's
    error, in the [TypeError] of subscripting a value that is not a mapping, or
    in an error other than [KeyError] raised by [pd.Timestamp]. *)
Theorem frame_fills_missing_fields :
  forall (loads : string -> option json) (T : Type)
         (pd_Timestamp : json -> result T) (py_str : json -> string),
    (forall (file : string) (e : exn),
        pdFrame loads T pd_Timestamp py_str file = Raise e ->
        e <> KeyError /\
        (e = JSONDecodeError \/ e = TypeError \/
         exists ts, pd_Timestamp ts = Raise e)) /\
    (forall (members : list (string * json)),
        dict_get "timestamp" members = None ->
        dict_get "resource" members = None ->
        dict_get "severity" members = None ->
        dict_get "protoPayload" members = None ->
        pdFrame_row T pd_Timestamp py_str (JObj members)
        = OK [Text "no value"; Text "no value"; Text "no value"; Text "no value"]) /\
    (forall (members : list (string * json)) (resource : json),
        dict_get "timestamp" members = None ->
        dict_get "resource" members = Some resource ->
        (forall ms, resource <> JObj ms) ->
        pdFrame_row T pd_Timestamp py_str (JObj members) = Raise TypeError).
Proof.
  intros loads T pdT str. split; [|split].
  - intros file e. apply pdFrame_lines_raises.
  - intros members H1 H2 H3 H4. unfold pdFrame_row. cbn [subscript].
    now rewrite H1, H2, H3, H4.
  - intros members resource H1 H2 Hr. unfold pdFrame_row. cbn [subscript].
    rewrite H1, H2. cbn [bind or_no_value].
    destruct resource; try reflexivity. now destruct (Hr members0).
Qed.

Lemma frame_fills_missing_fields_witness :
  pdFrame json_loads datetime stamp_of_text text_of
          (unlines [status_line; q "{'resource':'gce_instance'}"; audit_line])
  = Raise TypeError /\
  pdFrame_row datetime stamp_of_text text_of (decoded status_line)
  = OK [Text "no value"; Text "no value"; Text "no value"; Text "no value"].
Proof.
  pose proof (frame_fills_missing_fields json_loads datetime stamp_of_text text_of)
    as [_ [H _]].
  split; [vm_compute; reflexivity|].
  exact (H [("status", JNum "200"); ("ok", JBool true)]
           eq_refl eq_refl eq_refl eq_refl).
Defined.

(** ** An output that already has content *)

Lemma filter_item_shift (mode : string) (log : json) (item : list string)
    (out : sink) (n : nat) :
  filter_item mode log item out n
  = match filter_item mode log item [] n with
    | OK (added, n') => OK (out ++ added, n')
    | Raise e => Raise e
    end.
Proof.
  unfold filter_item.
  destruct (list_index item 0) as [path|e]; [|reflexivity].
  destruct (list_index item 1) as [v|e]; [|reflexivity].
  cbn [bind].
  destruct (is_include mode), (is_exclude mode),
    (field_value log (split "." path)) as [[x|]|[]];
    cbn [bind]; rewrite ?app_nil_r; try reflexivity;
    try (destruct (py_eq x (strip v)); cbn [negb]; unfold writeOutput;
         rewrite ?app_nil_r; reflexivity);
    destruct (subscript log "insertId"); cbn [bind]; rewrite ?app_nil_r;
    reflexivity.
Qed.

Lemma filter_items_shift (mode : string) (log : json)
    (filterList : list (list string)) (out : sink) (n : nat) :
  filter_items mode log filterList out n
  = (out ++ fst (filter_items mode log filterList [] n),
     snd (filter_items mode log filterList [] n)).
Proof.
  revert out n. induction filterList as [|item rest IH]; intros out n;
    cbn [filter_items].
  - cbn. now rewrite app_nil_r.
  - rewrite filter_item_shift.
    destruct (filter_item mode log item [] n) as [[added n']|e].
    + rewrite IH, (IH added). cbn [fst snd]. now rewrite app_assoc.
    + cbn. now rewrite app_nil_r.
Qed.

Lemma filter_line_shift (loads : string -> option json) (mode : string)
    (filterList : list (list string)) (line : string) (out : sink) :
  filter_line loads mode filterList line out
  = (out ++ fst (filter_line loads mode filterList line []),
     snd (filter_line loads mode filterList line [])).
Proof.
  unfold filter_line. destruct (loads line) as [log|].
  - rewrite filter_items_shift.
    destruct (filter_items mode log filterList [] 0) as [added [k|e]];
      cbn [fst snd]; [|reflexivity].
    destruct (is_exclude mode && Nat.eqb k (List.length filterList));
      cbn [fst snd]; [|reflexivity].
    unfold writeOutput. now rewrite app_assoc.
  - cbn. now rewrite app_nil_r.
Qed.

Lemma filter_lines_shift (loads : string -> option json) (mode : string)
    (filterList : list (list string)) (lines : list string) (out : sink) :
  filter_lines loads mode filterList lines out
  = (out ++ fst (filter_lines loads mode filterList lines []),
     snd (filter_lines loads mode filterList lines [])).
Proof.
  revert out. induction lines as [|line lines IH]; intro out;
    cbn [filter_lines].
  - cbn. now rewrite app_nil_r.
  - rewrite filter_line_shift.
    destruct (filter_line loads mode filterList line []) as [added [u|e]];
      cbn [fst snd]; [|reflexivity].
    rewrite IH, (IH added). cbn [fst snd]. now rewrite app_assoc.
Qed.


Lemma gcloud_io_shift (l : string) (out o : sink) (line : string) :
  gcloud_io (l, out ++ o) line
  = (fst (gcloud_io (l, o) line), out ++ snd (gcloud_io (l, o) line)).
Proof.
  unfold gcloud_io.
  repeat match goal with
         | |- context [if ?b then _ else _] => destruct b
         end; cbn [fst snd]; unfold writeOutput; rewrite <- ?app_assoc;
    reflexivity.
Qed.

Lemma gcloud_io_fold_shift (lines : list string) (l : string) (out o : sink) :
  snd (fold_left gcloud_io lines (l, out ++ o))
  = out ++ snd (fold_left gcloud_io lines (l, o)).
Proof.
  revert l o. induction lines as [|line lines IH]; intros l o;
    cbn [fold_left]; [reflexivity|].
  rewrite gcloud_io_shift.
  destruct (gcloud_io (l, o) line) as [l' o']. cbn [fst snd]. apply IH.
Qed.


(** * The window rule and the include rule *)

Lemma take_app_length (a b : string) : take (String.length a) (a ++ b) = a.
Proof. induction a as [|c a IH]; cbn; [now destruct b | now rewrite IH]. Qed.

Lemma selected_window_records (a b : datetime) (recs : list (json * datetime)) :
  window_records a b recs = selected a b recs.
Proof. reflexivity. Qed.

Lemma timeslice_window_parsed (strptime : string -> string -> option datetime)
    (size : Z) (dateTimeString : string) (c : datetime) :
  strptime dateTimeString fmt_space = Some c ->
  datetime_min <= c - size * (30 * us_per_second) <= datetime_max ->
  datetime_min <= c + size * (30 * us_per_second) <= datetime_max ->
  timeslice_window strptime size dateTimeString
  = OK (c - size * (30 * us_per_second), c + size * (30 * us_per_second)).
Proof.
  intros Hc H1 H2. unfold timeslice_window, convertTimeString. rewrite Hc.
  cbn [bind]. now apply getTimeDeltas_in_range.
Qed.

Lemma timeframe_window_parsed (strptime : string -> string -> option datetime)
    (first second : string) (a b : datetime) :
  no_char ">" first = true -> no_char ">" second = true ->
  strptime (strip first) fmt_space = Some a ->
  strptime (strip second) fmt_space = Some b ->
  timeframe_window strptime (first ++ String ">" second) = OK (a, b).
Proof.
  intros H1 H2 Ha Hb. unfold timeframe_window.
  rewrite (split_app_sep ">" first second H1), (split_no_char ">" second H2).
  cbn [list_index nth_error bind]. unfold convertTimeString.
  rewrite Ha. cbn [bind]. now rewrite Hb.
Qed.

Lemma window_lines_prefix (loads : string -> option json)
    (strptime : string -> string -> option datetime) (a b : datetime)
    (pre post : list string) (recs : list (json * datetime)) :
  Forall2 (reads_as loads strptime) pre recs ->
  (exists more,
      fst (window_lines loads strptime a b (pre ++ post) [])
      = selected a b recs ++ more) /\
  (post = [] ->
   window_lines loads strptime a b (pre ++ post) [] = (selected a b recs, OK tt)).
Proof.
  intro H. rewrite window_lines_app.
  rewrite (window_lines_records loads strptime a b pre recs [] H).
  cbn [app]. rewrite selected_window_records. split.
  - apply window_lines_extends.
  - now intros ->.
Qed.

(** C5 (counterexample). With the end of the window at 20:05:01, a record
    stamped 20:05:01.000001, one microsecond after it, is written, by
    [timeslice] and by [timeframe]. *)
Lemma record_after_the_end_is_written :
  py_strptime "2019-07-22 20:05:01" fmt_space = Some 63699422701000000 /\
  timeslice_window py_strptime 1 "2019-07-22 20:04:31"
  = OK (63699422641000000, 63699422701000000) /\
  timeframe_window py_strptime "2019-07-22 20:04:01 > 2019-07-22 20:05:01"
  = OK (63699422641000000, 63699422701000000) /\
  subscript (decoded late_line) "timestamp" = OK (JStr "2019-07-22T20:05:01.000001Z") /\
  timeslice json_loads py_strptime (unlines [late_line]) 1 "2019-07-22 20:04:31"
  = ([Encoded (decoded late_line)], OK tt) /\
  timeframe json_loads py_strptime (unlines [late_line])
            "2019-07-22 20:04:01 > 2019-07-22 20:05:01"
  = ([Encoded (decoded late_line)], OK tt).
Proof. by_evaluation. Qed.

(** C5 (amended). For [timeslice] and for [timeframe], the time [t] of a
    record is read from the first 19 characters of its timestamp, whatever
    follows them, and the records of the lines read so far are written exactly
    when [start <= t <= end], both bounds included, in the order of the file:
    the output of the run begins with them, and is them when the file ends
    there.  The window of [timeslice] is the center less and plus half the
    size, that of [timeframe] the two times of the range. *)
Theorem window_selection_is_inclusive :
  forall (loads : string -> option json)
         (strptime : string -> string -> option datetime) (file : string)
         (pre post : list string) (recs : list (json * datetime)),
    readlines file = pre ++ post ->
    Forall2 (reads_as loads strptime) pre recs ->
    (forall (size : Z) (dateTimeString : string) (c : datetime),
        strptime dateTimeString fmt_space = Some c ->
        datetime_min <= c - size * (30 * us_per_second) <= datetime_max ->
        datetime_min <= c + size * (30 * us_per_second) <= datetime_max ->
        (exists more,
            fst (timeslice loads strptime file size dateTimeString)
            = selected (c - size * (30 * us_per_second))
                       (c + size * (30 * us_per_second)) recs ++ more) /\
        (post = [] ->
         timeslice loads strptime file size dateTimeString
         = (selected (c - size * (30 * us_per_second))
                     (c + size * (30 * us_per_second)) recs, OK tt))) /\
    (forall (first second : string) (a b : datetime),
        no_char ">" first = true -> no_char ">" second = true ->
        strptime (strip first) fmt_space = Some a ->
        strptime (strip second) fmt_space = Some b ->
        (exists more,
            fst (timeframe loads strptime file (first ++ String ">" second))
            = selected a b recs ++ more) /\
        (post = [] ->
         timeframe loads strptime file (first ++ String ">" second)
         = (selected a b recs, OK tt))) /\
    (forall (line : string) (log : json) (text rest : string) (t : datetime),
        loads line = Some log ->
        subscript log "timestamp" = OK (JStr (text ++ rest)) ->
        String.length text = 19%nat ->
        strptime text fmt_T = Some t ->
        reads_as loads strptime line (log, t)).
Proof.
  intros loads strptime file pre post recs Hread H. split; [|split].
  - intros size dts c Hc H1 H2. unfold timeslice.
    rewrite (timeslice_window_parsed strptime size dts c Hc H1 H2), Hread.
    now apply window_lines_prefix.
  - intros x y a b Hx Hy Ha Hb. unfold timeframe.
    rewrite (timeframe_window_parsed strptime x y a b Hx Hy Ha Hb), Hread.
    now apply window_lines_prefix.
  - intros line log text rest t Hl Hs Hlen Ht. exists (text ++ rest)%string.
    cbn [fst snd]. repeat split; auto.
    now rewrite <- Hlen, take_app_length.
Qed.

Lemma window_selection_is_inclusive_witness :
  timeslice json_loads py_strptime
            (unlines [before_line; at_start_line; notice_line; at_end_line; after_line])
            1 "2019-07-22 20:04:31"
  = ([Encoded (decoded at_start_line); Encoded notice_record;
      Encoded (decoded at_end_line)], OK tt) /\
  timeframe json_loads py_strptime
            (unlines [before_line; at_start_line; notice_line; at_end_line; after_line])
            "2019-07-22 20:04:01 > 2019-07-22 20:05:01"
  = ([Encoded (decoded at_start_line); Encoded notice_record;
      Encoded (decoded at_end_line)], OK tt).
Proof.
  unshelve epose proof
    (window_selection_is_inclusive json_loads py_strptime
       (unlines [before_line; at_start_line; notice_line; at_end_line; after_line])
       (readlines
          (unlines [before_line; at_start_line; notice_line; at_end_line; after_line]))
       []
       [(decoded before_line, 63699422640000000);
        (decoded at_start_line, 63699422641000000);
        (notice_record, 63699422671000000);
        (decoded at_end_line, 63699422701000000);
        (decoded after_line, 63699422702000000)] _ _) as H.
  - now rewrite app_nil_r.
  - match goal with
    | |- Forall2 _ ?l _ => let l' := eval vm_compute in l in change l with l'
    end.
    repeat constructor.
    + exists "2019-07-22T20:04:00.999Z". vm_compute. auto.
    + exists "2019-07-22T20:04:01.000Z". vm_compute. auto.
    + exists "2019-07-22T20:04:31.000Z". vm_compute. auto.
    + exists "2019-07-22T20:05:01.999Z". vm_compute. auto.
    + exists "2019-07-22T20:05:02.000Z". vm_compute. auto.
  - destruct H as [H1 [H2 _]]. split.
    + unshelve epose proof
        (H1 1 "2019-07-22 20:04:31" 63699422671000000 _ _ _) as [_ E];
        [vm_compute; reflexivity
        | unfold datetime_min, datetime_max, us_per_day, us_per_second; lia
        | unfold datetime_min, datetime_max, us_per_day, us_per_second; lia |].
      exact (E eq_refl).
    + change "2019-07-22 20:04:01 > 2019-07-22 20:05:01"
        with ("2019-07-22 20:04:01 " ++ String ">" " 2019-07-22 20:05:01")%string.
      unshelve epose proof
        (H2 "2019-07-22 20:04:01 " " 2019-07-22 20:05:01"
            63699422641000000 63699422701000000 _ _ _ _) as [_ E];
        [vm_compute; reflexivity .. |].
      exact (E eq_refl).
Defined.

(** ** The include rule *)

Lemma shallow_condition (item : list string) :
  shallow item = true ->
  exists path v more,
    item = path :: v :: more /\ (1 <= List.length (split "." path) <= 3)%nat.
Proof.
  destruct item as [|path [|v more]]; cbn [shallow]; try discriminate.
  intro H. apply Nat.leb_le in H. exists path, v, more. split; [reflexivity|].
  pose proof (split_nonempty "." path) as Hne.
  destruct (split "." path); [congruence | cbn [List.length] in *; lia].
Qed.

Lemma string_match_resolves (log : json) (path v : string) (more : list string) :
  string_match log (path :: v :: more) = true
  <-> resolve_path log (split "." path) = Some (JStr (strip v)).
Proof.
  cbn [string_match].
  destruct (resolve_path log (split "." path)) as [[| | |s| |]|];
    try (split; discriminate).
  rewrite String.eqb_eq. split; [now intros -> | now inversion 1].
Qed.

Lemma condition_matches_string (log : json) (item : list string) :
  shallow item = true -> condition_matches log item = string_match log item.
Proof.
  intro H. apply shallow_condition in H as (path & v & more & -> & Hlen).
  pose proof (condition_matches_shallow log path v more Hlen) as H1.
  pose proof (string_match_resolves log path v more) as H2.
  destruct (condition_matches log (path :: v :: more)),
    (string_match log (path :: v :: more)); try reflexivity.
  - symmetry. apply H2, H1. reflexivity.
  - apply H1, H2. reflexivity.
Qed.

Lemma matches_count_string (log : json) (filterList : list (list string)) :
  Forall (fun item => shallow item = true) filterList ->
  matches_count log filterList
  = List.length (filter (string_match log) filterList).
Proof.
  unfold matches_count. induction 1 as [|item rest Hi Hrest IH]; [reflexivity|].
  cbn [filter]. rewrite (condition_matches_string log item Hi).
  destruct (string_match log item); cbn [List.length]; now rewrite IH.
Qed.

Lemma evaluated_all (log : json) (filterList : list (list string)) :
  Forall (fun c => exists b, include_outcome log c = OK b) filterList ->
  evaluated log filterList = filterList.
Proof.
  induction 1 as [|item rest [b Hb] Hrest IH]; [reflexivity|].
  cbn [evaluated]. now rewrite Hb, IH.
Qed.

(** C8 (counterexample). A record in which the paths of two conditions
    resolve to the expected values, one of them a number and one at depth
    five, is not written at all. *)
Lemma matching_record_is_not_written :
  resolve_path (decoded two_matches_line) (split "." "status") = Some (JNum "200") /\
  resolve_path (decoded two_matches_line) (split "." "a.b.c.d.e") = Some (JStr "x") /\
  filterLog json_loads (unlines [two_matches_line]) "status=200,a.b.c.d.e=x" "include"
  = ([], OK tt).
Proof. by_evaluation. Qed.

(** C8 (amended). In [include] mode, with conditions of one to three
    segments, a condition matches a record when its path resolves to a text
    equal to the expected value.  Every condition is evaluated on its own and
    a match writes the record at once: when a condition raises, the record has
    been written once for every matching condition before it; and in a run
    where every line decodes and no condition raises, every record is written
    exactly as many times as it has matching conditions, in input order, with
    no deduplication. *)
Theorem include_writes_once_per_match :
  forall (loads : string -> option json) (file filterVal : string),
    Forall (fun item => shallow item = true) (parseFilters "include" filterVal) ->
    (forall (log : json) (before after : list (list string)) (item : list string)
            (e : exn),
        parseFilters "include" filterVal = before ++ item :: after ->
        Forall (fun c => exists b, include_outcome log c = OK b) before ->
        include_outcome log item = Raise e ->
        filter_items "include" log (parseFilters "include" filterVal) [] 0
        = (repeat (Encoded log) (List.length (filter (string_match log) before)),
           Raise e)) /\
    (forall (logs : list json),
        Forall2 (fun line log =>
                   loads line = Some log /\
                   Forall (fun c => exists b, include_outcome log c = OK b)
                          (parseFilters "include" filterVal))
                (readlines file) logs ->
        filterLog loads file filterVal "include"
        = (flat_map (fun log =>
                       repeat (Encoded log)
                              (List.length
                                 (filter (string_match log)
                                         (parseFilters "include" filterVal))))
                    logs,
           OK tt)).
Proof.
  intros loads file filterVal Hs. split.
  - intros log before after item e Hfl Hb He. rewrite Hfl in *.
    apply Forall_app in Hs as [Hs _].
    rewrite filter_items_app.
    rewrite (include_items_complete log before [] 0 (evaluated_all log before Hb)).
    cbn [app filter_items]. rewrite filter_item_include, He. cbn [bind].
    now rewrite (matches_count_string log before Hs).
  - intros logs H. apply Forall2_right in H as [H E].
    unfold filterLog. rewrite include_lines_complete.
    + cbn [app].
      rewrite (include_writes_of_records loads _ _ logs H). f_equal.
      apply flat_map_ext. intro log. now rewrite matches_count_string.
    + eapply Forall_impl; [|exact (Forall2_exists_right _ _ _ _ H E)].
      cbn beta. intros line [log [Hl He]]. exists log. split; [exact Hl|].
      now apply evaluated_all.
Qed.

Lemma include_writes_once_per_match_witness :
  filterLog json_loads (unlines [instance_line; bucket_line])
            "resource.type=gce_instance,severity= NOTICE,severity=INFO,status=200"
            "include"
  = ([Encoded (decoded instance_line); Encoded (decoded instance_line);
      Encoded (decoded bucket_line)], OK tt) /\
  filter_items "include" (decoded instance_line)
               (parseFilters "include"
                  "severity=NOTICE,severity.level=1,resource.type=gce_instance") [] 0
  = ([Encoded (decoded instance_line)], Raise TypeError).
Proof.
  split.
  - unshelve epose proof
      (proj2 (include_writes_once_per_match json_loads
                (unlines [instance_line; bucket_line])
                "resource.type=gce_instance,severity= NOTICE,severity=INFO,status=200"
                _)
             [decoded instance_line; decoded bucket_line] _) as H.
    + list_evaluated. repeat (apply Forall_cons; [vm_compute; reflexivity|]).
      apply Forall_nil.
    + list_evaluated.
      repeat (apply Forall2_cons;
              [split;
               [vm_compute; reflexivity
               | list_evaluated;
                 repeat (apply Forall_cons; [eexists; vm_compute; reflexivity|]);
                 apply Forall_nil]|]).
      apply Forall2_nil.
    + rewrite H. vm_compute. reflexivity.
  - unshelve epose proof
      (proj1 (include_writes_once_per_match json_loads EmptyString
                "severity=NOTICE,severity.level=1,resource.type=gce_instance" _)
             (decoded instance_line) [["severity"; "NOTICE"]]
             [["resource.type"; "gce_instance"]]
             ["severity.level"; "1"] TypeError _ _ _) as H.
    + list_evaluated. repeat (apply Forall_cons; [vm_compute; reflexivity|]).
      apply Forall_nil.
    + vm_compute. reflexivity.
    + apply Forall_cons; [eexists; vm_compute; reflexivity | apply Forall_nil].
    + vm_compute. reflexivity.
    + rewrite H. vm_compute. reflexivity.
Defined.

(** * Runs on the file system *)

Lemma skip_add (a b : nat) (s : string) : skip (a + b) s = skip b (skip a s).
Proof.
  revert s. induction a as [|a IH]; intro s; [reflexivity|].
  destruct s as [|c s]; cbn [Nat.add skip]; [now destruct b | apply IH].
Qed.

Lemma readlines_skip (c line : string) (rest : list string) :
  readlines c = line :: rest -> readlines (skip (String.length line) c) = rest.
Proof.
  revert line rest. induction c as [|ch c IH]; intros line rest;
    cbn [readlines]; [discriminate|].
  destruct (Ascii.eqb ch nl_char).
  - intro H. inversion H; subst. reflexivity.
  - destruct (readlines c) as [|h t] eqn:E; intro H; inversion H; subst;
      cbn [String.length skip].
    + apply readlines_nil in E. now subst.
    + now apply IH.
Qed.

Lemma fs_append_other (fs : files) (output text path : string) :
  path <> output -> fs_append fs output text path = fs path.
Proof.
  intro H. unfold fs_append. apply String.eqb_neq in H. now rewrite H.
Qed.

Lemma fs_append_output (fs : files) (output text : string) :
  fs_append fs output text output = Some (existing fs output ++ text)%string.
Proof. unfold fs_append. now rewrite String.eqb_refl. Qed.

Lemma write_chunks_app (dumps : json -> string) (fs : files) (output : string)
    (a b : sink) :
  write_chunks dumps fs output (a ++ b)
  = write_chunks dumps (write_chunks dumps fs output a) output b.
Proof. unfold write_chunks. apply fold_left_app. Qed.

Lemma write_chunks_other (dumps : json -> string) (fs : files)
    (output path : string) (added : sink) :
  path <> output -> write_chunks dumps fs output added path = fs path.
Proof.
  intro H. revert fs. unfold write_chunks.
  induction added as [|c added IH]; intro fs; cbn [fold_left]; [reflexivity|].
  rewrite IH. now apply fs_append_other.
Qed.

Lemma write_chunks_text (dumps : json -> string) (fs : files) (output : string)
    (added : sink) :
  write_chunks dumps fs output added output
  = match added with
    | [] => fs output
    | _ => Some (existing fs output ++ file_text dumps added)%string
    end.
Proof.
  revert fs. induction added as [|c added IH]; intro fs; [reflexivity|].
  change (write_chunks dumps fs output (c :: added))
    with (write_chunks dumps (fs_append fs output (chunk_text dumps c)) output added).
  rewrite IH. unfold existing at 1. rewrite fs_append_output.
  destruct added as [|d added]; [unfold file_text; cbn; reflexivity|].
  unfold file_text.
  rewrite (map_cons (chunk_text dumps) c), (concat_empty_cons (chunk_text dumps c)).
  now rewrite append_assoc.
Qed.

Lemma write_chunks_output (dumps : json -> string) (fs : files) (output : string)
    (added : sink) :
  added <> [] ->
  write_chunks dumps fs output added output
  = Some (existing fs output ++ file_text dumps added)%string.
Proof.
  intro H. rewrite write_chunks_text. now destruct added.
Qed.

Section ForLineApart.

Variable dumps : json -> string.
Variable St : Type.
Variable body : St -> string -> St * sink * result unit.

Lemma for_line_in_apart (file output content : string) :
  file <> output ->
  forall (lines : list string) (fuel : nat) (fs : files) (pos : nat) (st : St),
    fs file = Some content ->
    readlines (skip pos content) = lines ->
    (List.length lines < fuel)%nat ->
    for_line_in dumps St body fuel fs file output pos st
    = Some (write_chunks dumps fs output (fst (fst (for_lines St body lines st))),
            snd (fst (for_lines St body lines st)),
            snd (for_lines St body lines st)).
Proof.
  intro Hne. induction lines as [|line rest IH];
    intros fuel fs pos st Hfs Hpos Hfuel;
    (destruct fuel as [|fuel]; [cbn [List.length] in Hfuel; lia|]);
    cbn [for_line_in for_lines]; unfold existing; rewrite Hfs, Hpos.
  - reflexivity.
  - destruct (body st line) as [[st' added] [u|e]]; [|reflexivity].
    rewrite (IH fuel (write_chunks dumps fs output added)
                (pos + String.length line)%nat st').
    + destruct (for_lines St body rest st') as [[more st''] r'].
      cbn [fst snd]. now rewrite write_chunks_app.
    + now rewrite write_chunks_other.
    + rewrite skip_add. now apply readlines_skip.
    + cbn [List.length] in Hfuel. lia.
Qed.

Lemma opened_apart (file output content : string) (fuel : nat) (fs : files)
    (st : St) :
  file <> output ->
  fs file = Some content ->
  (List.length (readlines content) < fuel)%nat ->
  opened dumps St body fuel fs file output st
  = Finished (write_chunks dumps fs output
                           (fst (fst (for_lines St body (readlines content) st))))
             (snd (for_lines St body (readlines content) st)).
Proof.
  intros Hne Hfs Hfuel. unfold opened. rewrite Hfs.
  now rewrite (for_line_in_apart file output content Hne
                 (readlines content) fuel fs 0 st Hfs eq_refl Hfuel).
Qed.

End ForLineApart.

Lemma for_lines_filter (loads : string -> option json) (mode : string)
    (filterList : list (list string)) (lines : list string) :
  for_lines unit (filter_body loads mode filterList) lines tt
  = (fst (filter_lines loads mode filterList lines []), tt,
     snd (filter_lines loads mode filterList lines [])).
Proof.
  induction lines as [|line rest IH]; [reflexivity|].
  cbn [for_lines filter_lines]. unfold filter_body at 1.
  destruct (filter_line loads mode filterList line []) as [added [u|e]];
    [|reflexivity].
  rewrite IH, (filter_lines_shift loads mode filterList rest added).
  reflexivity.
Qed.

Lemma for_lines_window (loads : string -> option json)
    (strptime : string -> string -> option datetime) (a b : datetime)
    (lines : list string) :
  for_lines unit (window_body loads strptime a b) lines tt
  = (fst (window_lines loads strptime a b lines []), tt,
     snd (window_lines loads strptime a b lines [])).
Proof.
  induction lines as [|line rest IH]; [reflexivity|].
  cbn [for_lines window_lines]. unfold window_body at 1.
  destruct (window_line loads strptime a b line) as [[log|]|e];
    [| |reflexivity]; rewrite IH.
  - now rewrite (window_lines_shift loads strptime a b rest
                   (writeOutput (Encoded log) [])).
  - reflexivity.
Qed.






(** X21. The filter and the extractors append to their output and leave
    every other file as it is, when the output is not the file they read:
    run with enough fuel for the lines of the input, [filterLog], [timeslice]
    and [timeframe] finish, and the output holds what it held before followed
    by exactly the records of a run on the content of the input, with the same
    end of the run, also when that end is an exception.  (When the output is
    the file being read, the loop meets what it has appended.) *)
Theorem records_are_appended_to_the_output :
  forall (dumps : json -> string) (loads : string -> option json)
         (strptime : string -> string -> option datetime)
         (fs : files) (file output content : string) (fuel : nat),
    file <> output ->
    fs file = Some content ->
    (List.length (readlines content) < fuel)%nat ->
    (forall (filterVal filterString : string),
        filterLog_in dumps loads fuel fs file output filterVal filterString
        = Finished (write_chunks dumps fs output
                      (fst (filterLog loads content filterVal filterString)))
                   (snd (filterLog loads content filterVal filterString))) /\
    (forall (size : Z) (dateTimeString : string),
        timeslice_in dumps loads strptime fuel fs file output size dateTimeString
        = Finished (write_chunks dumps fs output
                      (fst (timeslice loads strptime content size dateTimeString)))
                   (snd (timeslice loads strptime content size dateTimeString))) /\
    (forall (range : string),
        timeframe_in dumps loads strptime fuel fs file output range
        = Finished (write_chunks dumps fs output
                      (fst (timeframe loads strptime content range)))
                   (snd (timeframe loads strptime content range))) /\
    (forall (added : sink),
        (forall path, path <> output ->
                      write_chunks dumps fs output added path = fs path) /\
        write_chunks dumps fs output added output
        = match added with
          | [] => fs output
          | _ => Some (existing fs output ++ file_text dumps added)%string
          end).
Proof.
  intros dumps loads strptime fs file output content fuel Hne Hfs Hfuel.
  split; [|split; [|split]].
  - intros filterVal mode. unfold filterLog_in, filterLog.
    rewrite (opened_apart dumps unit _ file output content fuel fs tt Hne Hfs Hfuel).
    now rewrite for_lines_filter.
  - intros size dts. unfold timeslice_in, timeslice.
    destruct (timeslice_window strptime size dts) as [[a b]|e]; [|reflexivity].
    rewrite (opened_apart dumps unit _ file output content fuel fs tt Hne Hfs Hfuel).
    now rewrite for_lines_window.
  - intros range. unfold timeframe_in, timeframe.
    destruct (timeframe_window strptime range) as [[a b]|e]; [|reflexivity].
    rewrite (opened_apart dumps unit _ file output content fuel fs tt Hne Hfs Hfuel).
    now rewrite for_lines_window.
  - intro added. split.
    + intros path Hp. now apply write_chunks_other.
    + apply write_chunks_text.
Qed.

Lemma records_are_appended_to_the_output_witness :
  match timeframe_in json_dumps json_loads py_strptime 3 sample_files
                     "day1" "out" "2019-07-22 20:04:01 > 2019-07-22 20:05:01" with
  | Finished fs r =>
      fs "out" = Some ("old" ++ nl ++ json_dumps notice_record ++ nl)%string /\
      fs "day1" = sample_files "day1" /\ r = OK tt
  | _ => False
  end /\
  match filterLog_in json_dumps json_loads 3 sample_files
                     "day1" "out" "severity=NOTICE" "exclude" with
  | Finished fs r =>
      fs "out" = Some ("old" ++ nl ++ json_dumps (decoded before_line) ++ nl)%string /\
      r = OK tt
  | _ => False
  end.
Proof.
  split.
  - unshelve epose proof
      (records_are_appended_to_the_output json_dumps json_loads py_strptime
         sample_files "day1" "out" (unlines [before_line; notice_line]) 3 _ _ _)
      as H.
    + discriminate.
    + reflexivity.
    + vm_compute. lia.
    + destruct H as [_ [_ [H _]]]. rewrite H. vm_compute.
      split; [reflexivity | split; reflexivity].
  - unshelve epose proof
      (records_are_appended_to_the_output json_dumps json_loads py_strptime
         sample_files "day1" "out" (unlines [before_line; notice_line]) 3 _ _ _)
      as H.
    + discriminate.
    + reflexivity.
    + vm_compute. lia.
    + destruct H as [H _]. rewrite H. vm_compute. split; reflexivity.
Defined.


